(** * SupaConsole: provisioning and network exposure core

    A shallow embedding of [src/lib/cloudflared.ts] and [src/lib/project.ts]
    and the properties the specification states about them.

    Part I holds the definitions, in the order of the source files; Part II
    holds the lemmas and theorems. *)

From Stdlib Require Import Ascii String Numbers.DecimalString Numbers.DecimalN.
From Stdlib Require Import Bool Arith NArith ZArith Lia List.
Import ListNotations.

(* ################################################################# *)
(** * Part I: definitions *)

(* ================================================================= *)
(** ** JavaScript strings

    A string is its sequence of UTF-16 code units, each a number below
    65536.  For the code units below 256 (ASCII and Latin-1) the built-in
    functions the source calls are written out; beyond them, they are taken
    from the [Engine]. *)

Module Js.

Definition codeunit := N.

Definition str := list codeunit.

Definition code (c : ascii) : codeunit := N_of_ascii c.

(** String literals of the source are written [lit "..."]. *)
Definition lit (s : string) : str := map code (list_ascii_of_string s).

(** The double quote character. *)
Definition dquote : codeunit := code "034".

(** [s] between double quotes. *)
Definition quoted (s : str) : str := dquote :: s ++ [dquote].

Definition between (lo hi : N) (c : codeunit) : bool :=
  ((lo <=? c) && (c <=? hi))%N.

(** What the JavaScript engine computes where this file does not write it
    out. *)
Class Engine := {
  (** the lower-case image of the code unit [c], 256 or above, that stands
      after the code units [before] (the nearest first) and before [rest]:
      [toLowerCase] works on code points and in context, so that the image
      may be empty, or longer than one code unit *)
  lower_wide : str -> codeunit -> str -> str;
  (** [String(d)] for the double [d] that stands for an integer of
      magnitude above 2^53 *)
  integer_text : Z -> str
}.

(** [String.prototype.toLowerCase] on one code unit below 256: A-Z, and in
    Latin-1 the letters U+00C0..U+00DE except the multiplication sign
    U+00D7. *)
Definition lower_char (c : codeunit) : codeunit :=
  if between 65 90 c || (between 192 222 c && negb (c =? 215)%N)
  then (c + 32)%N
  else c.

Fixpoint lower_from {J : Engine} (before s : str) : str :=
  match s with
  | [] => []
  | c :: rest =>
      (if (c <? 256)%N then [lower_char c] else lower_wide before c rest)
        ++ lower_from (c :: before) rest
  end.

(** [String.prototype.toLowerCase] *)
Definition toLowerCase {J : Engine} (s : str) : str := lower_from [] s.

(** White space and line terminators, as [\s] and [trim] see them. *)
Definition is_space (c : codeunit) : bool :=
  between 9 13 c || (c =? 32)%N || (c =? 160)%N || (c =? 5760)%N
  || between 8192 8202 c || (c =? 8232)%N || (c =? 8233)%N || (c =? 8239)%N
  || (c =? 8287)%N || (c =? 12288)%N || (c =? 65279)%N.

(** Line terminators, as [.], [^] and [$] see them: LF, CR, U+2028 and
    U+2029. *)
Definition is_line_terminator (c : codeunit) : bool :=
  (c =? 10)%N || (c =? 13)%N || (c =? 8232)%N || (c =? 8233)%N.

Fixpoint drop_spaces (s : str) : str :=
  match s with
  | c :: s' => if is_space c then drop_spaces s' else s
  | [] => []
  end.

Definition trim (s : str) : str :=
  rev (drop_spaces (rev (drop_spaces s))).

(** Truthiness of a string value: the empty string is falsy. *)
Definition truthy (s : str) : bool :=
  match s with [] => false | _ :: _ => true end.

(** [v && v.trim().length > 0 ? v : undefined] for an optional string. *)
Definition nonblank (v : option str) : option str :=
  match v with
  | Some s => if truthy s && (0 <? length (trim s)) then Some s else None
  | None => None
  end.

Fixpoint str_eqb (a b : str) : bool :=
  match a, b with
  | [], [] => true
  | x :: a', y :: b' => N.eqb x y && str_eqb a' b'
  | _, _ => false
  end.

Fixpoint strip_prefix (p s : str) : option str :=
  match p, s with
  | [], _ => Some s
  | x :: p', y :: s' => if N.eqb x y then strip_prefix p' s' else None
  | _ :: _, [] => None
  end.

Definition starts_with (p s : str) : bool :=
  match strip_prefix p s with Some _ => true | None => false end.

(** [String.prototype.includes]. *)
Fixpoint includes (needle hay : str) : bool :=
  starts_with needle hay ||
  match hay with
  | [] => false
  | _ :: hay' => includes needle hay'
  end.

(** Decimal rendering of a non-negative integer, as template literals and
    [toString] print it. *)
Definition dec (n : N) : str :=
  lit (NilZero.string_of_uint (N.to_uint n)).

Fixpoint join (sep : str) (parts : list str) : str :=
  match parts with
  | [] => []
  | [p] => p
  | p :: rest => p ++ sep ++ join sep rest
  end.

End Js.

Import Js.

(* ================================================================= *)
(** ** The fragment of regular expressions the source uses

    Every pattern of the source is matched without backtracking, so a pattern
    is represented by the function that, at the head of a string, returns the
    text after the match. *)

Module Regex.

Definition matcher := str -> option str.

(** [content.replace(pattern, replacement)] for a pattern with the [g] flag
    and a replacement text without [$] escapes.  [skip] counts the characters
    of the current match still to be consumed. *)
Fixpoint replace_from (m : matcher) (r : str) (skip : nat) (s : str) : str :=
  match s with
  | [] => match m [] with Some _ => r | None => [] end
  | c :: s' =>
      match skip with
      | S k => replace_from m r k s'
      | O =>
          match m s with
          | Some rest =>
              if length s <=? length rest
              then r ++ c :: replace_from m r 0 s'
              else r ++ replace_from m r (length s' - length rest) s'
          | None => c :: replace_from m r 0 s'
          end
      end
  end.

Definition replace_all (m : matcher) (r : str) (s : str) : str :=
  replace_from m r 0 s.

(** A pattern made of single-character atoms: a literal character or [.]
    (any character but a line terminator). *)
Inductive atom := Chr (c : codeunit) | Dot.

Definition accepts (a : atom) (c : codeunit) : bool :=
  match a with
  | Chr x => N.eqb x c
  | Dot => negb (is_line_terminator c)
  end.

(** [new RegExp(source)] for a source text whose only metacharacter is [.]. *)
Definition atoms_of (source : str) : list atom :=
  map (fun c => if N.eqb c (code ".") then Dot else Chr c) source.

Fixpoint match_atoms (p : list atom) (s : str) : option str :=
  match p, s with
  | [], _ => Some s
  | a :: p', c :: s' => if accepts a c then match_atoms p' s' else None
  | _ :: _, [] => None
  end.

(** A whole line equal to [l] at the head of [s]: the pattern [^l$] with the
    [m] flag, [s] being at a line start. *)
Definition line_end (s : str) : bool :=
  match s with
  | [] => true
  | c :: _ => is_line_terminator c
  end.

Definition line_at (l : str) (s : str) : option str :=
  match strip_prefix l s with
  | Some rest => if line_end rest then Some rest else None
  | None => None
  end.

(** [content.replace(/^l$/m, r)]: only the first such line is replaced.
    [bol] tells whether the scan stands at the beginning of a line. *)
Fixpoint replace_first_line (l r : str) (bol : bool) (s : str) : str :=
  match s with
  | [] => []
  | c :: s' =>
      match (if bol then line_at l s else None) with
      | Some rest => r ++ rest
      | None => c :: replace_first_line l r (is_line_terminator c) s'
      end
  end.

(** Number of lines of [s] equal to [l]. *)
Fixpoint count_lines (l : str) (bol : bool) (s : str) : nat :=
  match s with
  | [] => 0
  | c :: s' =>
      (if bol then match line_at l s with Some _ => 1 | None => 0 end else 0)
      + count_lines l (is_line_terminator c) s'
  end.

End Regex.

Import Regex.

(* ================================================================= *)
(** ** Compose template patcher ([project.ts]) *)

Module Compose.

(** *** Port-variable injection ([injectPortVar], [patchComposePorts]) *)

Definition is_quote (c : codeunit) : bool :=
  N.eqb c dquote || N.eqb c (code "'").

Definition drop_quote (s : str) : str :=
  match s with
  | c :: s' => if is_quote c then s' else s
  | [] => []
  end.

(** The pattern [-\s*["']?<host>:<container>["']?] at the head of [s]. *)
Definition port_pattern (hostPort containerPort : N) : matcher :=
  fun s =>
    match s with
    | c :: s1 =>
        if N.eqb c (code "-") then
          match strip_prefix (dec hostPort ++ lit ":" ++ dec containerPort)
                             (drop_quote (drop_spaces s1)) with
          | Some s2 => Some (drop_quote s2)
          | None => None
          end
        else None
    | [] => None
    end.

Definition port_replacement (hostPort containerPort : N) (varName : str) : str :=
  lit "- " ++ lit "${" ++ varName ++ lit ":-" ++ dec hostPort ++ lit "}"
    ++ lit ":" ++ dec containerPort.

Definition injectPortVar (content : str) (hostPort containerPort : N)
    (varName : str) : str :=
  let pattern := port_pattern hostPort containerPort in
  let replacement := port_replacement hostPort containerPort varName in
  replace_all pattern replacement content.

(** The six rewrites of [patchComposePorts], on the text of the file. *)
Definition patchPortsText (content : str) : str :=
  let content := injectPortVar content 8000 8000 (lit "KONG_HTTP_PORT") in
  let content := injectPortVar content 8443 8443 (lit "KONG_HTTPS_PORT") in
  let content := injectPortVar content 3000 3000 (lit "STUDIO_PORT") in
  let content := injectPortVar content 4000 4000 (lit "ANALYTICS_PORT") in
  let content := injectPortVar content 5432 5432 (lit "POSTGRES_PORT") in
  let content :=
    injectPortVar content 6543 6543 (lit "POOLER_PROXY_PORT_TRANSACTION") in
  content.

(** *** Identity rewrite (in [createProject]) *)

Definition is_digit (c : codeunit) : bool := between 48 57 c.

(** The class [[a-z0-9]]. *)
Definition is_lower_alnum (c : codeunit) : bool :=
  between 97 122 c || is_digit c.

(** The class [[a-z0-9-]]. *)
Definition is_slug_char (c : codeunit) : bool :=
  is_lower_alnum c || N.eqb c (code "-").

(** [`${name.toLowerCase().replace(/[^a-z0-9]/g, '-')}-${timestamp}`] *)
Definition createProject_slug {J : Engine} (name : str) (timestamp : N)
    : str :=
  map (fun c => if is_lower_alnum c then c else code "-") (toLowerCase name)
    ++ lit "-" ++ dec timestamp.

(** [containerMappings]: pairs (original, replacement). *)
Definition containerMappings (slug : str) : list (str * str) :=
  [ (lit "supabase-studio", slug ++ lit "-studio");
    (lit "supabase-kong", slug ++ lit "-kong");
    (lit "supabase-auth", slug ++ lit "-auth");
    (lit "supabase-rest", slug ++ lit "-rest");
    (lit "realtime-dev.supabase-realtime",
     lit "realtime-dev." ++ slug ++ lit "-realtime");
    (lit "supabase-storage", slug ++ lit "-storage");
    (lit "supabase-imgproxy", slug ++ lit "-imgproxy");
    (lit "supabase-meta", slug ++ lit "-meta");
    (lit "supabase-edge-functions", slug ++ lit "-edge-functions");
    (lit "supabase-analytics", slug ++ lit "-analytics");
    (lit "supabase-db", slug ++ lit "-db");
    (lit "supabase-vector", slug ++ lit "-vector");
    (lit "supabase-pooler", slug ++ lit "-pooler") ].

Definition container_pattern (original : str) : matcher :=
  match_atoms (atoms_of (lit "container_name: " ++ original)).

(** One turn of the loop over [containerMappings].  The replacement text is
    taken literally: a slug of [createProject] holds no [$]. *)
Definition renameContainer (content : str) (mapping : str * str) : str :=
  replace_all (container_pattern (fst mapping))
              (lit "container_name: " ++ snd mapping) content.

Definition identityRewrite (slug : str) (dockerComposeContent : str) : str :=
  let content :=
    fold_left renameContainer (containerMappings slug) dockerComposeContent in
  replace_first_line (lit "name: supabase") (lit "name: " ++ slug) true content.

(** The same six triples as a table, in the order they are applied. *)
Definition portTable : list (N * N * str) :=
  [ (8000, 8000, lit "KONG_HTTP_PORT");
    (8443, 8443, lit "KONG_HTTPS_PORT");
    (3000, 3000, lit "STUDIO_PORT");
    (4000, 4000, lit "ANALYTICS_PORT");
    (5432, 5432, lit "POSTGRES_PORT");
    (6543, 6543, lit "POOLER_PROXY_PORT_TRANSACTION") ]%N.

Definition inject_entry (content : str) (e : N * N * str) : str :=
  let '(hostPort, containerPort, varName) := e in
  injectPortVar content hostPort containerPort varName.

Definition entry_pattern (e : N * N * str) : matcher :=
  let '(hostPort, containerPort, _) := e in
  port_pattern hostPort containerPort.

Definition entry_replacement (e : N * N * str) : str :=
  let '(hostPort, containerPort, varName) := e in
  port_replacement hostPort containerPort varName.

End Compose.

Import Compose.

(* ================================================================= *)
(** ** The world the operations run in

    External collaborators are part of an explicit state: the Project Store,
    the DNS zone, the ingress document of the tunnel daemon and the files
    the core reads and writes.  What the core cannot decide (whether a
    command succeeds, what the clock shows) is read from an [Oracle]. *)

Module Runtime.

(** *** Thrown values and outcomes *)

Inductive exn :=
| JsError (message : str)   (* an [Error] object *)
| NonError.                 (* any other thrown value *)

Inductive res (A : Type) :=
| Ok (a : A)
| Throw (e : exn).
Arguments Ok {A} a.
Arguments Throw {A} e.

(** *** Project Store *)

Record Project := {
  p_id : str;
  p_name : str;
  p_slug : str;
  p_description : option str;
  p_ownerId : str;
  p_status : str
}.

Record EnvVar := {
  v_projectId : str;
  v_key : str;
  v_value : str
}.

(** *** DNS zone: the CNAME records the provider holds.  Record identifiers
    are chosen by the provider; the core only passes them back. *)

Record DnsRecord := {
  d_id : N;
  d_name : str;
  d_content : str;
  d_proxied : bool
}.

(** *** Ingress document *)

(** A value under a key of a mapping: a string, or anything else (a
    number, a boolean, [null], a list, a mapping), of which the source sees
    the truthiness and the image under [String]. *)
Inductive Value :=
| VStr (s : str)
| VOther (truthy : bool) (image : str).

Record Rule := {
  r_hostname : option Value;
  r_service : option Value;
  r_other : list (str * str)     (* path, originRequest, ... *)
}.

(** An item of the [ingress] list: a mapping, or anything else ([null], a
    scalar, a list), which has no [hostname] and no [service]. *)
Inductive Entry :=
| Mapping (r : Rule)
| NotAMapping (raw : str).

(** A mapping at the top level.  [c_ingress = None] stands for a missing
    [ingress] key or one that is not a list. *)
Record Config := {
  c_tunnel : option Value;
  c_ingress : option (list Entry);
  c_other : list (str * str)     (* credentials-file, ... *)
}.

(** What [YAML.parse] gives for the file, when it is truthy: a mapping, a
    sequence, or a scalar (a non-empty string, a number other than zero,
    [true]).  A scalar takes no property: [set_fault] is the message of the
    [TypeError] raised by the assignment of one. *)
Inductive Document :=
| DocMapping (config : Config)
| DocSequence (items : list Entry)
| DocScalar (set_fault : str).

(** *** Observable effects *)

Inductive DnsCall := DnsList | DnsCreate | DnsUpdate | DnsDelete.

Inductive Event :=
| EvExec (command : str) (cwd : option str)
| EvWriteFile (path : str)
| EvMkdir (path : str)
| EvDns (call : DnsCall) (hostname : str).

Record World := {
  projects : list Project;
  envVars : list EnvVar;
  files : list (str * str);        (* text files by path, first binding wins *)
  dirs : list str;
  zone : list DnsRecord;
  tunnelConfig : option Document;  (* [None]: missing, unreadable, not YAML,
                                      or parsed to a falsy value *)
  rng : nat;                       (* random numbers drawn so far *)
  trace : list Event               (* newest first *)
}.

(** *** What the environment decides *)

Inductive HttpOutcome :=
| HttpOk
| HttpNotOk (status : N) (body : str)   (* [!resp.ok] *)
| HttpFail (message : str).             (* [fetch] rejects *)

Inductive FsCall := FsRead | FsWrite | FsMkdir | FsAccess.

Inductive DbCall :=
| DbProjectCreate | DbProjectFind | DbProjectUpdate | DbProjectDelete
| DbEnvCreate | DbEnvUpsert | DbEnvFindMany | DbEnvDeleteMany.

Record Oracle := {
  exec_result : str -> option str -> res str;   (* command, cwd: stdout or fault *)
  http_outcome : DnsCall -> HttpOutcome;
  fs_fault : FsCall -> str -> option exn;
  db_fault : DbCall -> option exn;
  now : N;                                      (* [Date.now()] *)
  random : nat -> N;                            (* [Math.random()], scaled *)
  new_project_id : str                          (* id the store assigns *)
}.

(** The process and its platform: [process.env], [process.platform],
    [process.cwd()] and [os.homedir()], which throw when the directory is
    gone or cannot be determined, and [path.join] and [path.dirname] of the
    platform. *)
Record Env := {
  getenv : str -> option str;
  win32 : bool;
  cwd : res str;
  homedir : res str;
  path_join : list str -> str;
  dirname : str -> str
}.

(** [path.sep] *)
Definition sep (E : Env) : str := if win32 E then [92%N] else lit "/".

(** *** The monad of operations: state and exceptions *)

Definition M (A : Type) : Type := World -> res A * World.

Definition ret {A} (a : A) : M A := fun w => (Ok a, w).

Definition bind {A B} (m : M A) (k : A -> M B) : M B :=
  fun w =>
    match m w with
    | (Ok a, w') => k a w'
    | (Throw e, w') => (Throw e, w')
    end.

Definition throw {A} (e : exn) : M A := fun w => (Throw e, w).

(** [throw new Error(message)] *)
Definition throw_error {A} (message : str) : M A := throw (JsError message).

(** [try { body } catch (e) { handler e }] *)
Definition try_catch {A} (body : M A) (handler : exn -> M A) : M A :=
  fun w =>
    match body w with
    | (Ok a, w') => (Ok a, w')
    | (Throw e, w') => handler e w'
    end.

Definition get : M World := fun w => (Ok w, w).

(** A call that returns or throws without touching the world. *)
Definition lift {A} (r : res A) : M A := fun w => (r, w).

Definition modify (f : World -> World) : M unit := fun w => (Ok tt, f w).

Declare Scope op_scope.
Delimit Scope op_scope with op.
Notation "x <- m ;; k" := (bind m (fun x => k))
  (at level 61, m at next level, right associativity) : op_scope.
Notation "m ;; k" := (bind m (fun _ => k))
  (at level 61, right associativity) : op_scope.
Open Scope op_scope.

(** [error instanceof Error ? error.message : 'Unknown error'] *)
Definition message_of (e : exn) : str :=
  match e with
  | JsError message => message
  | NonError => lit "Unknown error"
  end.

(** *** Updates of one component of the world *)

Definition set_projects (ps : list Project) (w : World) : World :=
  {| projects := ps; envVars := envVars w; files := files w; dirs := dirs w;
     zone := zone w; tunnelConfig := tunnelConfig w; rng := rng w;
     trace := trace w |}.

Definition set_envVars (vs : list EnvVar) (w : World) : World :=
  {| projects := projects w; envVars := vs; files := files w; dirs := dirs w;
     zone := zone w; tunnelConfig := tunnelConfig w; rng := rng w;
     trace := trace w |}.

Definition set_files (fs : list (str * str)) (w : World) : World :=
  {| projects := projects w; envVars := envVars w; files := fs; dirs := dirs w;
     zone := zone w; tunnelConfig := tunnelConfig w; rng := rng w;
     trace := trace w |}.

Definition set_dirs (ds : list str) (w : World) : World :=
  {| projects := projects w; envVars := envVars w; files := files w; dirs := ds;
     zone := zone w; tunnelConfig := tunnelConfig w; rng := rng w;
     trace := trace w |}.

Definition set_zone (z : list DnsRecord) (w : World) : World :=
  {| projects := projects w; envVars := envVars w; files := files w;
     dirs := dirs w; zone := z; tunnelConfig := tunnelConfig w; rng := rng w;
     trace := trace w |}.

Definition set_tunnelConfig (c : option Document) (w : World) : World :=
  {| projects := projects w; envVars := envVars w; files := files w;
     dirs := dirs w; zone := zone w; tunnelConfig := c; rng := rng w;
     trace := trace w |}.

Definition set_rng (n : nat) (w : World) : World :=
  {| projects := projects w; envVars := envVars w; files := files w;
     dirs := dirs w; zone := zone w; tunnelConfig := tunnelConfig w; rng := n;
     trace := trace w |}.

Definition add_event (ev : Event) (w : World) : World :=
  {| projects := projects w; envVars := envVars w; files := files w;
     dirs := dirs w; zone := zone w; tunnelConfig := tunnelConfig w;
     rng := rng w; trace := ev :: trace w |}.

Definition emit (ev : Event) : M unit := modify (add_event ev).

Fixpoint lookup (key : str) (l : list (str * str)) : option str :=
  match l with
  | [] => None
  | (k, v) :: l' => if str_eqb k key then Some v else lookup key l'
  end.

(** *** External calls *)

Section Primitives.

Variable o : Oracle.

(** [execAsync(command, { cwd })]: resolves with the standard output or
    rejects. *)
Definition exec (command : str) (cwd : option str) : M str :=
  emit (EvExec command cwd) ;;
  fun w => (exec_result o command cwd, w).

(** *** Files *)

Definition readFile (path : str) : M str :=
  match fs_fault o FsRead path with
  | Some e => throw e
  | None =>
      w <- get ;;
      match lookup path (files w) with
      | Some content => ret content
      | None => throw_error (lit "ENOENT: no such file or directory, open '"
                               ++ path ++ lit "'")
      end
  end.

Definition writeFile (path content : str) : M unit :=
  match fs_fault o FsWrite path with
  | Some e => throw e
  | None =>
      emit (EvWriteFile path) ;;
      modify (fun w => set_files ((path, content) :: files w) w)
  end.

(** [fs.mkdir(path, { recursive: true })] *)
Definition mkdir (path : str) : M unit :=
  match fs_fault o FsMkdir path with
  | Some e => throw e
  | None =>
      emit (EvMkdir path) ;;
      modify (fun w => set_dirs (path :: dirs w) w)
  end.

(** [fs.access(path).then(() => true).catch(() => false)] *)
Definition exists_dir (path : str) : M bool :=
  match fs_fault o FsAccess path with
  | Some _ => ret false
  | None => w <- get ;; ret (existsb (str_eqb path) (dirs w))
  end.

(** *** Project Store (the Prisma client of [./db]) *)

Definition db (call : DbCall) {A} (action : M A) : M A :=
  match db_fault o call with
  | Some e => throw e
  | None => action
  end.

(** [prisma.project.create]: the store assigns the id and the status
    [created]. *)
Definition project_create (name slug : str) (description : option str)
    (ownerId : str) : M Project :=
  db DbProjectCreate
     (let project := {| p_id := new_project_id o; p_name := name;
                        p_slug := slug; p_description := description;
                        p_ownerId := ownerId; p_status := lit "created" |} in
      modify (fun w => set_projects (projects w ++ [project]) w) ;;
      ret project).

Definition has_id (id : str) (p : Project) : bool := str_eqb (p_id p) id.

Definition project_findUnique (id : str) : M (option Project) :=
  db DbProjectFind (w <- get ;; ret (find (has_id id) (projects w))).

Definition with_status (status : str) (p : Project) : Project :=
  {| p_id := p_id p; p_name := p_name p; p_slug := p_slug p;
     p_description := p_description p; p_ownerId := p_ownerId p;
     p_status := status |}.

(** [prisma.project.update({ where: { id }, data: { status } })] *)
Definition project_update_status (id status : str) : M unit :=
  db DbProjectUpdate
     (w <- get ;;
      if existsb (has_id id) (projects w)
      then modify (set_projects
                     (map (fun p => if has_id id p then with_status status p
                                    else p) (projects w)))
      else throw_error (lit "Record to update not found.")).

Definition project_delete (id : str) : M unit :=
  db DbProjectDelete
     (w <- get ;;
      if existsb (has_id id) (projects w)
      then modify (set_projects
                     (filter (fun p => negb (has_id id p)) (projects w)))
      else throw_error (lit "Record to delete does not exist.")).

Definition is_var (projectId key : str) (v : EnvVar) : bool :=
  str_eqb (v_projectId v) projectId && str_eqb (v_key v) key.

Definition envVar_create (projectId key value : str) : M unit :=
  db DbEnvCreate
     (modify (fun w =>
                set_envVars (envVars w ++ [{| v_projectId := projectId;
                                              v_key := key;
                                              v_value := value |}]) w)).

(** [prisma.projectEnvVar.upsert], keyed by (projectId, key). *)
Definition envVar_upsert (projectId key value : str) : M unit :=
  let row := {| v_projectId := projectId; v_key := key; v_value := value |} in
  db DbEnvUpsert
     (modify (fun w =>
                if existsb (is_var projectId key) (envVars w)
                then set_envVars
                       (map (fun v => if is_var projectId key v then row
                                      else v) (envVars w)) w
                else set_envVars (envVars w ++ [row]) w)).

Definition envVar_findMany (projectId : str) : M (list EnvVar) :=
  db DbEnvFindMany
     (w <- get ;;
      ret (filter (fun v => str_eqb (v_projectId v) projectId) (envVars w))).

Definition envVar_deleteMany (projectId : str) : M unit :=
  db DbEnvDeleteMany
     (modify (fun w =>
                set_envVars
                  (filter (fun v => negb (str_eqb (v_projectId v) projectId))
                          (envVars w)) w)).

(** *** DNS provider: one request, answered with a status the oracle picks *)

Definition dns_request {A} (call : DnsCall) (what : str) (hostname : str)
    (answer : M A) : M A :=
  emit (EvDns call hostname) ;;
  match http_outcome o call with
  | HttpOk => answer
  | HttpNotOk status body =>
      throw_error (lit "Cloudflare API error (" ++ what ++ lit " DNS): "
                     ++ dec status ++ lit " " ++ body)
  | HttpFail message => throw_error message
  end.

(** [GET dns_records?type=CNAME&name=<hostname>] *)
Definition dns_list (hostname : str) : M (list DnsRecord) :=
  dns_request DnsList (lit "list") hostname
    (w <- get ;;
     ret (filter (fun r => str_eqb (d_name r) hostname) (zone w))).

Definition fresh_id (z : list DnsRecord) : N :=
  N.succ (fold_right N.max 0%N (map d_id z)).

(** [POST dns_records]: a proxied CNAME [hostname -> target]. *)
Definition dns_create (hostname target : str) : M unit :=
  dns_request DnsCreate (lit "create") hostname
    (modify (fun w =>
               set_zone (zone w ++ [{| d_id := fresh_id (zone w);
                                       d_name := hostname;
                                       d_content := target;
                                       d_proxied := true |}]) w)).

(** [PUT dns_records/<id>] *)
Definition dns_update (id : N) (hostname target : str) : M unit :=
  dns_request DnsUpdate (lit "update") hostname
    (modify (fun w =>
               set_zone
                 (map (fun r => if (d_id r =? id)%N
                                then {| d_id := id; d_name := hostname;
                                        d_content := target;
                                        d_proxied := true |}
                                else r) (zone w)) w)).

(** [DELETE dns_records/<id>] *)
Definition dns_delete (id : N) (hostname : str) : M unit :=
  dns_request DnsDelete (lit "delete") hostname
    (modify (fun w =>
               set_zone (filter (fun r => negb (d_id r =? id)%N) (zone w)) w)).

End Primitives.

End Runtime.

Import Runtime.

(* ================================================================= *)
(** ** Network exposure manager ([cloudflared.ts]) *)

Module Cloudflared.

(** Numbers (doubles) as the callers produce them.  [Int z] is the double
    nearest to the integer [z], which up to 2^53 in magnitude is [z] itself;
    [NaN] is what [parseInt] gives for a text without digits; [Other text] is
    any other double, a fraction or an infinity, [text] being its image under
    [String]. *)
Inductive number :=
| Int (z : Z)
| NaN
| Other (text : str).

(** Every double but zero and [NaN] is truthy. *)
Definition truthy_number (n : number) : bool :=
  match n with
  | Int z => negb (z =? 0)%Z
  | NaN => false
  | Other _ => true
  end.

(** [`${n}`]: an integer up to 2^53 in magnitude prints its decimal
    digits. *)
Definition number_to_string {J : Engine} (n : number) : str :=
  match n with
  | Int z =>
      if (Z.abs z <=? 2 ^ 53)%Z
      then if (z <? 0)%Z then lit "-" ++ dec (Z.abs_N z) else dec (Z.to_N z)
      else integer_text z
  | NaN => lit "NaN"
  | Other text => text
  end.

Record EnsureExposureArgs := {
  projectName : str;
  projectSlug : str;
  port : option number;
  internalUrl : option str
}.

Record EnsureExposureResult := {
  hostname : str;
  publicUrl : str
}.

(** [input.toLowerCase().replace(/[^a-z0-9-]/g, '-')] *)
Definition sanitizeSlug {J : Engine} (input : str) : str :=
  map (fun c => if is_slug_char c then c else code "-") (toLowerCase input).

(** [{ service: 'http_status:404' }] *)
Definition catch_all : Entry :=
  Mapping {| r_hostname := None;
             r_service := Some (VStr (lit "http_status:404"));
             r_other := [] |}.

(** [r && typeof r === 'object' && r.service === 'http_status:404'] *)
Definition is_404 (r : Entry) : bool :=
  match r with
  | Mapping rule =>
      match r_service rule with
      | Some (VStr service) => str_eqb service (lit "http_status:404")
      | _ => false
      end
  | NotAMapping _ => false
  end.

Definition ensureCatchAll404 (ingress : list Entry) : list Entry :=
  let without404 := filter (fun r => negb (is_404 r)) ingress in
  without404 ++ [catch_all].

Definition value_truthy (v : Value) : bool :=
  match v with
  | VStr s => truthy s
  | VOther truthy _ => truthy
  end.

(** [String(v)] *)
Definition value_string (v : Value) : str :=
  match v with
  | VStr s => s
  | VOther _ image => image
  end.

(** [r && r.hostname &&
     String(r.hostname).toLowerCase() === hostname.toLowerCase()] *)
Definition same_hostname {J : Engine} (hostname : str) (r : Entry) : bool :=
  match r with
  | Mapping rule =>
      match r_hostname rule with
      | Some h =>
          value_truthy h
          && str_eqb (toLowerCase (value_string h)) (toLowerCase hostname)
      | None => false
      end
  | NotAMapping _ => false
  end.

(** [{}] *)
Definition empty_config : Config :=
  {| c_tunnel := None; c_ingress := None; c_other := [] |}.

Section Operations.

Context {J : Engine}.

Variables (E : Env) (o : Oracle).

Definition getEnvOrThrow (key : str) : M str :=
  match getenv E key with
  | Some v =>
      if truthy v then ret v
      else throw_error (lit "Missing required environment variable: " ++ key)
  | None => throw_error (lit "Missing required environment variable: " ++ key)
  end.

Definition ensureCloudflareCname (hostname target : str) : M unit :=
  token <- getEnvOrThrow (lit "CF_API_TOKEN") ;;
  zoneId <- getEnvOrThrow (lit "CF_ZONE_ID") ;;
  result <- dns_list o hostname ;;
  match result with
  | existing :: _ =>
      if negb (str_eqb (d_content existing) target)
         || negb (d_proxied existing)
      then dns_update o (d_id existing) hostname target
      else ret tt
  | [] => dns_create o hostname target
  end.

Definition deleteCloudflareCname (hostname : str) : M unit :=
  token <- getEnvOrThrow (lit "CF_API_TOKEN") ;;
  zoneId <- getEnvOrThrow (lit "CF_ZONE_ID") ;;
  result <- dns_list o hostname ;;
  match result with
  | existing :: _ => dns_delete o (d_id existing) hostname
  | [] => ret tt
  end.

(** Returns the path, or throws what [os.homedir()] throws. *)
Definition getConfigPath : res str :=
  match nonblank (getenv E (lit "CF_TUNNEL_CONFIG_PATH")) with
  | Some envPath => Ok envPath
  | None =>
      match homedir E with
      | Ok home =>
          Ok (path_join E [home; lit ".cloudflared"; lit "config.yml"])
      | Throw e => Throw e
      end
  end.

(** [YAML.parse(content) || {}]; any failure reads as [{}]. *)
Definition readYamlFile (filePath : str) : M Document :=
  w <- get ;;
  match fs_fault o FsRead filePath, tunnelConfig w with
  | None, Some document => ret document
  | _, _ => ret (DocMapping empty_config)
  end.

Definition writeYamlFile (filePath : str) (data : Document) : M unit :=
  mkdir o (dirname E filePath) ;;
  match fs_fault o FsWrite filePath with
  | Some e => throw e
  | None =>
      emit (EvWriteFile filePath) ;;
      modify (set_tunnelConfig (Some data))
  end.

Definition tryExec (cmd : str) : M bool :=
  try_catch (exec o cmd None ;; ret true) (fun _ => ret false).

Definition isProcessRunningCloudflared : M bool :=
  if win32 E then
    tryExec (lit "tasklist /FI " ++ quoted (lit "IMAGENAME eq cloudflared.exe")
               ++ lit " | find /I " ++ quoted (lit "cloudflared.exe"))
  else
    a <- tryExec (lit "pgrep -x cloudflared >/dev/null 2>&1") ;;
    if a then ret true
    else tryExec (lit "pgrep -f " ++ quoted (lit "cloudflared.*tunnel")
                    ++ lit " >/dev/null 2>&1").

(** The first of two commands to succeed ends the attempt. *)
Definition either (first second : str) : M bool :=
  a <- tryExec first ;;
  if a then ret true else tryExec second.

Definition reloadCloudflared (configPath tunnelUuid : str) : M unit :=
  viaSystemctl <-
    (if negb (win32 E) then
       has <- tryExec (lit "command -v systemctl >/dev/null 2>&1") ;;
       if has then either (lit "systemctl reload cloudflared")
                          (lit "systemctl restart cloudflared")
       else ret false
     else ret false) ;;
  if viaSystemctl then ret tt else
  viaService <-
    (if negb (win32 E) then
       has <- tryExec (lit "command -v service >/dev/null 2>&1") ;;
       if has then either (lit "service cloudflared reload")
                          (lit "service cloudflared restart")
       else ret false
     else ret false) ;;
  if viaService then ret tt else
  viaSc <-
    (if win32 E then
       hasSc <- tryExec (lit "sc query cloudflared >NUL 2>&1") ;;
       if hasSc then
         tryExec (lit "sc stop cloudflared") ;;
         tryExec (lit "sc start cloudflared") ;;
         ret true
       else ret false
     else ret false) ;;
  if viaSc then ret tt else
  viaSignal <-
    (if negb (win32 E) then
       either (lit "pkill -HUP -x cloudflared")
              (lit "pkill -HUP -f " ++ quoted (lit "cloudflared.*tunnel"))
     else ret false) ;;
  if viaSignal then ret tt else
  running <- isProcessRunningCloudflared ;;
  if negb running then
    let cmd := lit "cloudflared --config " ++ quoted configPath
                 ++ lit " tunnel run " ++ tunnelUuid in
    (if win32 E
     then tryExec (lit "start " ++ quoted [] ++ lit " /B " ++ cmd)
     else tryExec (lit "nohup " ++ cmd ++ lit " >/dev/null 2>&1 &")) ;;
    ret tt
  else ret tt.

(** [cloudflared tunnel ingress validate], with [-f] and then with
    [--config]. *)
Definition validateIngress (configPath : str) : M unit :=
  try_catch
    (exec o (lit "cloudflared tunnel ingress validate -f "
               ++ quoted configPath) None ;; ret tt)
    (fun _ =>
       exec o (lit "cloudflared tunnel ingress validate --config "
                 ++ quoted configPath) None ;; ret tt).

(** [{ hostname, service: serviceUrl }] *)
Definition host_rule (hostname serviceUrl : str) : Entry :=
  Mapping {| r_hostname := Some (VStr hostname);
             r_service := Some (VStr serviceUrl);
             r_other := [] |}.

Definition ensureTunnelIngress (hostname serviceUrl tunnelUuid : str)
    : M unit :=
  configPath <- lift getConfigPath ;;
  config <- readYamlFile configPath ;;
  match config with
  | DocMapping config =>
      let ingress :=
        match c_ingress config with Some items => items | None => [] end in
      (* replace any previous rule of the same hostname and add the new one *)
      let ingress :=
        filter (fun r => negb (same_hostname hostname r)) ingress in
      let ingress := ingress ++ [host_rule hostname serviceUrl] in
      let ingress := ensureCatchAll404 ingress in
      writeYamlFile configPath
        (DocMapping {| c_tunnel := Some (VStr tunnelUuid);
                       c_ingress := Some ingress;
                       c_other := c_other config |}) ;;
      validateIngress configPath ;;
      reloadCloudflared configPath tunnelUuid
  | DocSequence items =>
      (* an array takes the properties [tunnel] and [ingress], and
         [YAML.stringify] writes its items only *)
      writeYamlFile configPath (DocSequence items) ;;
      validateIngress configPath ;;
      reloadCloudflared configPath tunnelUuid
  | DocScalar set_fault =>
      (* [config.tunnel = tunnelUuid] *)
      throw_error set_fault
  end.

Definition removeTunnelIngress (hostname tunnelUuid : str) : M unit :=
  configPath <- lift getConfigPath ;;
  config <- readYamlFile configPath ;;
  match config with
  | DocMapping config =>
      match c_ingress config with
      | Some items =>
          let filtered :=
            filter (fun r => negb (same_hostname hostname r)) items in
          writeYamlFile configPath
            (DocMapping {| c_tunnel := c_tunnel config;
                           c_ingress := Some (ensureCatchAll404 filtered);
                           c_other := c_other config |}) ;;
          validateIngress configPath ;;
          reloadCloudflared configPath tunnelUuid
      | None => ret tt
      end
  | DocSequence _ | DocScalar _ =>
      (* [config.ingress] is undefined *)
      ret tt
  end.

(** The internal service target of [ensureProjectPublicExposure]; [None]
    where the source throws. *)
Definition serviceUrlOf (args : EnsureExposureArgs) : option str :=
  match nonblank (internalUrl args) with
  | Some url => Some url
  | None =>
      match nonblank (getenv E (lit "INTERNAL_REVERSE_PROXY_URL")) with
      | Some url => Some url
      | None =>
          match port args with
          | Some p =>
              if truthy_number p
              then Some (lit "http://127.0.0.1:" ++ number_to_string p)
              else None
          | None => None
          end
      end
  end.

(** [args.projectSlug || args.projectName] *)
Definition slugOrName (slug name : str) : str :=
  if truthy slug then slug else name.

Definition ensureProjectPublicExposure (args : EnsureExposureArgs)
    : M EnsureExposureResult :=
  baseDomain <- getEnvOrThrow (lit "BASE_DOMAIN") ;;
  tunnelUuid <- getEnvOrThrow (lit "CF_TUNNEL_UUID") ;;
  let projectSlug :=
    sanitizeSlug (slugOrName (projectSlug args) (projectName args)) in
  let hostname := projectSlug ++ lit "." ++ baseDomain in
  serviceUrl <-
    match serviceUrlOf args with
    | Some url => ret url
    | None =>
        throw_error
          (lit "Cannot determine service URL: provide internalUrl or port")
    end ;;
  let tunnelDnsTarget := tunnelUuid ++ lit ".cfargotunnel.com" in
  ensureCloudflareCname hostname tunnelDnsTarget ;;
  ensureTunnelIngress hostname serviceUrl tunnelUuid ;;
  let publicUrl := lit "https://" ++ hostname in
  ret {| hostname := hostname; publicUrl := publicUrl |}.

Definition cleanupProjectExposure (projectSlug projectName : option str)
    : M unit :=
  baseDomain <- getEnvOrThrow (lit "BASE_DOMAIN") ;;
  tunnelUuid <- getEnvOrThrow (lit "CF_TUNNEL_UUID") ;;
  let slugOrName :=
    match projectSlug with
    | Some s => if truthy s then Some s else projectName
    | None => projectName
    end in
  match slugOrName with
  | Some s =>
      if truthy s then
        let projectSlug := sanitizeSlug s in
        let hostname := projectSlug ++ lit "." ++ baseDomain in
        try_catch (deleteCloudflareCname hostname) (fun _ => ret tt) ;;
        try_catch (removeTunnelIngress hostname tunnelUuid) (fun _ => ret tt)
      else throw_error
             (lit "cleanupProjectExposure requires projectSlug or projectName")
  | None =>
      throw_error
        (lit "cleanupProjectExposure requires projectSlug or projectName")
  end.

End Operations.

End Cloudflared.

Import Cloudflared.

(* ================================================================= *)
(** ** Project lifecycle manager ([project.ts]) *)

Module Project.

(** *** Secrets and tokens *)

Definition alphabet : str :=
  lit "ABCDEFGHIJKLMNOPQRSTUVWXYZabcdefghijklmnopqrstuvwxyz0123456789".

(** [Buffer.from(text).toString('base64url')] for an ASCII text, whose
    bytes are its code units. *)
Definition base64_char (n : N) : codeunit :=
  nth (N.to_nat (n mod 64)) (alphabet ++ lit "-_") (code "A").

Fixpoint base64url (bytes : str) : str :=
  match bytes with
  | a :: b :: c :: rest =>
      let n := (a * 65536 + b * 256 + c)%N in
      base64_char (n / 262144) :: base64_char (n / 4096)
        :: base64_char (n / 64) :: base64_char n :: base64url rest
  | [a; b] =>
      let n := (a * 65536 + b * 256)%N in
      [base64_char (n / 262144); base64_char (n / 4096); base64_char (n / 64)]
  | [a] =>
      let n := (a * 65536)%N in
      [base64_char (n / 262144); base64_char (n / 4096)]
  | [] => []
  end.

(** The type ['anon' | 'service_role']. *)
Inductive role := anon | service_role.

Definition role_text (r : role) : str :=
  match r with
  | anon => lit "anon"
  | service_role => lit "service_role"
  end.

(** [JSON.stringify] of a flat object of strings that need no escape and
    non-negative integers. *)
Inductive json_value := JString (s : str) | JNumber (n : N).

Definition json_object (fields : list (str * json_value)) : str :=
  lit "{"
    ++ join (lit ",")
         (map (fun kv =>
                 quoted (fst kv) ++ lit ":" ++
                 match snd kv with
                 | JString v => quoted v
                 | JNumber n => dec n
                 end) fields)
    ++ lit "}".

(** [parseInt(text, 10)]: leading white space, a sign, and the longest run
    of decimal digits; the result is the double nearest to their value. *)
Fixpoint digits_value (acc : N) (s : str) : N :=
  match s with
  | c :: s' =>
      if is_digit c then digits_value (acc * 10 + (c - 48))%N s'
      else acc
  | [] => acc
  end.

Definition parseInt (text : str) : number :=
  let body := drop_spaces text in
  let '(negative, body) :=
    match body with
    | c :: rest =>
        if N.eqb c (code "-") then (true, rest)
        else if N.eqb c (code "+") then (false, rest)
        else (false, body)
    | [] => (false, body)
    end in
  match body with
  | c :: _ =>
      if is_digit c then
        let n := Z.of_N (digits_value 0 body) in
        Int (if negative then - n else n)%Z
      else NaN
  | [] => NaN
  end.

(** *** Results *)

Record Result := {
  success : bool;
  error_message : option str;
  created_project : option Project;
  public_url : option str
}.

Definition succeeded : Result :=
  {| success := true; error_message := None; created_project := None;
     public_url := None |}.

(** [{ success: false, error: error instanceof Error ? error.message
                                                      : 'Unknown error' }] *)
Definition failed (e : exn) : Result :=
  {| success := false; error_message := Some (message_of e);
     created_project := None; public_url := None |}.

Record Checks := {
  docker : bool;
  dockerCompose : bool;
  internetConnection : bool
}.

(** [cp -r core/docker project/]: the files below [src] appear below [dst]. *)
Definition copy_tree (sep src dst : str) (fs : list (str * str))
    : list (str * str) :=
  flat_map (fun entry =>
              match strip_prefix (src ++ sep) (fst entry) with
              | Some rel => [(dst ++ sep ++ rel, snd entry)]
              | None => []
              end) fs.

(** [Object.fromEntries(envVars.map(v => [v.key, v.value]))[key]]: the last
    row of a key wins. *)
Definition varMap (envVars : list EnvVar) (key : str) : option str :=
  match find (fun v => str_eqb (v_key v) key) (rev envVars) with
  | Some v => Some (v_value v)
  | None => None
  end.

(** [a || b] on optional strings. *)
Definition or_else (a b : option str) : option str :=
  match a with
  | Some s => if truthy s then a else b
  | None => b
  end.

Section Operations.

Context {J : Engine}.

Variables (E : Env) (o : Oracle).

(** [process.cwd()] *)
Definition process_cwd : M str := lift (cwd E).

Fixpoint generateRandomString (length : nat) : M str :=
  match length with
  | O => ret []
  | S n =>
      w <- get ;;
      modify (set_rng (S (rng w))) ;;
      let c := nth (N.to_nat (random o (rng w) mod 62)) alphabet (code "A") in
      rest <- generateRandomString n ;;
      ret (c :: rest)
  end.

Definition generateJWT (role : role) (timestamp : N) : M str :=
  let header :=
    base64url (json_object [(lit "alg", JString (lit "HS256"));
                            (lit "typ", JString (lit "JWT"))]) in
  let payload :=
    base64url (json_object
                 [(lit "role", JString (role_text role));
                  (lit "iss", JString (lit "supabase"));
                  (lit "iat", JNumber (timestamp / 1000));
                  (lit "exp", JNumber (timestamp / 1000 + 365 * 24 * 60 * 60))])
  in
  signature <- generateRandomString 43 ;;
  ret (header ++ lit "." ++ payload ++ lit "." ++ signature).

(** A probe: [true] when the command succeeds, [false] when it throws. *)
Definition probe (command : str) : M bool :=
  try_catch (exec o command None ;; ret true) (fun _ => ret false).

Fixpoint probe_endpoints (endpoints : list str) : M bool :=
  match endpoints with
  | [] => ret false
  | endpoint :: rest =>
      ok <- probe (lit "curl -s --max-time 10 --head " ++ endpoint) ;;
      if ok then ret true else probe_endpoints rest
  end.

Definition checkInternetConnectivity : M bool :=
  http <- probe_endpoints [lit "https://www.google.com";
                           lit "https://1.1.1.1";
                           lit "https://8.8.8.8"] ;;
  if http then ret true else
  dns <- probe (lit "nslookup google.com") ;;
  if dns then ret true else
  ping <- probe (if win32 E then lit "ping -n 1 8.8.8.8"
                 else lit "ping -c 1 8.8.8.8") ;;
  if ping then ret true else
  probe (lit "docker pull alpine:latest").

Definition checkDockerPrerequisites : M Checks :=
  docker <- probe (lit "docker --version") ;;
  dockerCompose <- probe (lit "docker compose version") ;;
  internetConnection <- checkInternetConnectivity ;;
  ret {| docker := docker; dockerCompose := dockerCompose;
         internetConnection := internetConnection |}.

Definition patchComposePorts (composeFile : str) : M unit :=
  content <- readFile o composeFile ;;
  let before := content in
  let content := patchPortsText content in
  if negb (str_eqb content before)
  then writeFile o composeFile content
  else ret tt.

Definition initializeSupabaseCore : M Result :=
  cwd <- process_cwd ;;
  let coreDir := path_join E [cwd; lit "supabase-core"] in
  cwd <- process_cwd ;;
  let projectsDir := path_join E [cwd; lit "supabase-projects"] in
  try_catch
    (coreExists <- exists_dir o coreDir ;;
     projectsExists <- exists_dir o projectsDir ;;
     (if negb projectsExists then mkdir o projectsDir else ret tt) ;;
     (if negb coreExists then
        let repoUrl :=
          match getenv E (lit "SUPABASE_CORE_REPO_URL") with
          | Some url =>
              if truthy url then url
              else lit "https://github.com/supabase/supabase"
          | None => lit "https://github.com/supabase/supabase"
          end in
        exec o (lit "git clone --depth 1 " ++ repoUrl ++ lit " supabase-core")
             None ;;
        (* the clone creates the directory *)
        modify (fun w => set_dirs (coreDir :: dirs w) w)
      else ret tt) ;;
     ret succeeded)
    (fun e => ret (failed e)).

(** [8000 + (timestamp % 10000)] *)
Definition createProject_basePort (timestamp : N) : N :=
  (8000 + timestamp mod 10000)%N.

Definition defaultEnvVars (timestamp : N) : M (list (str * str)) :=
  let basePort := createProject_basePort timestamp in
  POSTGRES_PASSWORD <- generateRandomString 32 ;;
  JWT_SECRET <- generateRandomString 64 ;;
  ANON_KEY <- generateJWT anon timestamp ;;
  SERVICE_ROLE_KEY <- generateJWT service_role timestamp ;;
  DASHBOARD_PASSWORD <- generateRandomString 16 ;;
  SECRET_KEY_BASE <- generateRandomString 64 ;;
  VAULT_ENC_KEY <- generateRandomString 32 ;;
  LOGFLARE_PUBLIC_ACCESS_TOKEN <- generateRandomString 64 ;;
  LOGFLARE_PRIVATE_ACCESS_TOKEN <- generateRandomString 64 ;;
  ret [ (lit "POSTGRES_PASSWORD", POSTGRES_PASSWORD);
        (lit "JWT_SECRET", JWT_SECRET);
        (lit "ANON_KEY", ANON_KEY);
        (lit "SERVICE_ROLE_KEY", SERVICE_ROLE_KEY);
        (lit "DASHBOARD_USERNAME", lit "supabase");
        (lit "DASHBOARD_PASSWORD", DASHBOARD_PASSWORD);
        (lit "SECRET_KEY_BASE", SECRET_KEY_BASE);
        (lit "VAULT_ENC_KEY", VAULT_ENC_KEY);
        (lit "POSTGRES_PORT", dec (basePort + 2000));
        (lit "POOLER_PROXY_PORT_TRANSACTION", dec (basePort + 3000));
        (lit "KONG_HTTP_PORT", dec basePort);
        (lit "KONG_HTTPS_PORT", dec (basePort + 443));
        (lit "ANALYTICS_PORT", dec (basePort + 1000));
        (lit "POSTGRES_HOST", lit "db");
        (lit "POSTGRES_DB", lit "postgres");
        (lit "POOLER_DEFAULT_POOL_SIZE", lit "20");
        (lit "POOLER_MAX_CLIENT_CONN", lit "100");
        (lit "POOLER_TENANT_ID", lit "project-" ++ dec timestamp);
        (lit "POOLER_DB_POOL_SIZE", lit "5");
        (lit "PGRST_DB_SCHEMAS", lit "public,storage,graphql_public");
        (lit "SITE_URL", lit "http://localhost:" ++ dec basePort);
        (lit "ADDITIONAL_REDIRECT_URLS", []);
        (lit "JWT_EXPIRY", lit "3600");
        (lit "DISABLE_SIGNUP", lit "false");
        (lit "API_EXTERNAL_URL", lit "http://localhost:" ++ dec basePort);
        (lit "MAILER_URLPATHS_CONFIRMATION", lit "/auth/v1/verify");
        (lit "MAILER_URLPATHS_INVITE", lit "/auth/v1/verify");
        (lit "MAILER_URLPATHS_RECOVERY", lit "/auth/v1/verify");
        (lit "MAILER_URLPATHS_EMAIL_CHANGE", lit "/auth/v1/verify");
        (lit "ENABLE_EMAIL_SIGNUP", lit "true");
        (lit "ENABLE_EMAIL_AUTOCONFIRM", lit "false");
        (lit "SMTP_ADMIN_EMAIL", lit "admin@example.com");
        (lit "SMTP_HOST", lit "supabase-mail");
        (lit "SMTP_PORT", lit "2500");
        (lit "SMTP_USER", lit "fake_mail_user");
        (lit "SMTP_PASS", lit "fake_mail_password");
        (lit "SMTP_SENDER_NAME", lit "fake_sender");
        (lit "ENABLE_ANONYMOUS_USERS", lit "false");
        (lit "ENABLE_PHONE_SIGNUP", lit "true");
        (lit "ENABLE_PHONE_AUTOCONFIRM", lit "true");
        (lit "STUDIO_DEFAULT_ORGANIZATION", lit "Default Organization");
        (lit "STUDIO_DEFAULT_PROJECT", lit "Default Project");
        (lit "STUDIO_PORT", dec (basePort + 100));
        (lit "SUPABASE_PUBLIC_URL", lit "http://localhost:" ++ dec basePort);
        (lit "IMGPROXY_ENABLE_WEBP_DETECTION", lit "true");
        (lit "OPENAI_API_KEY", []);
        (lit "FUNCTIONS_VERIFY_JWT", lit "false");
        (lit "LOGFLARE_PUBLIC_ACCESS_TOKEN", LOGFLARE_PUBLIC_ACCESS_TOKEN);
        (lit "LOGFLARE_PRIVATE_ACCESS_TOKEN", LOGFLARE_PRIVATE_ACCESS_TOKEN);
        (lit "DOCKER_SOCKET_LOCATION", lit "/var/run/docker.sock");
        (lit "GOOGLE_PROJECT_ID", lit "GOOGLE_PROJECT_ID");
        (lit "GOOGLE_PROJECT_NUMBER", lit "GOOGLE_PROJECT_NUMBER") ].

(** [Object.entries(vars).map(([key, value]) => `${key}=${value}`)
     .join('\n')] *)
Definition envContent (vars : list (str * str)) : str :=
  join (lit "
") (map (fun kv => fst kv ++ lit "=" ++ snd kv) vars).

Fixpoint for_each {A} (items : list A) (body : A -> M unit) : M unit :=
  match items with
  | [] => ret tt
  | item :: rest => body item ;; for_each rest body
  end.

Definition createProject (name userId : str) (description : option str)
    : M Result :=
  try_catch
    (let timestamp := now o in
     let slug := createProject_slug name timestamp in
     project <- project_create o name slug description userId ;;
     cwd <- process_cwd ;;
     let projectDir := path_join E [cwd; lit "supabase-projects"; slug] in
     cwd <- process_cwd ;;
     let coreDockerDir :=
       path_join E [cwd; lit "supabase-core"; lit "docker"] in
     mkdir o projectDir ;;
     let copyCommand :=
       if win32 E
       then lit "xcopy " ++ quoted coreDockerDir ++ lit " "
              ++ quoted (path_join E [projectDir; lit "docker"])
              ++ lit " /E /I /H /K"
       else lit "cp -r " ++ quoted coreDockerDir ++ lit " "
              ++ quoted (projectDir ++ lit "/") in
     exec o copyCommand None ;;
     (* the copy creates [docker] below the project directory *)
     modify (fun w =>
               set_files
                 (copy_tree (sep E) coreDockerDir
                            (path_join E [projectDir; lit "docker"]) (files w)
                  ++ files w) w) ;;
     let dockerComposeFile :=
       path_join E [projectDir; lit "docker"; lit "docker-compose.yml"] in
     dockerComposeContent <- readFile o dockerComposeFile ;;
     let dockerComposeContent := identityRewrite slug dockerComposeContent in
     writeFile o dockerComposeFile dockerComposeContent ;;
     patchComposePorts dockerComposeFile ;;
     vars <- defaultEnvVars timestamp ;;
     let envFilePath := path_join E [projectDir; lit "docker"; lit ".env"] in
     writeFile o envFilePath (envContent vars) ;;
     for_each vars
       (fun kv => envVar_create o (p_id project) (fst kv) (snd kv)) ;;
     ret {| success := true; error_message := None;
            created_project := Some project; public_url := None |})
    (fun e => ret (failed e)).

Definition updateProjectEnvVars (projectId : str)
    (envVars : list (str * str)) : M Result :=
  try_catch
    (found <- project_findUnique o projectId ;;
     match found with
     | None => throw_error (lit "Project not found")
     | Some project =>
         for_each envVars
           (fun kv => envVar_upsert o projectId (fst kv) (snd kv)) ;;
         cwd <- process_cwd ;;
         let projectDir :=
           path_join E [cwd; lit "supabase-projects"; p_slug project;
                        lit "docker"] in
         let envFilePath := path_join E [projectDir; lit ".env"] in
         writeFile o envFilePath (envContent envVars) ;;
         ret succeeded
     end)
    (fun e => ret (failed e)).

(** The message thrown for a failed [docker compose] run. *)
Definition composeFailure (errorMessage : str) : str :=
  if includes (lit "maxBuffer length exceeded") errorMessage then
    lit "Docker deployment generated too much output. This usually means the deployment is working but Docker is downloading many large images. Please wait a few more minutes and check Docker Desktop to see if containers are starting. You can also try running "
      ++ quoted (lit "docker compose up -d")
      ++ lit " manually in the project directory."
  else if includes (lit "no such host") errorMessage
          || includes (lit "dial tcp") errorMessage then
    lit "Network connectivity issue: Unable to reach Docker registry. This might be due to:

1. Internet connection issues
2. Corporate firewall blocking Docker registry
3. DNS resolution problems

Solution: Try running "
      ++ quoted (lit "docker pull supabase/postgres")
      ++ lit " manually to test connectivity, or work with your IT team to allow access to Docker Hub."
  else if includes (lit "permission denied") errorMessage then
    lit "Docker permission denied. Please ensure:

1. Docker Desktop is running
2. Your user is in the "
      ++ quoted (lit "docker")
      ++ lit " group (Linux/Mac)
3. You have administrator privileges (Windows)"
  else if includes (lit "not found") errorMessage then
    lit "Docker or Docker Compose not found. Please install Docker Desktop from https://docker.com/products/docker-desktop"
  else if includes (lit "image") errorMessage
          && includes (lit "not found") errorMessage then
    lit "Required Docker images not found. Please ensure you have internet connectivity and try again, or manually pull images with "
      ++ quoted (lit "docker compose pull")
  else lit "Docker deployment failed: " ++ errorMessage.

Definition deployProject (projectId : str) : M Result :=
  try_catch
    (found <- project_findUnique o projectId ;;
     match found with
     | None => throw_error (lit "Project not found")
     | Some project =>
         cwd <- process_cwd ;;
         let projectDir :=
           path_join E [cwd; lit "supabase-projects"; p_slug project;
                        lit "docker"] in
         let composeFile :=
           path_join E [projectDir; lit "docker-compose.yml"] in
         try_catch (patchComposePorts composeFile) (fun _ => ret tt) ;;
         checks <- checkDockerPrerequisites ;;
         if negb (docker checks) then
           throw_error (lit "Docker is not installed or not running. Please install Docker Desktop and ensure it is started before deploying.")
         else if negb (dockerCompose checks) then
           throw_error (lit "Docker Compose is not available. Please ensure Docker Desktop includes Docker Compose or install it separately.")
         else
           try_catch
             ((if internetConnection checks
               then try_catch
                      (exec o (lit "docker compose pull") (Some projectDir) ;;
                       ret tt)
                      (fun _ => ret tt)
               else ret tt) ;;
              exec o (lit "docker compose up -d --remove-orphans")
                   (Some projectDir) ;;
              ret tt)
             (fun composeError =>
                let errorMessage :=
                  match composeError with
                  | JsError message => message
                  | NonError => lit "Unknown Docker error"
                  end in
                throw_error (composeFailure errorMessage)) ;;
           try_catch
             (exec o (lit "docker compose ps --format json")
                   (Some projectDir) ;;
              ret tt)
             (fun _ => ret tt) ;;
           envVars <- envVar_findMany o projectId ;;
           let portStr :=
             or_else (or_else (varMap envVars (lit "KONG_HTTP_PORT"))
                              (varMap envVars (lit "STUDIO_PORT")))
                     (varMap envVars (lit "POSTGRES_PORT")) in
           let port :=
             match portStr with
             | Some text => if truthy text then Some (parseInt text) else None
             | None => None
             end in
           let internalProxy :=
             nonblank (getenv E (lit "INTERNAL_REVERSE_PROXY_URL")) in
           exposure <-
             ensureProjectPublicExposure E o
               {| projectName := p_name project;
                  projectSlug := p_slug project;
                  port := port;
                  internalUrl := internalProxy |} ;;
           envVar_upsert o projectId (lit "PUBLIC_HOSTNAME")
                         (hostname exposure) ;;
           envVar_upsert o projectId (lit "PUBLIC_URL") (publicUrl exposure) ;;
           project_update_status o projectId (lit "active") ;;
           ret {| success := true; error_message := None;
                  created_project := None;
                  public_url := Some (publicUrl exposure) |}
     end)
    (fun e => ret (failed e)).

Definition pauseProject (projectId : str) : M Result :=
  try_catch
    (found <- project_findUnique o projectId ;;
     match found with
     | None => throw_error (lit "Project not found")
     | Some project =>
         cwd <- process_cwd ;;
         let projectDir :=
           path_join E [cwd; lit "supabase-projects"; p_slug project;
                        lit "docker"] in
         exec o (lit "docker compose stop") (Some projectDir) ;;
         project_update_status o projectId (lit "paused") ;;
         ret succeeded
     end)
    (fun e => ret (failed e)).

(** [rm -rf projectDir]: the directory and the files below it are gone. *)
Definition remove_tree (projectDir : str) (w : World) : World :=
  set_dirs (filter (fun d => negb (str_eqb d projectDir)) (dirs w))
    (set_files
       (filter (fun entry =>
                  negb (starts_with (projectDir ++ sep E) (fst entry)))
               (files w)) w).

Definition deleteProject (projectId : str) : M Result :=
  try_catch
    (found <- project_findUnique o projectId ;;
     match found with
     | None => throw_error (lit "Project not found")
     | Some project =>
         cwd <- process_cwd ;;
         let projectDir :=
           path_join E [cwd; lit "supabase-projects"; p_slug project] in
         let dockerDir := path_join E [projectDir; lit "docker"] in
         (* Step 1: stop and remove Docker containers *)
         try_catch
           (exec o (lit "docker compose down --volumes --remove-orphans")
                 (Some dockerDir) ;;
            ret tt)
           (fun _ => ret tt) ;;
         (* Step 2: Cloudflare DNS + cloudflared ingress cleanup *)
         try_catch
           (cleanupProjectExposure E o (Some (p_slug project))
                                   (Some (p_name project)))
           (fun _ => ret tt) ;;
         (* Step 3: remove project directory *)
         try_catch
           (let removeCommand :=
              if win32 E then lit "rmdir /s /q " ++ quoted projectDir
              else lit "rm -rf " ++ quoted projectDir in
            exec o removeCommand None ;;
            modify (remove_tree projectDir))
           (fun _ => ret tt) ;;
         (* Step 4: clean up database records *)
         try_catch
           (envVar_deleteMany o projectId ;;
            project_delete o projectId)
           (fun _ => throw_error (lit "Failed to remove project from database")) ;;
         ret succeeded
     end)
    (fun e => ret (failed e)).

End Operations.

End Project.

Import Project.

(* ================================================================= *)
(** ** Sample environments, used to run the operations on concrete inputs *)

Module Sample.

(** The samples hold ASCII texts and small integers only, which the engine
    is not asked about. *)
Definition engine : Engine :=
  {| lower_wide := fun _ c _ => [c];
     integer_text := fun z =>
       if (z <? 0)%Z then lit "-" ++ dec (Z.abs_N z) else dec (Z.to_N z) |}.

(** [path.posix.dirname]: the path up to the last [/] that is not at its
    end, looked for from the second character on. *)
Fixpoint dirname_end (matchedSlash : bool) (rev_path : str) : option str :=
  match rev_path with
  | c :: (_ :: _) as rest =>
      if N.eqb c (code "/")
      then if matchedSlash then dirname_end true rest else Some rest
      else dirname_end false rest
  | _ => None
  end.

Definition posix_dirname (path : str) : str :=
  match path with
  | [] => lit "."
  | c :: _ =>
      let hasRoot := N.eqb c (code "/") in
      match dirname_end true (rev path) with
      | None => if hasRoot then lit "/" else lit "."
      | Some rev_dir =>
          if hasRoot && (length rev_dir =? 1) then lit "//" else rev rev_dir
      end
  end.

(** A POSIX host.  The paths of the samples need no normalisation, so that
    [path.join] puts a [/] between the segments. *)
Definition env : Env :=
  {| getenv := fun key =>
       lookup key [ (lit "BASE_DOMAIN", lit "example.com");
                    (lit "CF_TUNNEL_UUID", lit "0a1b2c3d");
                    (lit "CF_API_TOKEN", lit "secret-token");
                    (lit "CF_ZONE_ID", lit "zone-1") ];
     win32 := false;
     cwd := Ok (lit "/srv/console");
     homedir := Ok (lit "/home/console");
     path_join := join (lit "/");
     dirname := posix_dirname |}.

(** The same host after the working directory of the process was removed:
    [process.cwd()] throws. *)
Definition env_without_cwd : Env :=
  {| getenv := getenv env;
     win32 := false;
     cwd := Throw (JsError (lit "ENOENT: no such file or directory, uv_cwd"));
     homedir := Ok (lit "/home/console");
     path_join := join (lit "/");
     dirname := posix_dirname |}.

(** Every external call succeeds. *)
Definition healthy : Oracle :=
  {| exec_result := fun _ _ => Ok [];
     http_outcome := fun _ => HttpOk;
     fs_fault := fun _ _ => None;
     db_fault := fun _ => None;
     now := 1700000000123;
     random := fun n => N.of_nat n;
     new_project_id := lit "p1" |}.

(** Every [docker] command fails; everything else succeeds. *)
Definition no_docker : Oracle :=
  {| exec_result := fun command _ =>
       if starts_with (lit "docker") command
       then Throw (JsError (lit "/bin/sh: 1: docker: not found"))
       else Ok [];
     http_outcome := fun _ => HttpOk;
     fs_fault := fun _ _ => None;
     db_fault := fun _ => None;
     now := 1700000000123;
     random := fun n => N.of_nat n;
     new_project_id := lit "p1" |}.

(** The store refuses to delete a project row. *)
Definition broken_store : Oracle :=
  {| exec_result := fun _ _ => Ok [];
     http_outcome := fun _ => HttpOk;
     fs_fault := fun _ _ => None;
     db_fault := fun call =>
       match call with
       | DbProjectDelete => Some (JsError (lit "database is locked"))
       | _ => None
       end;
     now := 1700000000123;
     random := fun n => N.of_nat n;
     new_project_id := lit "p1" |}.

Definition demo : Project :=
  {| p_id := lit "p1"; p_name := lit "Demo";
     p_slug := lit "demo-1700000000123"; p_description := None;
     p_ownerId := lit "u1"; p_status := lit "created" |}.

Definition compose_path : str :=
  lit "/srv/console/supabase-projects/demo-1700000000123/docker/docker-compose.yml".

(** Every external call succeeds; the clock shows [timestamp] and the store
    assigns [id] to a new project. *)
Definition at_time (timestamp : N) (id : str) : Oracle :=
  {| exec_result := fun _ _ => Ok [];
     http_outcome := fun _ => HttpOk;
     fs_fault := fun _ _ => None;
     db_fault := fun _ => None;
     now := timestamp;
     random := fun n => N.of_nat n;
     new_project_id := id |}.

(** A host after [initializeSupabaseCore]: the template is there and no
    project yet. *)
Definition installed : World :=
  {| projects := [];
     envVars := [];
     files := [ (lit "/srv/console/supabase-core/docker/docker-compose.yml",
                 lit "name: supabase
services:
  kong:
    container_name: supabase-kong
    ports:
      - 8000:8000
      - 8443:8443") ];
     dirs := [ lit "/srv/console/supabase-core";
               lit "/srv/console/supabase-projects" ];
     zone := [];
     tunnelConfig := None;
     rng := 0;
     trace := [] |}.

Definition hostname : str := lit "demo-1700000000123.example.com".

(** One project, created and not yet deployed; nothing exposed. *)
Definition world : World :=
  {| projects := [demo];
     envVars := [ {| v_projectId := lit "p1"; v_key := lit "KONG_HTTP_PORT";
                     v_value := lit "8123" |} ];
     files := [ (compose_path, lit "name: supabase
services:
  kong:
    container_name: supabase-kong
    ports:
      - 8000:8000
      - 8443:8443") ];
     dirs := [lit "/srv/console/supabase-projects/demo-1700000000123"];
     zone := [];
     tunnelConfig := None;
     rng := 0;
     trace := [] |}.

(** The same project, deployed: its record and its rule exist. *)
Definition exposed : World :=
  {| projects := [demo];
     envVars := envVars world;
     files := files world;
     dirs := dirs world;
     zone := [ {| d_id := 7; d_name := hostname;
                  d_content := lit "0a1b2c3d.cfargotunnel.com";
                  d_proxied := true |} ];
     tunnelConfig :=
       Some (DocMapping
               {| c_tunnel := Some (VStr (lit "0a1b2c3d"));
                  c_ingress :=
                    Some [ host_rule hostname (lit "http://127.0.0.1:8123");
                           catch_all ];
                  c_other := [] |});
     rng := 0;
     trace := [] |}.

(** The same project, not deployed, on a host whose ingress file holds a
    list of rules at its top level. *)
Definition listed : World :=
  {| projects := [demo];
     envVars := envVars world;
     files := files world;
     dirs := dirs world;
     zone := [];
     tunnelConfig :=
       Some (DocSequence
               [ host_rule (lit "other.example.com")
                           (lit "http://127.0.0.1:9000");
                 catch_all ]);
     rng := 0;
     trace := [] |}.

Definition args : EnsureExposureArgs :=
  {| projectName := lit "Demo"; projectSlug := lit "demo-1700000000123";
     port := Some (Int 8123); internalUrl := None |}.

(** The same call with the catch-all service as its internal URL. *)
Definition args_404 : EnsureExposureArgs :=
  {| projectName := lit "Demo"; projectSlug := lit "demo-1700000000123";
     port := Some (Int 8123); internalUrl := Some (lit "http_status:404") |}.

(** A call with port 0 and nothing else to go by. *)
Definition args_port_0 : EnsureExposureArgs :=
  {| projectName := lit "Demo"; projectSlug := lit "demo-1700000000123";
     port := Some (Int 0); internalUrl := None |}.


(** The DNS provider refuses every request. *)
Definition dns_refused : Oracle :=
  {| exec_result := fun _ _ => Ok [];
     http_outcome := fun _ => HttpNotOk 403 (lit "forbidden");
     fs_fault := fun _ _ => None;
     db_fault := fun _ => None;
     now := 1700000000123;
     random := fun n => N.of_nat n;
     new_project_id := lit "p1" |}.

(** Every [cloudflared] command fails; everything else succeeds. *)
Definition no_cloudflared : Oracle :=
  {| exec_result := fun command _ =>
       if starts_with (lit "cloudflared") command
       then Throw (JsError (lit "/bin/sh: 1: cloudflared: not found"))
       else Ok [];
     http_outcome := fun _ => HttpOk;
     fs_fault := fun _ _ => None;
     db_fault := fun _ => None;
     now := 1700000000123;
     random := fun n => N.of_nat n;
     new_project_id := lit "p1" |}.

(** Docker answers, Docker Compose does not. *)
Definition no_compose : Oracle :=
  {| exec_result := fun command _ =>
       if starts_with (lit "docker compose") command
       then Throw (JsError (lit "docker: 'compose' is not a docker command."))
       else Ok [];
     http_outcome := fun _ => HttpOk;
     fs_fault := fun _ _ => None;
     db_fault := fun _ => None;
     now := 1700000000123;
     random := fun n => N.of_nat n;
     new_project_id := lit "p1" |}.

(** [docker compose up] is refused by the Docker daemon. *)
Definition compose_up_fails : Oracle :=
  {| exec_result := fun command _ =>
       if starts_with (lit "docker compose up") command
       then Throw (JsError (lit "permission denied while trying to connect to the Docker daemon socket"))
       else Ok [];
     http_outcome := fun _ => HttpOk;
     fs_fault := fun _ _ => None;
     db_fault := fun _ => None;
     now := 1700000000123;
     random := fun n => N.of_nat n;
     new_project_id := lit "p1" |}.


Definition config_path : str := lit "/home/console/.cloudflared/config.yml".

Definition docker_dir : str :=
  lit "/srv/console/supabase-projects/demo-1700000000123/docker".

End Sample.

(* ================================================================= *)
(** ** Vocabulary of the statements *)

(** No suffix of [s] starts with a match of [m]: the pattern occurs nowhere
    in [s]. *)
Definition NoMatch (m : matcher) (s : str) : Prop :=
  forall a b, s = a ++ b -> m b = None.

(** The slug starts like one of the generic container names (the [.] of
    [realtime-dev.supabase-realtime] standing for any character), or with
    [supabase-realtime]. *)
Definition generic_prefixed (slug : str) : bool :=
  existsb (fun original =>
             match match_atoms (atoms_of original) slug with
             | Some _ => true
             | None => false
             end)
          (map fst (containerMappings []))
  || starts_with (lit "supabase-realtime") slug.

(** The CNAME records of the zone for [h]. *)
Definition dns_records (h : str) (z : list DnsRecord) : list DnsRecord :=
  filter (fun r => str_eqb (d_name r) h) z.

(** The ingress list of the document: the list under the key [ingress] of
    a mapping. *)
Definition ingress_of (c : option Document) : list Entry :=
  match c with
  | Some (DocMapping config) =>
      match c_ingress config with Some items => items | None => [] end
  | _ => []
  end.

(** The item is a rule for the hostname [h]. *)
Definition rule_for (h : str) (e : Entry) : bool :=
  match e with
  | Mapping r =>
      match r_hostname r with
      | Some (VStr x) => str_eqb x h
      | _ => false
      end
  | NotAMapping _ => false
  end.

(** The six host ports [createProject] derives from the creation time:
    Kong HTTP, Studio, Kong HTTPS, analytics, Postgres and the pooler. *)
Definition ports_from (basePort : N) : list N :=
  [ basePort; basePort + 100; basePort + 443; basePort + 1000;
    basePort + 2000; basePort + 3000 ]%N.

Definition createProject_ports (timestamp : N) : list N :=
  ports_from (createProject_basePort timestamp).

Definition port_keys : list str :=
  [ lit "KONG_HTTP_PORT"; lit "STUDIO_PORT"; lit "KONG_HTTPS_PORT";
    lit "ANALYTICS_PORT"; lit "POSTGRES_PORT";
    lit "POOLER_PROXY_PORT_TRANSACTION" ].

(** The distances between two base ports at which two of the derived ports
    coincide: the differences of two offsets. *)
Definition colliding_distances : list N :=
  [ 0; 100; 343; 443; 557; 900; 1000; 1557; 1900; 2000; 2557; 2900; 3000 ]%N.

Definition distance (a b : N) : N := if (a <? b)%N then (b - a)%N else (a - b)%N.

(** The rows of the Project Store. *)
Definition store (w : World) : list Project * list EnvVar :=
  (projects w, envVars w).

(** What the exposure of the projects consists of. *)
Definition exposure (w : World) : list DnsRecord * option Document :=
  (zone w, tunnelConfig w).

(** The environment variable [key] is set to the non-empty text [v]. *)
Definition configured (E : Env) (key v : str) : Prop :=
  getenv E key = Some v /\ truthy v = true.


(** A match consumes at least one character and returns what follows it. *)
Definition proper (m : matcher) : Prop :=
  forall s rest, m s = Some rest -> exists c pre, s = c :: pre ++ rest.

(** *** Sequences of replacements *)

(** One pass of a sequence of global replacements: entry [j] of the table
    gives the pattern [pat j] and the replacement text [rep j]. *)
Definition pass {T} (pat : T -> matcher) (rep : T -> str) (s : str) (j : T)
    : str :=
  replace_all (pat j) (rep j) s.

(** The generic container names. *)
Definition originals : list str := map fst (containerMappings []).

(** A rewriting [f] that leaves every character other than [c0] in place
    and keeps a leading [c0]: a global replacement whose pattern and
    replacement text both start with the literal [c0]. *)
Definition head_stable (c0 : codeunit) (f : str -> str) : Prop :=
  f [] = [] /\
  (forall c t, c <> c0 -> f (c :: t) = c :: f t) /\
  (forall t, exists t', f (c0 :: t) = c0 :: t').

(** *** Shapes of patterns *)

(** The atom accepts none of the four line terminators. *)
Definition rejects_terminators (a : atom) : bool :=
  negb (accepts a 10%N) && negb (accepts a 13%N)
  && negb (accepts a 8232%N) && negb (accepts a 8233%N).

(** Atoms that accept a digit. *)
Definition accepts_digit (a : atom) : bool :=
  existsb (accepts a) (lit "0123456789").

(** No atom that accepts [-] is last or followed by one accepting a digit:
    the pattern cannot end inside the [-<timestamp>] tail of a slug. *)
Fixpoint tail_safe (p : list atom) : bool :=
  match p with
  | [] => true
  | a :: p' =>
      (negb (accepts a (code "-"))
       || match p' with [] => false | b :: _ => negb (accepts_digit b) end)
      && tail_safe p'
  end.

(** Some atom rejects every slug character, and no atom before it accepts
    [-] or a line terminator: the pattern cannot start inside a slug. *)
Fixpoint slug_blocked (p : list atom) : bool :=
  match p with
  | [] => false
  | a :: p' =>
      negb (accepts a (code "-")) && rejects_terminators a
      && (match a with Chr x => negb (is_slug_char x) | Dot => false end
          || slug_blocked p')
  end.

(** What may follow a slug: the end of the text, a [-] or a line terminator. *)
Definition slug_stop (w : str) : Prop :=
  match w with
  | [] => True
  | c :: _ => c = code "-" \/ is_line_terminator c = true
  end.

(** No two consecutive atoms accept [co]: the pattern cannot run into the
    start of a [container_name: ...] entry. *)
Fixpoint co_safe (p : list atom) : bool :=
  match p with
  | a :: (b :: _) as p' => negb (accepts a (code "c") && accepts b (code "o")) && co_safe p'
  | _ => true
  end.

(** The text holds no line terminator. *)
Definition no_lt (s : str) : Prop :=
  Forall (fun c => is_line_terminator c = false) s.

(** No atom of the pattern accepts a line terminator. *)
Definition lt_free (p : list atom) : bool :=
  forallb rejects_terminators p.

(** *** Runs of operations *)

(** [m] never throws. *)
Definition total {A} (m : M A) : Prop :=
  forall w, exists a w', m w = (Ok a, w').

(** [m] leaves the component [f] of the world as it found it, whether it
    returns or throws. *)
Definition keeps {A X} (f : World -> X) (m : M A) : Prop :=
  forall w, f (snd (m w)) = f w.

(** [m] only adds events to the trace, whether it returns or throws. *)
Definition grows {A} (m : M A) : Prop :=
  forall w, exists events, trace (snd (m w)) = events ++ trace w.

(** What the removal of the project directory leaves, by the outcome of the
    command. *)
Definition after_removal (E : Env) (o : Oracle) (projectDir : str)
    (w : World) : World :=
  let removeCommand :=
    if win32 E then lit "rmdir /s /q " ++ quoted projectDir
    else lit "rm -rf " ++ quoted projectDir in
  match exec_result o removeCommand None with
  | Ok _ => remove_tree E projectDir (add_event (EvExec removeCommand None) w)
  | Throw _ => add_event (EvExec removeCommand None) w
  end.


(** The hostname of an exposure. *)
Definition exposure_hostname {J : Engine} (args : EnsureExposureArgs)
    (baseDomain : str) : str :=
  sanitizeSlug (slugOrName (projectSlug args) (projectName args))
    ++ lit "." ++ baseDomain.

(** *** Commands, requests and documents *)

(** The command, run without a working directory, succeeds. *)
Definition succeeds (o : Oracle) (command : str) : bool :=
  match exec_result o command None with Ok _ => true | Throw _ => false end.

(** The world after the commands were run, one after the other. *)
Definition ran (commands : list str) (w : World) : World :=
  fold_left (fun w command => add_event (EvExec command None) w) commands w.

(** Everything of the world but the trace. *)
Definition state (w : World) :=
  (projects w, envVars w, files w, dirs w, zone w, tunnelConfig w, rng w).

(** [m] never throws and does nothing but run commands. *)
Definition runs_only {A} (m : M A) : Prop :=
  forall w, exists a commands, m w = (Ok a, ran commands w).

(** The environment variable is not set, or set to the empty text. *)
Definition unset (E : Env) (key : str) : Prop :=
  getenv E key = None \/ getenv E key = Some [].

(** What [readYamlFile] returns: the document, or an empty mapping when the
    file cannot be read or holds nothing. *)
Definition read_document (o : Oracle) (path : str) (w : World) : Document :=
  match fs_fault o FsRead path, tunnelConfig w with
  | None, Some document => document
  | _, _ => DocMapping empty_config
  end.


(** On a POSIX host, a reload, a restart or a signal reached the daemon. *)
Definition reloaded (o : Oracle) : bool :=
  succeeds o (lit "command -v systemctl >/dev/null 2>&1")
    && (succeeds o (lit "systemctl reload cloudflared")
        || succeeds o (lit "systemctl restart cloudflared"))
  || succeeds o (lit "command -v service >/dev/null 2>&1")
       && (succeeds o (lit "service cloudflared reload")
           || succeeds o (lit "service cloudflared restart"))
  || succeeds o (lit "pkill -HUP -x cloudflared")
  || succeeds o (lit "pkill -HUP -f " ++ quoted (lit "cloudflared.*tunnel")).

(** On a POSIX host, a running daemon was found. *)
Definition running (o : Oracle) : bool :=
  succeeds o (lit "pgrep -x cloudflared >/dev/null 2>&1")
  || succeeds o (lit "pgrep -f " ++ quoted (lit "cloudflared.*tunnel")
                   ++ lit " >/dev/null 2>&1").

(** The command that starts the daemon on a POSIX host. *)
Definition start_daemon (configPath tunnelUuid : str) : str :=
  lit "nohup "
    ++ (lit "cloudflared --config " ++ quoted configPath ++ lit " tunnel run "
          ++ tunnelUuid)
    ++ lit " >/dev/null 2>&1 &".

(** The connectivity probes, in the order they are tried. *)
Definition connectivity_probes (E : Env) : list str :=
  [ lit "curl -s --max-time 10 --head " ++ lit "https://www.google.com";
    lit "curl -s --max-time 10 --head " ++ lit "https://1.1.1.1";
    lit "curl -s --max-time 10 --head " ++ lit "https://8.8.8.8";
    lit "nslookup google.com";
    if win32 E then lit "ping -n 1 8.8.8.8" else lit "ping -c 1 8.8.8.8";
    lit "docker pull alpine:latest" ].

(** The commands of a list that are run when the first success ends the
    run. *)
Fixpoint attempted (o : Oracle) (commands : list str) : list str :=
  match commands with
  | [] => []
  | c :: rest => c :: (if succeeds o c then [] else attempted o rest)
  end.

(** *** Projects and their rows *)

(** The [docker] directory of a project, as [deployProject], [pauseProject]
    and [updateProjectEnvVars] name it. *)
Definition dockerDir (E : Env) (dir : str) (project : Project) : str :=
  path_join E [dir; lit "supabase-projects"; p_slug project; lit "docker"].

(** The directory of a project and the template directory, as
    [createProject] names them. *)
Definition projectDir (E : Env) (dir slug : str) : str :=
  path_join E [dir; lit "supabase-projects"; slug].

Definition templateDir (E : Env) (dir : str) : str :=
  path_join E [dir; lit "supabase-core"; lit "docker"].

(** The port [deployProject] takes from the rows of a project. *)
Definition deployProject_port (envVars : list EnvVar) : option number :=
  let portStr :=
    or_else (or_else (varMap envVars (lit "KONG_HTTP_PORT"))
                     (varMap envVars (lit "STUDIO_PORT")))
            (varMap envVars (lit "POSTGRES_PORT")) in
  match portStr with
  | Some text => if truthy text then Some (parseInt text) else None
  | None => None
  end.

Definition env_row (projectId key value : str) : EnvVar :=
  {| v_projectId := projectId; v_key := key; v_value := value |}.

(** The rows after an upsert of [key] for the project. *)
Definition upserted (projectId key value : str) (rows : list EnvVar)
    : list EnvVar :=
  if existsb (is_var projectId key) rows
  then map (fun v => if is_var projectId key v then env_row projectId key value
                     else v) rows
  else rows ++ [env_row projectId key value].

Definition upserted_all (projectId : str) (vars : list (str * str))
    (rows : list EnvVar) : list EnvVar :=
  fold_left (fun rows kv => upserted projectId (fst kv) (snd kv) rows) vars rows.

(** The rows of a project. *)
Definition rows_of (projectId : str) (rows : list EnvVar) : list EnvVar :=
  filter (fun v => str_eqb (v_projectId v) projectId) rows.

(** The Project rows after the project was paused. *)
Definition paused (projectId : str) (ps : list Project) : list Project :=
  map (fun p => if has_id projectId p then with_status (lit "paused") p else p) ps.

(** The row [createProject] writes. *)
Definition created {J : Engine} (o : Oracle) (name userId : str)
    (description : option str) : Project :=
  {| p_id := new_project_id o; p_name := name;
     p_slug := createProject_slug name (now o); p_description := description;
     p_ownerId := userId; p_status := lit "created" |}.

(* ################################################################# *)
(** * Part II: properties *)

(** Tests on code units stay folded under [simpl]; closed ones are decided by
    computation. *)
#[local] Arguments N.eqb : simpl never.
#[local] Arguments N.leb : simpl never.
#[local] Arguments N.ltb : simpl never.
#[local] Arguments code : simpl never.

(** Facts about classes of code units are facts of arithmetic. *)
Ltac eval_codes :=
  repeat match goal with
  | |- context [code ?c] =>
      let v := eval vm_compute in (code c) in change (code c) with v
  | H : context [code ?c] |- _ =>
      let v := eval vm_compute in (code c) in change (code c) with v in H
  end.

Ltac bools :=
  repeat match goal with
  | H : _ || _ = true |- _ => apply orb_true_iff in H
  | H : _ && _ = true |- _ => apply andb_true_iff in H
  | H : negb _ = true |- _ => apply negb_true_iff in H
  | H : _ || _ = false |- _ => apply orb_false_iff in H
  | H : _ && _ = false |- _ => apply andb_false_iff in H
  | H : negb _ = false |- _ => apply negb_false_iff in H
  | H : (_ <=? _)%N = true |- _ => apply N.leb_le in H
  | H : (_ <=? _)%N = false |- _ => apply N.leb_gt in H
  | H : (_ =? _)%N = true |- _ => apply N.eqb_eq in H
  | H : (_ =? _)%N = false |- _ => apply N.eqb_neq in H
  | H : (_ <? _)%N = true |- _ => apply N.ltb_lt in H
  | H : (_ <? _)%N = false |- _ => apply N.ltb_ge in H
  | H : _ /\ _ |- _ => destruct H
  | H : _ \/ _ |- _ => destruct H
  | |- _ = false => apply not_true_is_false; intro
  end;
  repeat (progress rewrite ?orb_true_iff, ?andb_true_iff, ?negb_true_iff,
            ?N.leb_le, ?N.eqb_eq, ?N.ltb_lt, ?N.eqb_neq, ?N.leb_gt,
            ?N.ltb_ge).

Ltac units :=
  unfold is_slug_char, is_lower_alnum, is_digit, is_space,
    is_line_terminator, is_quote, lower_char, between, dquote in *;
  eval_codes; bools; lia.

(* ================================================================= *)
(** ** Reasoning about operations *)

Section Runs.

Context {A B : Type}.

Lemma bind_run (m : M A) (k : A -> M B) w a w1 :
  m w = (Ok a, w1) -> bind m k w = k a w1.
Proof. unfold bind. now intros ->. Qed.

Lemma bind_throw (m : M A) (k : A -> M B) w e w1 :
  m w = (Throw e, w1) -> bind m k w = (Throw e, w1).
Proof. unfold bind. now intros ->. Qed.

Lemma bind_Ok (m : M A) (k : A -> M B) w b w' :
  bind m k w = (Ok b, w') ->
  exists a w1, m w = (Ok a, w1) /\ k a w1 = (Ok b, w').
Proof.
  unfold bind. destruct (m w) as [[a|e] w1]; [|discriminate].
  intros H. now exists a, w1.
Qed.

Lemma try_catch_run (body : M A) handler w a w1 :
  body w = (Ok a, w1) -> try_catch body handler w = (Ok a, w1).
Proof. unfold try_catch. now intros ->. Qed.

Lemma try_catch_caught (body : M A) handler w e w1 :
  body w = (Throw e, w1) -> try_catch body handler w = handler e w1.
Proof. unfold try_catch. now intros ->. Qed.

End Runs.

Section Frames.

Context {X : Type} (f : World -> X).

Lemma keeps_ret {A} (a : A) : keeps f (ret a).
Proof. intros w. reflexivity. Qed.

Lemma keeps_throw {A} e : keeps f (@throw A e).
Proof. intros w. reflexivity. Qed.

Lemma keeps_get : keeps f get.
Proof. intros w. reflexivity. Qed.

Lemma keeps_pure {A} (r : res A) : keeps f (fun w => (r, w)).
Proof. intros w. reflexivity. Qed.

Lemma keeps_modify g : (forall w, f (g w) = f w) -> keeps f (modify g).
Proof. intros H w. apply H. Qed.

Lemma keeps_bind {A B} (m : M A) (k : A -> M B) :
  keeps f m -> (forall a, keeps f (k a)) -> keeps f (bind m k).
Proof.
  intros Hm Hk w. unfold bind. specialize (Hm w).
  destruct (m w) as [[a|e] w1]; simpl in *; [|exact Hm].
  now rewrite Hk.
Qed.

Lemma keeps_try_catch {A} (body : M A) handler :
  keeps f body -> (forall e, keeps f (handler e)) ->
  keeps f (try_catch body handler).
Proof.
  intros Hb Hh w. unfold try_catch. specialize (Hb w).
  destruct (body w) as [[a|e] w1]; simpl in *; [exact Hb|].
  now rewrite Hh.
Qed.

End Frames.

Lemma total_ret {A} (a : A) : total (ret a).
Proof. intros w. now exists a, w. Qed.

Lemma total_get : total get.
Proof. intros w. now exists w, w. Qed.

Lemma total_modify g : total (modify g).
Proof. intros w. now exists tt, (g w). Qed.

Lemma total_bind {A B} (m : M A) (k : A -> M B) :
  total m -> (forall a, total (k a)) -> total (bind m k).
Proof.
  intros Hm Hk w. destruct (Hm w) as (a & w1 & E).
  rewrite (bind_run m k w a w1 E). apply Hk.
Qed.

(** A [try]/[catch] whose handler never throws never throws. *)
Lemma total_try_catch {A} (body : M A) handler :
  (forall e, total (handler e)) -> total (try_catch body handler).
Proof.
  intros Hh w. unfold try_catch.
  destruct (body w) as [[a|e] w1]; [now exists a, w1 | apply Hh].
Qed.

Ltac frame_step :=
  lazymatch goal with
  | |- keeps _ (ret _) => apply keeps_ret
  | |- keeps _ (throw _) => apply keeps_throw
  | |- keeps _ (throw_error _) => apply keeps_throw
  | |- keeps _ get => apply keeps_get
  | |- keeps _ (fun w => (_, w)) => apply keeps_pure
  | |- keeps _ (lift _) => apply keeps_pure
  | |- keeps _ (process_cwd _) => apply keeps_pure
  | |- keeps _ (modify _) => apply keeps_modify; intros; reflexivity
  | |- keeps _ (emit _) => apply keeps_modify; intros; reflexivity
  | |- keeps _ (bind _ _) => apply keeps_bind; [|intros]
  | |- keeps _ (try_catch _ _) => apply keeps_try_catch; [|intros]
  | |- keeps _ (match ?x with _ => _ end) => destruct x
  | |- keeps _ (let _ := _ in _) => lazy zeta
  end.

Ltac total_step :=
  lazymatch goal with
  | |- total (ret _) => apply total_ret
  | |- total get => apply total_get
  | |- total (modify _) => apply total_modify
  | |- total (emit _) => apply total_modify
  | |- total (try_catch _ _) => apply total_try_catch; intros
  | |- total (bind _ _) => apply total_bind; [|intros]
  | |- total (match ?x with _ => _ end) => destruct x
  | |- total (let _ := _ in _) => lazy zeta
  end.

(** Commands and probes only add to the trace. *)
Section EffectFree.

Variables (E : Env) (o : Oracle).
Context {X : Type} (f : World -> X).
Hypothesis f_trace : forall ev w, f (add_event ev w) = f w.

Lemma keeps_emit ev : keeps f (emit ev).
Proof. apply keeps_modify. intros w. apply f_trace. Qed.

Lemma keeps_exec command dir : keeps f (exec o command dir).
Proof. unfold exec. apply keeps_bind; [apply keeps_emit | intros; frame_step]. Qed.

Lemma keeps_tryExec cmd : keeps f (tryExec o cmd).
Proof.
  unfold tryExec. repeat first [apply keeps_exec | frame_step].
Qed.

Lemma keeps_probe cmd : keeps f (probe o cmd).
Proof. unfold probe. repeat first [apply keeps_exec | frame_step]. Qed.

Lemma keeps_either a b : keeps f (either o a b).
Proof. unfold either. repeat first [apply keeps_tryExec | frame_step]. Qed.

Lemma keeps_validateIngress path : keeps f (validateIngress o path).
Proof. unfold validateIngress. repeat first [apply keeps_exec | frame_step]. Qed.

Lemma keeps_reloadCloudflared path uuid :
  keeps f (reloadCloudflared E o path uuid).
Proof.
  unfold reloadCloudflared, isProcessRunningCloudflared.
  repeat first [apply keeps_tryExec | apply keeps_either | frame_step].
Qed.

Lemma keeps_checkInternetConnectivity :
  keeps f (checkInternetConnectivity E o).
Proof.
  unfold checkInternetConnectivity, probe_endpoints.
  repeat first [apply keeps_probe | frame_step].
Qed.

Lemma keeps_checkDockerPrerequisites :
  keeps f (checkDockerPrerequisites E o).
Proof.
  unfold checkDockerPrerequisites.
  repeat first [apply keeps_probe | apply keeps_checkInternetConnectivity
               | frame_step].
Qed.

End EffectFree.


Lemma total_probe o cmd : total (probe o cmd).
Proof. unfold probe. repeat total_step. Qed.



Lemma total_checkInternetConnectivity E o : total (checkInternetConnectivity E o).
Proof.
  unfold checkInternetConnectivity, probe_endpoints.
  repeat first [apply total_probe | total_step].
Qed.

Lemma total_checkDockerPrerequisites E o : total (checkDockerPrerequisites E o).
Proof.
  unfold checkDockerPrerequisites.
  repeat first [apply total_probe | apply total_checkInternetConnectivity
               | total_step].
Qed.

(* ================================================================= *)
(** ** Global replacement *)

Section ReplaceAll.

Variables (m : matcher) (r : str).
Hypothesis m_proper : proper m.

Lemma proper_nil : m [] = None.
Proof.
  destruct (m []) as [rest|] eqn:E; [|reflexivity].
  destruct (m_proper _ _ E) as (c & pre & H). discriminate H.
Qed.

Lemma replace_from_skip n s :
  replace_from m r n s = replace_from m r 0 (skipn n s).
Proof.
  revert n; induction s as [|c s IH]; intros [|n]; try reflexivity.
  simpl skipn. rewrite <- IH. reflexivity.
Qed.

Lemma replace_all_nil : replace_all m r [] = [].
Proof. unfold replace_all; simpl. now rewrite proper_nil. Qed.

Lemma replace_all_hit s rest :
  m s = Some rest -> replace_all m r s = r ++ replace_all m r rest.
Proof.
  intros E. destruct (m_proper _ _ E) as (c & pre & ->).
  unfold replace_all. cbn [replace_from]. rewrite E.
  replace (length (c :: pre ++ rest) <=? length rest) with false.
  2:{ symmetry; apply Nat.leb_gt. simpl. rewrite length_app. lia. }
  rewrite replace_from_skip. f_equal. f_equal.
  rewrite length_app.
  replace (length pre + length rest - length rest) with (length pre + 0) by lia.
  rewrite skipn_app, Nat.add_0_r, skipn_all.
  replace (length pre - length pre) with 0 by lia. reflexivity.
Qed.

Lemma replace_all_miss c s :
  m (c :: s) = None -> replace_all m r (c :: s) = c :: replace_all m r s.
Proof. intros E. unfold replace_all. cbn [replace_from]. now rewrite E. Qed.

(** Induction along the scan of [replace_all]. *)
Lemma replace_all_ind (P : str -> str -> Prop) :
  P [] [] ->
  (forall s rest, m s = Some rest ->
     P rest (replace_all m r rest) -> P s (r ++ replace_all m r rest)) ->
  (forall c s, m (c :: s) = None ->
     P s (replace_all m r s) -> P (c :: s) (c :: replace_all m r s)) ->
  forall s, P s (replace_all m r s).
Proof.
  intros Hnil Hhit Hmiss s.
  remember (length s) as n eqn:Hn. revert s Hn.
  induction n as [n IH] using lt_wf_ind. intros s Hn.
  destruct s as [|c s].
  - rewrite replace_all_nil. exact Hnil.
  - destruct (m (c :: s)) as [rest|] eqn:E.
    + rewrite (replace_all_hit _ _ E). apply Hhit; [exact E|].
      destruct (m_proper _ _ E) as (c' & pre & Hs).
      apply (IH (length rest)); [|reflexivity].
      subst n. rewrite Hs. simpl. rewrite length_app. lia.
    + rewrite (replace_all_miss _ _ E). apply Hmiss; [exact E|].
      apply (IH (length s)); [subst n; simpl; lia | reflexivity].
Qed.

Lemma NoMatch_nil (m' : matcher) : m' [] = None -> NoMatch m' [].
Proof.
  intros H a b Hab. symmetry in Hab. apply app_eq_nil in Hab.
  destruct Hab as [_ ->]. exact H.
Qed.

Lemma NoMatch_cons {m' : matcher} {c s} :
  m' (c :: s) = None -> NoMatch m' s -> NoMatch m' (c :: s).
Proof.
  intros H Hs [|x a] b Hab; simpl in Hab.
  - now subst b.
  - injection Hab as _ Hab. exact (Hs _ _ Hab).
Qed.

Lemma NoMatch_head {m' : matcher} {s} : NoMatch m' s -> m' s = None.
Proof. intros H. exact (H [] s eq_refl). Qed.

Lemma NoMatch_app_r {m' : matcher} a b : NoMatch m' (a ++ b) -> NoMatch m' b.
Proof.
  intros H x y Hxy. apply (H (a ++ x) y). now rewrite Hxy, app_assoc.
Qed.

Lemma NoMatch_tail {m' : matcher} {c s} : NoMatch m' (c :: s) -> NoMatch m' s.
Proof. apply (NoMatch_app_r [c] s). Qed.

(** Where the pattern does not occur, [replace_all] changes nothing. *)
Lemma replace_all_fix s : NoMatch m s -> replace_all m r s = s.
Proof.
  induction s as [|c s IH]; intros H.
  - apply replace_all_nil.
  - rewrite replace_all_miss by exact (NoMatch_head H).
    f_equal. apply IH. exact (NoMatch_tail H).
Qed.

(** A second pattern [m'] stays absent from the output when it cannot
    match inside or across the replacement text, and a failed match of
    [m'] is not repaired by rewriting the text behind its first
    character. *)
Lemma replace_all_NoMatch (m' : matcher) :
  m' [] = None ->
  (forall x, NoMatch m' x -> NoMatch m' (r ++ x)) ->
  (forall c s, m (c :: s) = None -> m' (c :: s) = None ->
               m' (c :: replace_all m r s) = None) ->
  forall s,
    (forall a b, s = a ++ b -> m b = None -> m' b = None) ->
    NoMatch m' (replace_all m r s).
Proof.
  intros Hnil Hrepl Hstable.
  apply (replace_all_ind
           (fun s out =>
              (forall a b, s = a ++ b -> m b = None -> m' b = None) ->
              NoMatch m' out)).
  - intros _. now apply NoMatch_nil.
  - intros s rest E IH Hs. apply Hrepl, IH.
    destruct (m_proper _ _ E) as (c & pre & ->).
    intros a b -> Hb. apply (Hs ((c :: pre) ++ a) b); [|exact Hb].
    now rewrite <- app_assoc.
  - intros c s E IH Hs. apply NoMatch_cons.
    + apply Hstable; [exact E|]. now apply (Hs [] (c :: s)).
    + apply IH. intros a b -> Hb. now apply (Hs (c :: a) b).
Qed.

End ReplaceAll.

(** A sequence of global replacements, as the source applies them one after
    the other to the same text. *)
Section Pipeline.

Context {T : Type}.
Variables (pat : T -> matcher) (rep : T -> str) (table : list T).

Let pass := pass pat rep.

Hypothesis pat_proper : forall j, In j table -> proper (pat j).
Hypothesis rep_inert :
  forall j k x, In j table -> In k table ->
    NoMatch (pat k) x -> NoMatch (pat k) (rep j ++ x).
Hypothesis pat_stable :
  forall j k c s, In j table -> In k table ->
    pat k (c :: s) = None -> pat k (c :: pass s j) = None.

Lemma pass_NoMatch j k s :
  In j table -> In k table ->
  j = k \/ NoMatch (pat k) s -> NoMatch (pat k) (pass s j).
Proof.
  intros Hj Hk Hs. apply replace_all_NoMatch.
  - now apply pat_proper.
  - now apply proper_nil, pat_proper.
  - intros x. now apply rep_inert.
  - intros c t _. now apply pat_stable.
  - intros a b -> Hb. destruct Hs as [->|Hs]; [exact Hb|].
    exact (Hs a b eq_refl).
Qed.

Lemma fold_pass_NoMatch l k :
  incl l table -> In k table ->
  forall s, In k l \/ NoMatch (pat k) s ->
            NoMatch (pat k) (fold_left pass l s).
Proof.
  intros Hl Hk. induction l as [|j l IH]; intros s Hs.
  - destruct Hs as [[]|Hs]. exact Hs.
  - simpl. apply IH.
    + intros x Hx. apply Hl. now right.
    + assert (Hj : In j table) by (apply Hl; now left).
      destruct Hs as [[->|Hin]|Hs].
      * right. apply pass_NoMatch; auto.
      * now left.
      * right. apply pass_NoMatch; auto.
Qed.

Lemma fold_pass_fix l s :
  incl l table ->
  (forall k, In k l -> NoMatch (pat k) s) -> fold_left pass l s = s.
Proof.
  induction l as [|j l IH]; intros Hl H; [reflexivity|].
  simpl. assert (E : pass s j = s).
  { apply replace_all_fix.
    - apply pat_proper, Hl. now left.
    - apply H. now left. }
  rewrite E. apply IH.
  - intros x Hx. apply Hl. now right.
  - intros k Hk. apply H. now right.
Qed.

(** After the whole sequence none of its patterns is left in the text. *)
Lemma pipeline_NoMatch s k :
  In k table -> NoMatch (pat k) (fold_left pass table s).
Proof.
  intros Hk. apply fold_pass_NoMatch; [apply incl_refl | exact Hk | now left].
Qed.

End Pipeline.

(* ================================================================= *)
(** ** Port-variable injection *)

Lemma drop_spaces_suffix s : exists pre, s = pre ++ drop_spaces s.
Proof.
  induction s as [|c s [pre IH]]; [now exists []|].
  simpl. destruct (is_space c).
  - exists (c :: pre). simpl. now f_equal.
  - now exists [].
Qed.

Lemma drop_quote_suffix s : exists pre, s = pre ++ drop_quote s.
Proof.
  destruct s as [|c s]; [now exists []|].
  simpl. destruct (is_quote c); [now exists [c] | now exists []].
Qed.

Lemma strip_prefix_Some p s rest :
  strip_prefix p s = Some rest -> s = p ++ rest.
Proof.
  revert s; induction p as [|x p IH]; intros [|y s]; simpl; try congruence.
  destruct (N.eqb_spec x y) as [->|]; [|discriminate].
  intros H. f_equal. now apply IH.
Qed.

Lemma port_pattern_proper hp cp : proper (port_pattern hp cp).
Proof.
  intros [|c s1] rest; simpl; [discriminate|].
  destruct (N.eqb c (code "-")); [|discriminate].
  destruct (strip_prefix _ _) as [s2|] eqn:E; [|discriminate].
  intros [= <-]. apply strip_prefix_Some in E.
  destruct (drop_spaces_suffix s1) as [p1 H1].
  destruct (drop_quote_suffix (drop_spaces s1)) as [p2 H2].
  destruct (drop_quote_suffix s2) as [p3 H3].
  exists c, (p1 ++ p2 ++ (dec hp ++ lit ":" ++ dec cp) ++ p3).
  f_equal. rewrite H1 at 1. rewrite H2 at 1. rewrite E. rewrite H3 at 1.
  now rewrite <- !app_assoc.
Qed.

Section HeadStable.

Variables (c0 : codeunit) (f : str -> str).
Hypothesis f_stable : head_stable c0 f.

Lemma stable_strip_prefix p t :
  ~ In c0 p -> strip_prefix p (f t) = option_map f (strip_prefix p t).
Proof.
  destruct f_stable as (Hnil & Hkeep & Hhead).
  revert t; induction p as [|x p IH]; intros t Hp; [reflexivity|].
  assert (Hx : x <> c0) by (intros ->; apply Hp; now left).
  assert (Hp' : ~ In c0 p) by (intros H; apply Hp; now right).
  destruct t as [|c t]; simpl.
  - now rewrite Hnil.
  - destruct (N.eqb_spec c c0) as [->|Hc].
    + destruct (Hhead t) as [t' ->]. simpl.
      destruct (N.eqb_spec x c0); [contradiction | reflexivity].
    + rewrite (Hkeep _ _ Hc). simpl.
      destruct (N.eqb x c); [now apply IH | reflexivity].
Qed.

(** Dropping leading characters of a class that excludes [c0]. *)
Lemma stable_drop_spaces t :
  is_space c0 = false -> drop_spaces (f t) = f (drop_spaces t).
Proof.
  destruct f_stable as (Hnil & Hkeep & Hhead). intros H0.
  induction t as [|c t IH].
  - simpl. now rewrite Hnil.
  - destruct (N.eqb_spec c c0) as [->|Hc].
    + simpl. rewrite H0. destruct (Hhead t) as [t' ->]. simpl. now rewrite H0.
    + rewrite (Hkeep _ _ Hc). simpl.
      destruct (is_space c); [exact IH | now rewrite Hkeep].
Qed.

Lemma stable_drop_quote t :
  is_quote c0 = false -> drop_quote (f t) = f (drop_quote t).
Proof.
  destruct f_stable as (Hnil & Hkeep & Hhead). intros H0.
  destruct t as [|c t].
  - simpl. now rewrite Hnil.
  - destruct (N.eqb_spec c c0) as [->|Hc].
    + simpl. rewrite H0. destruct (Hhead t) as [t' ->]. simpl. now rewrite H0.
    + rewrite (Hkeep _ _ Hc). simpl.
      destruct (is_quote c); [reflexivity | now rewrite Hkeep].
Qed.

Lemma stable_head_class (cls : codeunit -> bool) t :
  cls c0 = false ->
  match f t with [] => true | c :: _ => cls c end =
  match t with [] => true | c :: _ => cls c end.
Proof.
  destruct f_stable as (Hnil & Hkeep & Hhead). intros H0.
  destruct t as [|c t]; [now rewrite Hnil|].
  destruct (N.eqb_spec c c0) as [->|Hc].
  - now destruct (Hhead t) as [t' ->].
  - now rewrite (Hkeep _ _ Hc).
Qed.

Lemma stable_line_at x l c t :
  ~ In c0 l -> is_line_terminator c0 = false ->
  line_at (x :: l) (c :: f t) = option_map f (line_at (x :: l) (c :: t)).
Proof.
  intros Hl H0. unfold line_at. simpl.
  destruct (N.eqb x c); [|reflexivity].
  rewrite (stable_strip_prefix _ _ Hl).
  destruct (strip_prefix l t) as [rest|]; [|reflexivity]. simpl.
  unfold line_end. rewrite (stable_head_class is_line_terminator _ H0).
  now destruct rest as [|y rest]; [|destruct (is_line_terminator y)].
Qed.

End HeadStable.

Lemma injectPortVar_head_stable hp cp v :
  head_stable (code "-") (fun s => injectPortVar s hp cp v).
Proof.
  unfold injectPortVar. split; [|split].
  - apply replace_all_nil, port_pattern_proper.
  - intros c t Hc. apply replace_all_miss. simpl.
    destruct (N.eqb_spec c (code "-")); [contradiction | reflexivity].
  - intros t. destruct (port_pattern hp cp (code "-" :: t)) as [rest|] eqn:E.
    + rewrite (replace_all_hit _ _ (port_pattern_proper hp cp) _ _ E).
      eexists. reflexivity.
    + rewrite (replace_all_miss _ _ _ _ E). eexists. reflexivity.
Qed.

(** A port pattern that fails at some character still fails there after the
    text behind that character went through a [-]-stable rewriting. *)
Lemma stable_port_pattern f hp cp c t :
  head_stable (code "-") f ->
  ~ In (code "-") (dec hp ++ lit ":" ++ dec cp) ->
  port_pattern hp cp (c :: t) = None ->
  port_pattern hp cp (c :: f t) = None.
Proof.
  intros Hf Hp. simpl. destruct (N.eqb c (code "-")); [|reflexivity].
  rewrite (stable_drop_spaces _ _ Hf), (stable_drop_quote _ _ Hf),
    (stable_strip_prefix _ _ Hf _ _ Hp) by reflexivity.
  now destruct (strip_prefix _ _).
Qed.

Ltac scan_replacement :=
  repeat (apply NoMatch_cons; [reflexivity|]); assumption.

(** No port pattern of the table matches inside, or across the borders of,
    a replacement text of the table. *)
Lemma table_replacements_inert :
  Forall (fun j =>
    Forall (fun k =>
      forall x, NoMatch (entry_pattern k) x ->
                NoMatch (entry_pattern k) (entry_replacement j ++ x))
      portTable) portTable.
Proof.
  unfold portTable.
  repeat (apply Forall_cons; [| try apply Forall_nil]);
    intros x Hx; cbn; scan_replacement.
Qed.

Lemma table_literals_dash_free :
  Forall (fun k => let '(hp, cp, _) := k in
                   ~ In (code "-") (dec hp ++ lit ":" ++ dec cp)) portTable.
Proof.
  repeat (apply Forall_cons; [| try apply Forall_nil]);
    cbn; intros H; repeat (destruct H as [H|H]; [discriminate H|]); exact H.
Qed.

Lemma patchPortsText_fold s :
  patchPortsText s = fold_left (pass entry_pattern entry_replacement) portTable s.
Proof. reflexivity. Qed.

Lemma entry_pattern_proper k : proper (entry_pattern k).
Proof. destruct k as [[hp cp] v]. apply port_pattern_proper. Qed.

Lemma entry_replacement_inert j k x :
  In j portTable -> In k portTable ->
  NoMatch (entry_pattern k) x ->
  NoMatch (entry_pattern k) (entry_replacement j ++ x).
Proof.
  intros Hj Hk. pose proof table_replacements_inert as H.
  rewrite Forall_forall in H. specialize (H j Hj).
  rewrite Forall_forall in H. exact (H k Hk x).
Qed.

Lemma entry_pattern_stable j k c s :
  In j portTable -> In k portTable ->
  entry_pattern k (c :: s) = None ->
  entry_pattern k (c :: pass entry_pattern entry_replacement s j) = None.
Proof.
  intros _ Hk. pose proof table_literals_dash_free as Hfree.
  rewrite Forall_forall in Hfree. specialize (Hfree k Hk).
  destruct j as [[hp cp] v], k as [[hp' cp'] v'].
  apply (stable_port_pattern (fun s => injectPortVar s hp cp v)).
  - apply injectPortVar_head_stable.
  - exact Hfree.
Qed.

(** After one pass of the patcher no port pattern of the table is left. *)
Lemma patchPortsText_NoMatch s k :
  In k portTable -> NoMatch (entry_pattern k) (patchPortsText s).
Proof.
  rewrite patchPortsText_fold. apply pipeline_NoMatch.
  - intros j _. apply entry_pattern_proper.
  - apply entry_replacement_inert.
  - apply entry_pattern_stable.
Qed.

Lemma patchPortsText_idempotent s :
  patchPortsText (patchPortsText s) = patchPortsText s.
Proof.
  rewrite (patchPortsText_fold (patchPortsText s)).
  apply fold_pass_fix with (table := portTable).
  - intros j _. apply entry_pattern_proper.
  - apply incl_refl.
  - intros k Hk. now apply patchPortsText_NoMatch.
Qed.

(* ================================================================= *)
(** ** Digits and slugs *)

Lemma string_of_uint_digits u :
  Forall (fun c => is_digit c = true) (lit (NilEmpty.string_of_uint u)).
Proof. unfold lit. induction u; simpl; constructor; auto. Qed.

Lemma dec_digits n : Forall (fun c => is_digit c = true) (dec n).
Proof.
  unfold dec, lit, NilZero.string_of_uint.
  destruct (N.to_uint n) eqn:E; try (rewrite <- E; apply string_of_uint_digits).
  repeat constructor.
Qed.

Lemma dec_nonempty n : exists d ds, dec n = d :: ds /\ is_digit d = true.
Proof.
  pose proof (dec_digits n) as H.
  assert (Hne : dec n <> []).
  { unfold dec, lit, NilZero.string_of_uint.
    destruct (N.to_uint n); simpl; discriminate. }
  destruct (dec n) as [|d ds]; [contradiction|].
  exists d, ds. split; [reflexivity|]. now inversion H.
Qed.

Lemma digit_is_slug_char c : is_digit c = true -> is_slug_char c = true.
Proof.
  unfold is_slug_char, is_lower_alnum, is_digit. intros ->.
  now rewrite orb_true_r.
Qed.

Lemma digit_not_dash c : is_digit c = true -> c <> code "-".
Proof. intros H ->. discriminate H. Qed.

Lemma createProject_slug_chars {J : Engine} name ts :
  Forall (fun c => is_slug_char c = true) (createProject_slug name ts).
Proof.
  unfold createProject_slug. apply Forall_app; split; [|apply Forall_app; split].
  - apply Forall_map, Forall_forall. intros c _. unfold is_slug_char.
    destruct (is_lower_alnum c) eqn:E; [now rewrite E | reflexivity].
  - repeat constructor.
  - eapply Forall_impl; [|apply dec_digits]. apply digit_is_slug_char.
Qed.

(* ================================================================= *)
(** ** Patterns of single-character atoms *)

Lemma match_atoms_proper a p : proper (match_atoms (a :: p)).
Proof.
  assert (H : forall q s rest, match_atoms q s = Some rest ->
                               exists pre, s = pre ++ rest).
  { induction q as [|b q IH]; intros s rest; simpl.
    - intros [= ->]. now exists [].
    - destruct s as [|c s]; [discriminate|].
      destruct (accepts b c); [|discriminate].
      intros E. destruct (IH _ _ E) as [pre ->]. now exists (c :: pre). }
  intros [|c s] rest; simpl; [discriminate|].
  destruct (accepts a c); [|discriminate].
  intros E. destruct (H _ _ _ E) as [pre ->]. now exists c, pre.
Qed.

Lemma match_atoms_cons a p c s :
  match_atoms (a :: p) (c :: s) = if accepts a c then match_atoms p s else None.
Proof. reflexivity. Qed.

Lemma match_atoms_app p s rest t :
  match_atoms p s = Some rest -> match_atoms p (s ++ t) = Some (rest ++ t).
Proof.
  revert s; induction p as [|a p IH]; intros s; simpl.
  - now intros [= ->].
  - destruct s as [|c s]; [discriminate|]. simpl.
    destruct (accepts a c); [apply IH | discriminate].
Qed.

Lemma accepts_digit_spec a d :
  is_digit d = true -> accepts a d = true -> accepts_digit a = true.
Proof.
  intros Hd Ha. destruct a as [x|]; [|reflexivity].
  simpl in Ha. apply N.eqb_eq in Ha. subst x.
  assert (H : (d = 48 \/ d = 49 \/ d = 50 \/ d = 51 \/ d = 52 \/ d = 53
               \/ d = 54 \/ d = 55 \/ d = 56 \/ d = 57)%N) by units.
  repeat (destruct H as [->|H]; [reflexivity|]). now subst d.
Qed.

Lemma match_atoms_slug_tail p san d rest :
  tail_safe p = true -> is_digit d = true ->
  match_atoms p (san ++ code "-" :: d :: rest) <> None ->
  match_atoms p san <> None.
Proof.
  intros Hp Hd. revert san Hp.
  induction p as [|a p IH]; intros san Hp; [discriminate|].
  simpl in Hp. apply andb_true_iff in Hp. destruct Hp as [Ha Hp].
  destruct san as [|c san]; simpl.
  - destruct (accepts a (code "-")) eqn:E; [|congruence]. simpl in Ha.
    destruct p as [|b p]; [discriminate Ha|]. simpl.
    destruct (accepts b d) eqn:Eb; [|congruence].
    rewrite (accepts_digit_spec _ _ Hd Eb) in Ha. discriminate Ha.
  - destruct (accepts a c); [now apply IH | congruence].
Qed.

(** A pattern that does not match at the head of a slug does not match
    there whatever text follows the slug. *)
Lemma slug_head_no_match {J : Engine} p name ts w :
  tail_safe p = true ->
  match_atoms p (createProject_slug name ts) = None ->
  match_atoms p (createProject_slug name ts ++ w) = None.
Proof.
  intros Hp Hs.
  destruct (match_atoms p (createProject_slug name ts ++ w)) as [r|] eqn:E;
    [exfalso | reflexivity].
  unfold createProject_slug in *. destruct (dec_nonempty ts) as (d & ds & Hdec & Hd).
  rewrite Hdec in *. set (san := map _ _) in *.
  assert (H : match_atoms p san <> None).
  { apply (match_atoms_slug_tail p san d (ds ++ w) Hp Hd).
    rewrite <- !app_assoc in E. simpl in E. now rewrite E. }
  destruct (match_atoms p san) as [r'|] eqn:E'; [|contradiction].
  rewrite (match_atoms_app _ _ _ (lit "-" ++ d :: ds) E') in Hs. discriminate.
Qed.

Lemma line_terminator_cases c :
  is_line_terminator c = true ->
  (c = 10 \/ c = 13 \/ c = 8232 \/ c = 8233)%N.
Proof. intros H. units. Qed.

Lemma rejects_terminator a c :
  rejects_terminators a = true -> is_line_terminator c = true ->
  accepts a c = false.
Proof.
  unfold rejects_terminators. intros Ha Hc.
  apply line_terminator_cases in Hc.
  repeat (apply andb_true_iff in Ha; destruct Ha as [Ha ?]).
  destruct Hc as [->|[->|[->| ->]]]; now apply negb_true_iff.
Qed.

Lemma match_atoms_in_slug p t w :
  slug_blocked p = true ->
  Forall (fun c => is_slug_char c = true) t -> slug_stop w ->
  match_atoms p (t ++ w) = None.
Proof.
  intros Hp Ht Hw. revert p Hp. induction Ht as [|c t Hc Ht IH]; intros p Hp.
  - destruct p as [|a p]; [discriminate Hp|]. simpl in *.
    destruct w as [|x w]; [reflexivity|].
    apply andb_true_iff in Hp. destruct Hp as [Hp _].
    apply andb_true_iff in Hp. destruct Hp as [Hdash Hlt].
    destruct Hw as [->|Hx].
    + now destruct (accepts a (code "-")).
    + now rewrite (rejects_terminator _ _ Hlt Hx).
  - destruct p as [|a p]; [discriminate Hp|]. simpl in *.
    apply andb_true_iff in Hp. destruct Hp as [_ Hp].
    destruct (accepts a c) eqn:Ea; [|reflexivity].
    apply orb_true_iff in Hp. destruct Hp as [Hp|Hp]; [|now apply IH].
    destruct a as [x|]; [|discriminate Hp]. simpl in Ea.
    apply N.eqb_eq in Ea. subst x. rewrite Hc in Hp. discriminate Hp.
Qed.

Lemma NoMatch_in_slug p t w :
  slug_blocked p = true ->
  Forall (fun c => is_slug_char c = true) t -> slug_stop w ->
  NoMatch (match_atoms p) w -> NoMatch (match_atoms p) (t ++ w).
Proof.
  intros Hp Ht Hw Hn. induction Ht as [|c t Hc Ht IH]; [exact Hn|].
  simpl. apply NoMatch_cons; [|exact IH].
  apply (match_atoms_in_slug p (c :: t) w Hp); [now constructor | exact Hw].
Qed.

(* ================================================================= *)
(** ** Container renaming *)

Lemma container_pattern_proper original : proper (container_pattern original).
Proof. apply match_atoms_proper. Qed.

Lemma container_atoms original :
  atoms_of (lit "container_name: " ++ original) =
  Chr (code "c") :: Chr (code "o") :: atoms_of (lit "ntainer_name: " ++ original).
Proof. reflexivity. Qed.

Lemma container_pattern_head original s rest :
  container_pattern original s = Some rest ->
  exists t, s = code "c" :: code "o" :: t.
Proof.
  unfold container_pattern. rewrite container_atoms.
  destruct s as [|x [|y t]]; cbn [match_atoms accepts]; try discriminate.
  - now destruct (N.eqb (code "c") x).
  - destruct (N.eqb_spec (code "c") x) as [<-|]; [|discriminate].
    destruct (N.eqb_spec (code "o") y) as [<-|]; [|discriminate].
    intros _. now exists t.
Qed.

Lemma renameContainer_nil mp : renameContainer [] mp = [].
Proof. apply replace_all_nil, container_pattern_proper. Qed.

Lemma renameContainer_hit mp s rest :
  container_pattern (fst mp) s = Some rest ->
  renameContainer s mp = lit "container_name: " ++ snd mp ++ renameContainer rest mp.
Proof.
  intros E. unfold renameContainer.
  rewrite (replace_all_hit _ _ (container_pattern_proper _) _ _ E).
  now rewrite <- app_assoc.
Qed.

Lemma renameContainer_miss mp c s :
  container_pattern (fst mp) (c :: s) = None ->
  renameContainer (c :: s) mp = c :: renameContainer s mp.
Proof. intros E. apply replace_all_miss, E. Qed.

Lemma renameContainer_head_stable mp :
  head_stable (code "c") (fun s => renameContainer s mp).
Proof.
  split; [|split].
  - apply renameContainer_nil.
  - intros c t Hc. apply renameContainer_miss. unfold container_pattern.
    rewrite container_atoms. cbn [match_atoms accepts].
    destruct (N.eqb_spec (code "c") c); [congruence | reflexivity].
  - intros t. destruct (container_pattern (fst mp) (code "c" :: t)) eqn:E.
    + rewrite (renameContainer_hit _ _ _ E). eexists. reflexivity.
    + rewrite (renameContainer_miss _ _ _ E). eexists. reflexivity.
Qed.

Lemma co_safe_tail a p : co_safe (a :: p) = true -> co_safe p = true.
Proof.
  simpl. destruct p; [reflexivity|]. intros H.
  apply andb_true_iff in H. apply H.
Qed.

(** A pattern that fails at the head of [s] still fails there after the
    containers of [s] were renamed. *)
Lemma renameContainer_keeps_failure mp p s :
  co_safe p = true ->
  match_atoms p s = None -> match_atoms p (renameContainer s mp) = None.
Proof.
  revert s. induction p as [|a p IH]; intros s Hp; [discriminate|].
  destruct s as [|c s].
  - now rewrite renameContainer_nil.
  - destruct (container_pattern (fst mp) (c :: s)) as [rest|] eqn:E.
    + rewrite (renameContainer_hit _ _ _ E).
      destruct (container_pattern_head _ _ _ E) as [t Ht].
      injection Ht as -> ->. intros H.
      change (lit "container_name: " ++ ?x)
        with (code "c" :: code "o" :: lit "ntainer_name: " ++ x).
      cbn [match_atoms] in *.
      destruct (accepts a (code "c")) eqn:Ea; [|reflexivity].
      destruct p as [|b p]; [discriminate H|].
      cbn [co_safe] in Hp. rewrite Ea in Hp.
      destruct (accepts b (code "o")) eqn:Eb; [discriminate Hp|].
      cbn [match_atoms]. now rewrite Eb.
    + rewrite (renameContainer_miss _ _ _ E). cbn [match_atoms].
      destruct (accepts a c); [|intros _; reflexivity].
      apply IH. exact (co_safe_tail _ _ Hp).
Qed.

Lemma originals_co_safe :
  Forall (fun o => co_safe (tl (atoms_of (lit "container_name: " ++ o))) = true)
         originals.
Proof. repeat constructor. Qed.

Lemma container_pattern_stable mp original c s :
  In original originals ->
  container_pattern original (c :: s) = None ->
  container_pattern original (c :: renameContainer s mp) = None.
Proof.
  intros Hin. pose proof originals_co_safe as H.
  rewrite Forall_forall in H. specialize (H _ Hin).
  unfold container_pattern. rewrite container_atoms in *.
  rewrite !(match_atoms_cons (Chr (code "c"))).
  destruct (accepts (Chr (code "c")) c); [|reflexivity].
  apply renameContainer_keeps_failure. exact H.
Qed.

Lemma atoms_of_app a b : atoms_of (a ++ b) = atoms_of a ++ atoms_of b.
Proof. apply map_app. Qed.

Lemma match_atoms_prefix q a p t :
  Forall2 (fun x c => accepts x c = true) q a ->
  match_atoms (q ++ p) (a ++ t) = match_atoms p t.
Proof.
  induction 1 as [|x c q a Hx _ IH]; [reflexivity|].
  simpl. now rewrite Hx.
Qed.

Lemma container_pattern_entry o t :
  container_pattern o (lit "container_name: " ++ t) = match_atoms (atoms_of o) t.
Proof.
  unfold container_pattern. rewrite atoms_of_app.
  apply match_atoms_prefix. repeat constructor.
Qed.

Ltac scan_text :=
  repeat (apply NoMatch_cons; [reflexivity|]).

(** Inside the text [container_name: ] no container pattern starts. *)
Lemma NoMatch_entry o t :
  container_pattern o (lit "container_name: " ++ t) = None ->
  NoMatch (container_pattern o) t ->
  NoMatch (container_pattern o) (lit "container_name: " ++ t).
Proof.
  intros H0 Ht. apply NoMatch_cons; [exact H0|].
  scan_text. exact Ht.
Qed.

Lemma container_pattern_blocked o :
  slug_blocked (atoms_of (lit "container_name: " ++ o)) = true.
Proof. reflexivity. Qed.

Section ReplacementInert.

Variable slug : str.
Hypothesis slug_chars : Forall (fun c => is_slug_char c = true) slug.
Hypothesis slug_head :
  forall o w, In o originals -> match_atoms (atoms_of o) (slug ++ w) = None.
Hypothesis slug_realtime :
  forall w, match_atoms (atoms_of (lit "supabase-realtime")) (slug ++ w) = None.

Lemma NoMatch_slug o w :
  slug_stop w ->
  NoMatch (container_pattern o) w -> NoMatch (container_pattern o) (slug ++ w).
Proof.
  intros Hw Hn. apply NoMatch_in_slug; auto using container_pattern_blocked.
Qed.

Lemma realtime_head o w :
  In o originals ->
  match_atoms (atoms_of o) (lit "realtime-dev." ++ slug ++ w) = None.
Proof.
  intros Ho. simpl in Ho.
  repeat (destruct Ho as [<-|Ho]; [try reflexivity|]); [|contradiction].
  rewrite <- (slug_realtime w).
  apply (match_atoms_prefix (atoms_of (lit "realtime-dev."))
                            (lit "realtime-dev.")).
  repeat constructor.
Qed.

(** No container pattern matches inside, or across the borders of, the
    text that replaces a container entry. *)
Lemma replacement_inert mp o x :
  In mp (containerMappings slug) -> In o originals ->
  NoMatch (container_pattern o) x ->
  NoMatch (container_pattern o) (lit "container_name: " ++ snd mp ++ x).
Proof.
  intros Hmp Ho Hx. simpl in Hmp.
  repeat (destruct Hmp as [<-|Hmp]); [.. | contradiction];
    cbn [snd app]; rewrite <- ?app_assoc; cbn [app];
    (apply NoMatch_entry;
     [ rewrite container_pattern_entry;
       first [ apply slug_head; exact Ho | apply realtime_head; exact Ho ]
     | scan_text; apply NoMatch_slug; [now left | scan_text; exact Hx] ]).
Qed.

End ReplacementInert.

(* ================================================================= *)
(** ** Lines and the project-name line *)

Lemma slug_char_not_lt c :
  is_slug_char c = true -> is_line_terminator c = false.
Proof. intros H. units. Qed.

Lemma lt_free_accepts a p c :
  lt_free (a :: p) = true -> accepts a c = true -> is_line_terminator c = false.
Proof.
  simpl. intros H Hc. apply andb_true_iff in H. destruct H as [H _].
  destruct (is_line_terminator c) eqn:E; [|reflexivity].
  rewrite (rejects_terminator _ _ H E) in Hc. discriminate Hc.
Qed.

Lemma match_atoms_consumed p s rest :
  lt_free p = true -> match_atoms p s = Some rest ->
  exists pre, s = pre ++ rest /\ no_lt pre.
Proof.
  revert s. induction p as [|a p IH]; intros s Hp; simpl.
  - intros [= ->]. exists []. split; [reflexivity | constructor].
  - destruct s as [|c s]; [discriminate|].
    destruct (accepts a c) eqn:Ea; [|discriminate]. intros E.
    destruct (IH s) as (pre & -> & Hpre); [|exact E|].
    + simpl in Hp. apply andb_true_iff in Hp. apply Hp.
    + exists (c :: pre). split; [reflexivity|].
      constructor; [exact (lt_free_accepts _ _ _ Hp Ea) | exact Hpre].
Qed.

Section NameLine.

(** The line looked for is [x :: l]; [r] is the text written in its place. *)
Variables (x : codeunit) (l r : str).
Hypothesis x_not_lt : is_line_terminator x = false.
Hypothesis l_no_lt : no_lt l.

Lemma count_lines_skip a t :
  no_lt a -> count_lines (x :: l) false (a ++ t) = count_lines (x :: l) false t.
Proof.
  induction 1 as [|c a Hc _ IH]; [reflexivity|].
  simpl. now rewrite Hc.
Qed.

Lemma count_lines_fix bol s :
  count_lines (x :: l) bol s = 0 -> replace_first_line (x :: l) r bol s = s.
Proof.
  revert bol. induction s as [|c s IH]; intros bol; [reflexivity|].
  cbn [count_lines replace_first_line]. intros H.
  apply Nat.eq_add_0 in H. destruct H as [H0 H1].
  destruct bol; [destruct (line_at (x :: l) (c :: s)); [discriminate H0|]|];
    f_equal; now apply IH.
Qed.

Lemma replace_first_line_false c t :
  replace_first_line (x :: l) r false (c :: t) =
  c :: replace_first_line (x :: l) r (is_line_terminator c) t.
Proof. reflexivity. Qed.

Lemma strip_prefix_unanchored p t :
  no_lt p ->
  strip_prefix p (replace_first_line (x :: l) r false t) =
  option_map (replace_first_line (x :: l) r false) (strip_prefix p t).
Proof.
  intros Hp. revert t. induction Hp as [|y p Hy _ IH]; intros t; [reflexivity|].
  destruct t as [|c t]; [reflexivity|].
  rewrite replace_first_line_false. simpl.
  destruct (N.eqb_spec y c) as [<-|]; [|reflexivity].
  rewrite Hy. apply IH.
Qed.

Lemma line_end_unanchored t :
  line_end (replace_first_line (x :: l) r false t) = line_end t.
Proof. destruct t; reflexivity. Qed.

(** A line that is not [x :: l] does not become one by a replacement
    further down. *)
Lemma line_at_unanchored c t :
  line_at (x :: l) (c :: t) = None ->
  line_at (x :: l)
    (c :: replace_first_line (x :: l) r (is_line_terminator c) t) = None.
Proof.
  unfold line_at. simpl.
  destruct (N.eqb_spec x c) as [<-|]; [|reflexivity].
  rewrite x_not_lt, (strip_prefix_unanchored _ _ l_no_lt).
  destruct (strip_prefix l t) as [rest|]; [|reflexivity]. simpl.
  rewrite line_end_unanchored. now destruct (line_end rest).
Qed.

Lemma match_atoms_unanchored p t :
  lt_free p = true ->
  match_atoms p t = None ->
  match_atoms p (replace_first_line (x :: l) r false t) = None.
Proof.
  revert t. induction p as [|a p IH]; intros t Hp; [discriminate|].
  destruct t as [|c t]; [reflexivity|].
  rewrite replace_first_line_false. simpl.
  destruct (accepts a c) eqn:Ea; [|reflexivity].
  rewrite (lt_free_accepts _ _ _ Hp Ea). apply IH.
  simpl in Hp. apply andb_true_iff in Hp. apply Hp.
Qed.

Hypothesis r_not_line : forall rest, line_at (x :: l) (r ++ rest) = None.
Hypothesis r_no_lt : no_lt r.
Hypothesis r_nonempty : r <> [].

Lemma count_lines_replacement bol rest :
  count_lines (x :: l) bol (r ++ rest) = count_lines (x :: l) false rest.
Proof.
  pose proof (r_not_line rest) as H.
  destruct r as [|c r']; [contradiction|]. simpl in *.
  inversion r_no_lt as [|? ? Hc Hr']; subst. rewrite H, Hc.
  rewrite (count_lines_skip _ _ Hr'). now destruct bol.
Qed.

(** Replacing the first line [x :: l] leaves one such line less. *)
Lemma count_lines_replace_first bol s :
  count_lines (x :: l) bol (replace_first_line (x :: l) r bol s) =
  pred (count_lines (x :: l) bol s).
Proof.
  revert bol. induction s as [|c s IH]; intros bol; [reflexivity|].
  cbn [replace_first_line count_lines].
  destruct bol.
  - destruct (line_at (x :: l) (c :: s)) as [rest|] eqn:E.
    + rewrite count_lines_replacement. unfold line_at in E.
      destruct (strip_prefix (x :: l) (c :: s)) as [rest'|] eqn:E';
        [|discriminate].
      destruct (line_end rest'); [|discriminate]. injection E as ->.
      apply strip_prefix_Some in E'. injection E' as -> ->.
      rewrite x_not_lt, (count_lines_skip _ _ l_no_lt). reflexivity.
    + cbn [count_lines]. rewrite (line_at_unanchored _ _ E). simpl. apply IH.
  - cbn [count_lines]. simpl. apply IH.
Qed.

End NameLine.

(** The container renaming neither adds nor removes a project-name line. *)
Lemma count_lines_entry a t bol :
  no_lt a ->
  count_lines (lit "name: supabase") bol (code "c" :: a ++ t) =
  count_lines (lit "name: supabase") false t.
Proof.
  intros Ha.
  change (lit "name: supabase") with (code "n" :: lit "ame: supabase").
  cbn [count_lines].
  change (is_line_terminator (code "c")) with false.
  change (line_at (code "n" :: lit "ame: supabase") (code "c" :: a ++ t))
    with (@None str).
  rewrite (count_lines_skip (code "n") (lit "ame: supabase") _ t Ha).
  now destruct bol.
Qed.

Lemma count_lines_renameContainer mp s bol :
  lt_free (atoms_of (lit "container_name: " ++ fst mp)) = true ->
  no_lt (snd mp) ->
  count_lines (lit "name: supabase") bol (renameContainer s mp) =
  count_lines (lit "name: supabase") bol s.
Proof.
  intros Hp Hr. revert bol. unfold renameContainer.
  apply (replace_all_ind _ (lit "container_name: " ++ snd mp)
           (container_pattern_proper (fst mp))
           (fun s out => forall bol,
                count_lines (lit "name: supabase") bol out =
                count_lines (lit "name: supabase") bol s)).
  - reflexivity.
  - intros s0 rest E IH bol.
    destruct (container_pattern_proper _ _ _ E) as (c & pre & Hs).
    destruct (match_atoms_consumed _ _ _ Hp E) as (pre' & Hs' & Hpre).
    rewrite Hs in Hs'. change (c :: pre ++ rest) with ((c :: pre) ++ rest) in Hs'.
    apply app_inv_tail in Hs'. subst pre'.
    destruct (container_pattern_head _ _ _ E) as [t Ht].
    rewrite Hs in Ht. injection Ht as -> _.
    rewrite Hs, <- app_assoc.
    change (lit "container_name: " ++ ?u)
      with (code "c" :: lit "ontainer_name: " ++ u).
    rewrite app_assoc, !count_lines_entry.
    + apply IH.
    + now inversion Hpre.
    + apply Forall_app. split; [repeat constructor | exact Hr].
  - intros c s0 E IH bol. cbn [count_lines]. rewrite IH. f_equal.
    destruct bol; [|reflexivity].
    change (replace_all _ _ s0) with (renameContainer s0 mp).
    change (lit "name: supabase") with (code "n" :: lit "ame: supabase").
    rewrite (stable_line_at (code "c") (fun s => renameContainer s mp)
               (renameContainer_head_stable mp)).
    + now destruct (line_at _ _).
    + simpl. intuition discriminate.
    + reflexivity.
Qed.

Lemma originals_lt_free :
  Forall (fun o => lt_free (atoms_of (lit "container_name: " ++ o)) = true)
         originals.
Proof. repeat constructor. Qed.

Lemma originals_tail_safe :
  Forall (fun o => tail_safe (atoms_of o) = true)
         (lit "supabase-realtime" :: originals).
Proof. repeat constructor. Qed.

(** Rewriting the project-name line brings no container pattern back. *)
Lemma NoMatch_replace_name o slug s bol :
  In o originals ->
  Forall (fun c => is_slug_char c = true) slug ->
  NoMatch (container_pattern o) s ->
  NoMatch (container_pattern o)
    (replace_first_line (lit "name: supabase") (lit "name: " ++ slug) bol s).
Proof.
  intros Ho Hslug. pose proof originals_lt_free as Hlt.
  rewrite Forall_forall in Hlt. specialize (Hlt o Ho).
  revert bol. induction s as [|c s IH]; intros bol Hs; [exact Hs|].
  cbn [replace_first_line].
  destruct (if bol then line_at (lit "name: supabase") (c :: s) else None)
    as [rest|] eqn:E.
  - destruct bol; [|discriminate E]. unfold line_at in E.
    destruct (strip_prefix _ _) as [rest'|] eqn:E'; [|discriminate E].
    destruct (line_end rest') eqn:El; [|discriminate E]. injection E as ->.
    apply strip_prefix_Some in E'. rewrite E' in Hs.
    apply NoMatch_app_r in Hs. rewrite <- app_assoc.
    change (lit "name: " ++ ?u)
      with (code "n" :: code "a" :: code "m" :: code "e" :: code ":" :: code " " :: u).
    scan_text. apply NoMatch_slug; [exact Hslug | | exact Hs].
    destruct rest as [|y rest]; [exact I | now right].
  - apply NoMatch_cons; [|apply IH; exact (NoMatch_tail Hs)].
    apply NoMatch_head in Hs. unfold container_pattern in *.
    rewrite container_atoms in *. rewrite match_atoms_cons in *.
    destruct (accepts (Chr (code "c")) c) eqn:Ec; [|reflexivity].
    cbn [accepts] in Ec. apply N.eqb_eq in Ec. subst c.
    change (is_line_terminator (code "c")) with false.
    apply match_atoms_unanchored; [|exact Hs].
    exact Hlt.
Qed.

Lemma sanitized_chars {J : Engine} (name : str) :
  Forall (fun c => is_slug_char c = true)
         (map (fun c => if is_lower_alnum c then c else code "-")
              (toLowerCase name)).
Proof.
  apply Forall_map, Forall_forall. intros c _. unfold is_slug_char.
  destruct (is_lower_alnum c) eqn:E; [now rewrite E | reflexivity].
Qed.

Lemma strip_prefix_before_dash p a u rest :
  ~ In (code "-") p -> strip_prefix p (a ++ code "-" :: u) = Some rest ->
  exists a', a = p ++ a' /\ rest = a' ++ code "-" :: u.
Proof.
  revert a. induction p as [|y p IH]; intros a Hp; simpl.
  - intros [= <-]. now exists a.
  - destruct a as [|c a]; simpl.
    + destruct (N.eqb_spec y (code "-")) as [->|]; [|discriminate].
      exfalso. apply Hp. now left.
    + destruct (N.eqb_spec y c) as [<-|]; [|discriminate].
      intros E. destruct (IH a) as (a' & -> & ->); [|exact E|].
      * intros H. apply Hp. now right.
      * now exists a'.
Qed.

(** The rewritten project-name line is not the generic one. *)
Lemma slug_line_not_generic {J : Engine} name ts rest :
  line_at (lit "name: supabase")
          ((lit "name: " ++ createProject_slug name ts) ++ rest) = None.
Proof.
  unfold line_at. rewrite <- app_assoc.
  change (strip_prefix (lit "name: supabase") (lit "name: " ++ ?u))
    with (strip_prefix (lit "supabase") u).
  destruct (strip_prefix _ _) as [r|] eqn:E; [|reflexivity].
  unfold createProject_slug in E. rewrite <- !app_assoc in E.
  apply strip_prefix_before_dash in E.
  2:{ simpl. intuition discriminate. }
  destruct E as (a' & Ha & ->).
  pose proof (sanitized_chars name) as Hc. rewrite Ha in Hc.
  apply Forall_app in Hc. destruct Hc as [_ Hc].
  destruct a' as [|y a']; [reflexivity|]. simpl.
  inversion Hc as [|? ? Hy _]; subst. now rewrite (slug_char_not_lt _ Hy).
Qed.

Lemma match_atoms_literal p s : match_atoms (map Chr p) s = strip_prefix p s.
Proof.
  revert s. induction p as [|x p IH]; intros [|c s]; simpl; try reflexivity.
  now rewrite IH.
Qed.

Section CleanSlug.

Context {J : Engine}.

Variables (name : str) (ts : N).
Let slug := createProject_slug name ts.
Hypothesis slug_clean : generic_prefixed slug = false.

Lemma clean_slug_head o w :
  In o originals -> match_atoms (atoms_of o) (slug ++ w) = None.
Proof.
  intros Ho. pose proof originals_tail_safe as Hsafe.
  rewrite Forall_forall in Hsafe.
  apply slug_head_no_match; [apply Hsafe; now right|].
  unfold generic_prefixed in slug_clean.
  apply orb_false_iff in slug_clean. destruct slug_clean as [Hex _].
  destruct (match_atoms (atoms_of o) (createProject_slug name ts)) eqn:E;
    [|reflexivity].
  assert (H : existsb
                (fun original =>
                   match match_atoms (atoms_of original) slug with
                   | Some _ => true
                   | None => false
                   end) originals = true).
  { apply existsb_exists. exists o. split; [exact Ho|].
    unfold slug. now rewrite E. }
  unfold originals in H. rewrite H in Hex. discriminate Hex.
Qed.

Lemma clean_slug_realtime w :
  match_atoms (atoms_of (lit "supabase-realtime")) (slug ++ w) = None.
Proof.
  pose proof originals_tail_safe as Hsafe. rewrite Forall_forall in Hsafe.
  apply slug_head_no_match; [apply Hsafe; now left|].
  unfold generic_prefixed in slug_clean.
  apply orb_false_iff in slug_clean. destruct slug_clean as [_ Hst].
  change (atoms_of (lit "supabase-realtime"))
    with (map Chr (lit "supabase-realtime")).
  rewrite match_atoms_literal. unfold starts_with in Hst.
  now destruct (strip_prefix _ _).
Qed.

Lemma mappings_originals mp :
  In mp (containerMappings slug) -> In (fst mp) originals.
Proof. intros H. exact (in_map fst _ _ H). Qed.

Lemma mappings_no_lt mp : In mp (containerMappings slug) -> no_lt (snd mp).
Proof.
  assert (Hs : no_lt slug).
  { eapply Forall_impl; [|apply createProject_slug_chars]. apply slug_char_not_lt. }
  intros H. simpl in H.
  repeat (destruct H as [<-|H]); [.. | contradiction]; cbn [snd];
    repeat first [ exact Hs
                 | apply Forall_nil
                 | apply Forall_cons; [reflexivity|]
                 | apply Forall_app; split ].
Qed.

Lemma renameContainer_pass l s :
  fold_left renameContainer l s =
  fold_left (pass (fun mp => container_pattern (fst mp))
                  (fun mp => lit "container_name: " ++ snd mp)) l s.
Proof. reflexivity. Qed.

Lemma mapping_inert j k x :
  In j (containerMappings slug) -> In k (containerMappings slug) ->
  NoMatch (container_pattern (fst k)) x ->
  NoMatch (container_pattern (fst k)) ((lit "container_name: " ++ snd j) ++ x).
Proof.
  intros Hj Hk Hx. rewrite <- app_assoc.
  apply (replacement_inert slug); auto using mappings_originals.
  - apply createProject_slug_chars.
  - intros o w. apply clean_slug_head.
  - apply clean_slug_realtime.
Qed.

(** After the renaming loop, no generic container entry is left. *)
Lemma containers_NoMatch text k :
  In k (containerMappings slug) ->
  NoMatch (container_pattern (fst k))
          (fold_left renameContainer (containerMappings slug) text).
Proof.
  intros Hk. rewrite renameContainer_pass.
  apply (pipeline_NoMatch (fun mp => container_pattern (fst mp))
                          (fun mp => lit "container_name: " ++ snd mp));
    [| | | exact Hk].
  - intros j _. apply container_pattern_proper.
  - apply mapping_inert.
  - intros j k' c s _ Hk'. apply container_pattern_stable.
    now apply mappings_originals.
Qed.

Lemma containers_count text :
  count_lines (lit "name: supabase") true
    (fold_left renameContainer (containerMappings slug) text) =
  count_lines (lit "name: supabase") true text.
Proof.
  assert (H : forall l, incl l (containerMappings slug) ->
              forall s, count_lines (lit "name: supabase") true
                          (fold_left renameContainer l s) =
                        count_lines (lit "name: supabase") true s).
  { induction l as [|mp l IH]; intros Hl s; [reflexivity|].
    simpl. rewrite IH by (intros y Hy; apply Hl; now right).
    assert (Hmp : In mp (containerMappings slug)) by (apply Hl; now left).
    apply count_lines_renameContainer.
    - pose proof originals_lt_free as Hlt. rewrite Forall_forall in Hlt.
      apply Hlt. now apply mappings_originals.
    - now apply mappings_no_lt. }
  apply H, incl_refl.
Qed.

Lemma identityRewrite_fixpoint text :
  count_lines (lit "name: supabase") true text <= 1 ->
  identityRewrite slug (identityRewrite slug text) = identityRewrite slug text.
Proof.
  intros Hcount. unfold identityRewrite at 1.
  set (y := identityRewrite slug text).
  assert (Hfix : fold_left renameContainer (containerMappings slug) y = y).
  { rewrite renameContainer_pass.
    apply fold_pass_fix with (table := containerMappings slug).
    - intros j _. apply container_pattern_proper.
    - apply incl_refl.
    - intros k Hk. unfold y, identityRewrite.
      apply NoMatch_replace_name.
      + now apply mappings_originals.
      + apply createProject_slug_chars.
      + now apply containers_NoMatch. }
  rewrite Hfix.
  change (lit "name: supabase") with (code "n" :: lit "ame: supabase").
  apply count_lines_fix. unfold y, identityRewrite.
  change (lit "name: supabase") with (code "n" :: lit "ame: supabase").
  rewrite (count_lines_replace_first (code "n") (lit "ame: supabase")).
  - change (code "n" :: lit "ame: supabase") with (lit "name: supabase").
    rewrite containers_count. lia.
  - reflexivity.
  - repeat constructor.
  - intros rest. apply slug_line_not_generic.
  - apply Forall_app. split; [repeat constructor|].
    eapply Forall_impl; [|apply createProject_slug_chars]. apply slug_char_not_lt.
  - discriminate.
Qed.

End CleanSlug.

(* ================================================================= *)
(** ** Every operation returns a result *)








(** C5.  [initializeSupabaseCore] calls [process.cwd()] before its [try]:
    in a process whose working directory is gone, whatever the outcome of
    the external calls, the fault of that call reaches the caller and no
    result is returned. *)
Theorem C5_initializeSupabaseCore_throws (o : Oracle) (w : World) :
  initializeSupabaseCore Sample.env_without_cwd o w =
  (Throw (JsError (lit "ENOENT: no such file or directory, uv_cwd")), w).
Proof. reflexivity. Qed.

(* ================================================================= *)
(** ** Exposure: hostname and service target *)

Lemma getEnvOrThrow_configured E key v w :
  configured E key v -> getEnvOrThrow E key w = (Ok v, w).
Proof. intros [Hv Ht]. unfold getEnvOrThrow. now rewrite Hv, Ht. Qed.

Lemma getEnvOrThrow_Ok E key v w w' :
  getEnvOrThrow E key w = (Ok v, w') -> configured E key v /\ w' = w.
Proof.
  unfold getEnvOrThrow, configured.
  destruct (getenv E key) as [x|]; [|discriminate].
  destruct (truthy x) eqn:Ht; [|discriminate].
  intros [= -> ->]. auto.
Qed.

(** With its configuration present, the operation is the service target
    followed by the two reconciliations. *)
Lemma exposure_unfold {J : Engine} E o args baseDomain tunnelUuid w :
  configured E (lit "BASE_DOMAIN") baseDomain ->
  configured E (lit "CF_TUNNEL_UUID") tunnelUuid ->
  ensureProjectPublicExposure E o args w =
  match serviceUrlOf E args with
  | Some url =>
      (ensureCloudflareCname E o (exposure_hostname args baseDomain)
                             (tunnelUuid ++ lit ".cfargotunnel.com") ;;
       ensureTunnelIngress E o (exposure_hostname args baseDomain) url
                           tunnelUuid ;;
       ret {| hostname := exposure_hostname args baseDomain;
              publicUrl := lit "https://" ++ exposure_hostname args baseDomain |})
        w
  | None =>
      (Throw (JsError
                (lit "Cannot determine service URL: provide internalUrl or port")),
       w)
  end.
Proof.
  intros Hb Hu. unfold ensureProjectPublicExposure.
  rewrite (bind_run _ _ _ _ _ (getEnvOrThrow_configured _ _ _ w Hb)).
  rewrite (bind_run _ _ _ _ _ (getEnvOrThrow_configured _ _ _ w Hu)).
  destruct (serviceUrlOf E args) as [url|]; reflexivity.
Qed.

Lemma exposure_Ok {J : Engine} E o args w r w' :
  ensureProjectPublicExposure E o args w = (Ok r, w') ->
  exists baseDomain tunnelUuid url w1,
    configured E (lit "BASE_DOMAIN") baseDomain /\
    configured E (lit "CF_TUNNEL_UUID") tunnelUuid /\
    serviceUrlOf E args = Some url /\
    ensureCloudflareCname E o (exposure_hostname args baseDomain)
                          (tunnelUuid ++ lit ".cfargotunnel.com") w
      = (Ok tt, w1) /\
    ensureTunnelIngress E o (exposure_hostname args baseDomain) url
                        tunnelUuid w1 = (Ok tt, w') /\
    r = {| hostname := exposure_hostname args baseDomain;
           publicUrl := lit "https://" ++ exposure_hostname args baseDomain |}.
Proof.
  intros H. pose proof H as Hrun. unfold ensureProjectPublicExposure in H.
  apply bind_Ok in H. destruct H as (baseDomain & w0 & Hb & H).
  apply getEnvOrThrow_Ok in Hb. destruct Hb as [Hb ->].
  apply bind_Ok in H. destruct H as (tunnelUuid & w0 & Hu & _).
  apply getEnvOrThrow_Ok in Hu. destruct Hu as [Hu _].
  rewrite (exposure_unfold E o args baseDomain tunnelUuid w Hb Hu) in Hrun.
  destruct (serviceUrlOf E args) as [url|]; [|discriminate].
  apply bind_Ok in Hrun. destruct Hrun as ([] & w1 & Hdns & Hrun).
  apply bind_Ok in Hrun. destruct Hrun as ([] & w2 & Hing & Hrun).
  injection Hrun as <- <-.
  now exists baseDomain, tunnelUuid, url, w1.
Qed.

Lemma slug_char_spec c :
  is_slug_char c = true <->
  In c (lit "abcdefghijklmnopqrstuvwxyz0123456789-").
Proof.
  split.
  - intros H.
    assert (Hc : (c < 123)%N) by units.
    assert (Hn : exists n, c = N.of_nat n /\ n < 123).
    { exists (N.to_nat c). split; [now rewrite N2Nat.id | lia]. }
    destruct Hn as (n & -> & Hn).
    do 123 (destruct n as [|n]; [first [discriminate H | vm_compute; tauto]|]).
    lia.
  - vm_compute. intros H.
    repeat (destruct H as [<-|H]; [reflexivity|]). contradiction.
Qed.

(** Below 256, [toLowerCase] works code unit by code unit. *)
Lemma lower_from_latin1 {J : Engine} before s :
  Forall (fun c => (c < 256)%N) s -> lower_from before s = map lower_char s.
Proof.
  intros H. revert before. induction H as [|c s Hc _ IH]; intros before.
  - reflexivity.
  - cbn [lower_from map]. apply N.ltb_lt in Hc. rewrite Hc, IH. reflexivity.
Qed.

(** C9.  Hostname sanitization lower-cases its input and puts [-] in the
    place of every code unit outside [[a-z0-9-]], which for an input within
    Latin-1 is a change code unit by code unit; the result holds only
    lowercase letters, digits and hyphens, ["My Proj_2!"] gives
    ["my-proj-2-"], and the hostname of an exposure is the sanitized slug,
    a dot and the base domain. *)
Theorem C9_sanitized_hostname {J : Engine} :
  (forall input,
     sanitizeSlug input =
     map (fun c => if is_slug_char c then c else code "-")
         (toLowerCase input)) /\
  (forall input,
     Forall (fun c => (c < 256)%N) input ->
     sanitizeSlug input =
     map (fun c => if is_slug_char (lower_char c) then lower_char c
                   else code "-") input) /\
  (forall input,
     Forall (fun c => In c (lit "abcdefghijklmnopqrstuvwxyz0123456789-"))
            (sanitizeSlug input)) /\
  sanitizeSlug (lit "My Proj_2!") = lit "my-proj-2-" /\
  (forall E o args w r w',
     ensureProjectPublicExposure E o args w = (Ok r, w') ->
     exists baseDomain,
       getenv E (lit "BASE_DOMAIN") = Some baseDomain /\
       hostname r =
       sanitizeSlug (slugOrName (projectSlug args) (projectName args))
         ++ lit "." ++ baseDomain).
Proof.
  split; [|split; [|split; [|split]]].
  - reflexivity.
  - intros input Hin. unfold sanitizeSlug, toLowerCase.
    rewrite (lower_from_latin1 _ _ Hin). apply map_map.
  - intros input. unfold sanitizeSlug. apply Forall_map, Forall_forall.
    intros c _. apply slug_char_spec.
    destruct (is_slug_char c) eqn:Ec; [exact Ec | reflexivity].
  - reflexivity.
  - intros E o args w r w' H. apply exposure_Ok in H.
    destruct H as (baseDomain & _ & _ & _ & [Hb _] & _ & _ & _ & _ & ->).
    now exists baseDomain.
Qed.

Lemma C9_sanitized_hostname_witness :
  hostname {| hostname := Sample.hostname;
              publicUrl := lit "https://" ++ Sample.hostname |}
  = sanitizeSlug (J := Sample.engine) (lit "demo-1700000000123")
      ++ lit "." ++ lit "example.com".
Proof.
  destruct (C9_sanitized_hostname (J := Sample.engine))
    as (_ & _ & _ & _ & Hhost).
  assert (H : ensureProjectPublicExposure (J := Sample.engine) Sample.env
                Sample.healthy Sample.args Sample.world
              = (Ok {| hostname := Sample.hostname;
                       publicUrl := lit "https://" ++ Sample.hostname |},
                 snd (ensureProjectPublicExposure (J := Sample.engine)
                        Sample.env Sample.healthy Sample.args Sample.world)))
    by (vm_compute; reflexivity).
  destruct (Hhost _ _ _ _ _ _ H) as (baseDomain & Hbase & Heq).
  injection Hbase as <-. exact Heq.
Defined.

(** C7.  With the base domain and the tunnel configured, the service target
    is the explicit internal URL when there is one, else the configured
    reverse-proxy URL, else [http://127.0.0.1:<port>]; the reconciliations
    run with that target, and without any of the three the operation throws
    before touching anything. *)
Theorem C7_service_target_precedence {J : Engine} E o args baseDomain
    tunnelUuid :
  configured E (lit "BASE_DOMAIN") baseDomain ->
  configured E (lit "CF_TUNNEL_UUID") tunnelUuid ->
  (forall url, nonblank (internalUrl args) = Some url ->
               serviceUrlOf E args = Some url) /\
  (forall url, nonblank (internalUrl args) = None ->
               nonblank (getenv E (lit "INTERNAL_REVERSE_PROXY_URL")) = Some url ->
               serviceUrlOf E args = Some url) /\
  (forall p, nonblank (internalUrl args) = None ->
             nonblank (getenv E (lit "INTERNAL_REVERSE_PROXY_URL")) = None ->
             port args = Some p -> truthy_number p = true ->
             serviceUrlOf E args
             = Some (lit "http://127.0.0.1:" ++ number_to_string p)) /\
  (forall z, (0 < z <= 2 ^ 53)%Z ->
             number_to_string (Int z) = dec (Z.to_N z)) /\
  (nonblank (internalUrl args) = None ->
   nonblank (getenv E (lit "INTERNAL_REVERSE_PROXY_URL")) = None ->
   (port args = None \/ exists p, port args = Some p /\ truthy_number p = false) ->
   serviceUrlOf E args = None) /\
  (forall w,
     ensureProjectPublicExposure E o args w =
     match serviceUrlOf E args with
     | Some url =>
         (ensureCloudflareCname E o (exposure_hostname args baseDomain)
                                (tunnelUuid ++ lit ".cfargotunnel.com") ;;
          ensureTunnelIngress E o (exposure_hostname args baseDomain) url
                              tunnelUuid ;;
          ret {| hostname := exposure_hostname args baseDomain;
                 publicUrl :=
                   lit "https://" ++ exposure_hostname args baseDomain |}) w
     | None =>
         (Throw (JsError
                   (lit "Cannot determine service URL: provide internalUrl or port")),
          w)
     end).
Proof.
  intros Hb Hu. unfold serviceUrlOf.
  split; [|split; [|split; [|split; [|split]]]].
  - now intros url ->.
  - now intros url -> ->.
  - now intros p -> -> -> ->.
  - intros z Hz. unfold number_to_string.
    destruct (Z.leb_spec (Z.abs z) (2 ^ 53)) as [_|H]; [|lia].
    destruct (Z.ltb_spec z 0) as [H|_]; [lia | reflexivity].
  - intros -> -> [-> | (p & -> & ->)]; reflexivity.
  - intros w. now apply exposure_unfold.
Qed.

Lemma C7_service_target_precedence_witness :
  serviceUrlOf (J := Sample.engine) Sample.env Sample.args
  = Some (lit "http://127.0.0.1:8123") /\
  serviceUrlOf (J := Sample.engine) Sample.env Sample.args_404
  = Some (lit "http_status:404").
Proof.
  destruct (C7_service_target_precedence (J := Sample.engine) Sample.env
              Sample.healthy Sample.args
              (lit "example.com") (lit "0a1b2c3d")
              (conj eq_refl eq_refl) (conj eq_refl eq_refl))
    as (_ & _ & Hport & _).
  destruct (C7_service_target_precedence (J := Sample.engine) Sample.env
              Sample.healthy
              Sample.args_404 (lit "example.com") (lit "0a1b2c3d")
              (conj eq_refl eq_refl) (conj eq_refl eq_refl))
    as (Hurl & _).
  split.
  - exact (Hport (Int 8123) eq_refl eq_refl eq_refl eq_refl).
  - exact (Hurl (lit "http_status:404") eq_refl).
Defined.

(** C10.  Without an internal URL and without a configured reverse proxy, a
    port of 0 makes the operation throw the [Cannot determine service URL]
    error, exactly as an absent port does. *)
Theorem C10_port_zero_is_no_port {J : Engine} E o args baseDomain
    tunnelUuid w :
  configured E (lit "BASE_DOMAIN") baseDomain ->
  configured E (lit "CF_TUNNEL_UUID") tunnelUuid ->
  nonblank (internalUrl args) = None ->
  nonblank (getenv E (lit "INTERNAL_REVERSE_PROXY_URL")) = None ->
  port args = Some (Int 0) ->
  ensureProjectPublicExposure E o args w =
  (Throw (JsError
            (lit "Cannot determine service URL: provide internalUrl or port")),
   w) /\
  ensureProjectPublicExposure E o args w =
  ensureProjectPublicExposure E o
    {| projectName := projectName args; projectSlug := projectSlug args;
       port := None; internalUrl := internalUrl args |} w.
Proof.
  intros Hb Hu Hi Hp Hport.
  rewrite !(exposure_unfold E o _ baseDomain tunnelUuid w Hb Hu).
  unfold serviceUrlOf. cbn [internalUrl port]. rewrite Hi, Hp, Hport.
  split; reflexivity.
Qed.

Lemma C10_port_zero_is_no_port_witness :
  ensureProjectPublicExposure (J := Sample.engine) Sample.env Sample.healthy
    Sample.args_port_0 Sample.world =
  (Throw (JsError
            (lit "Cannot determine service URL: provide internalUrl or port")),
   Sample.world).
Proof.
  exact (proj1 (C10_port_zero_is_no_port (J := Sample.engine) Sample.env
                  Sample.healthy Sample.args_port_0 (lit "example.com") (lit "0a1b2c3d")
                  Sample.world
                  (conj eq_refl eq_refl) (conj eq_refl eq_refl)
                  eq_refl eq_refl eq_refl)).
Defined.

(* ================================================================= *)
(** ** Reconciliation of the DNS record and of the ingress rules *)

Lemma str_eqb_eq a b : str_eqb a b = true <-> a = b.
Proof.
  revert b. induction a as [|x a IH]; intros [|y b]; simpl;
    try (split; [discriminate | discriminate]); [tauto|].
  rewrite andb_true_iff, N.eqb_eq, IH. split.
  - now intros [-> ->].
  - now intros [= -> ->].
Qed.

Lemma str_eqb_refl a : str_eqb a a = true.
Proof. now apply str_eqb_eq. Qed.

Lemma keeps_run {A X} (f : World -> X) (m : M A) w r w' :
  keeps f m -> m w = (r, w') -> f w' = f w.
Proof. intros H E. specialize (H w). now rewrite E in H. Qed.

Lemma dns_request_Ok {A} o call what h (answer : M A) w a w' :
  dns_request o call what h answer w = (Ok a, w') ->
  http_outcome o call = HttpOk /\
  answer (add_event (EvDns call h) w) = (Ok a, w').
Proof.
  unfold dns_request. intros H. apply bind_Ok in H.
  destruct H as ([] & w1 & He & H). injection He as <-.
  destruct (http_outcome o call); [auto | discriminate | discriminate].
Qed.

Lemma fresh_id_above z r : In r z -> (d_id r < fresh_id z)%N.
Proof.
  unfold fresh_id. induction z as [|x z IH]; [contradiction|].
  simpl. intros [->|H]; [lia|]. specialize (IH H). lia.
Qed.

Lemma NoDup_ids_inj z r e :
  NoDup (map d_id z) -> In r z -> In e z -> d_id r = d_id e -> r = e.
Proof.
  induction z as [|x z IH]; [contradiction|].
  simpl. intros Hnd Hr He Hid. inversion Hnd as [|? ? Hx Hz]; subst.
  destruct Hr as [->|Hr], He as [->|He]; auto.
  - exfalso. apply Hx. rewrite Hid. now apply in_map.
  - exfalso. apply Hx. rewrite <- Hid. now apply in_map.
Qed.

(** The DNS reconciliation leaves exactly the records for [h] it found,
    or the one it created. *)
Lemma ensureCloudflareCname_Ok E o h target w w' :
  ensureCloudflareCname E o h target w = (Ok tt, w') ->
  tunnelConfig w' = tunnelConfig w /\
  (NoDup (map d_id (zone w)) ->
   NoDup (map d_id (zone w')) /\
   length (dns_records h (zone w')) = Nat.max 1 (length (dns_records h (zone w)))).
Proof.
  unfold ensureCloudflareCname. intros H.
  apply bind_Ok in H. destruct H as (token & w0 & Ht & H).
  apply getEnvOrThrow_Ok in Ht. destruct Ht as [_ ->].
  apply bind_Ok in H. destruct H as (zoneId & w0 & Hz & H).
  apply getEnvOrThrow_Ok in Hz. destruct Hz as [_ ->].
  apply bind_Ok in H. destruct H as (result & w0 & Hl & H).
  apply dns_request_Ok in Hl. destruct Hl as [_ Hl].
  injection Hl as <- <-. fold (dns_records h (zone w)) in H.
  change (zone (add_event (EvDns DnsList h) w)) with (zone w) in H.
  destruct (dns_records h (zone w)) as [|existing rest] eqn:Erec.
  - apply dns_request_Ok in H. destruct H as [_ H]. injection H as <-.
    split; [reflexivity|]. intros Hnd. simpl. split.
    + rewrite map_app. simpl. apply NoDup_app; [exact Hnd| |].
      * repeat constructor. intros [].
      * intros x Hx [<-|[]]. apply in_map_iff in Hx.
        destruct Hx as (r & Hr & Hin). apply fresh_id_above in Hin. lia.
    + unfold dns_records in *. rewrite filter_app, Erec. simpl.
      now rewrite str_eqb_refl.
  - assert (Hin : In existing (zone w) /\ d_name existing = h).
    { assert (Hx : In existing (dns_records h (zone w)))
        by (rewrite Erec; now left).
      apply filter_In in Hx. now rewrite str_eqb_eq in Hx. }
    destruct Hin as [Hin Hname].
    destruct (negb (str_eqb (d_content existing) target)
              || negb (d_proxied existing)).
    + apply dns_request_Ok in H. destruct H as [_ H]. injection H as <-.
      split; [reflexivity|]. intros Hnd. simpl. split.
      * rewrite map_map.
        erewrite map_ext; [exact Hnd|]. intros r. simpl.
        destruct (N.eqb_spec (d_id r) (d_id existing)); simpl; congruence.
      * unfold dns_records in *. simpl.
        assert (Hsame : forall l, incl l (zone w) ->
                  filter (fun r => str_eqb (d_name r) h)
                    (map (fun r => if (d_id r =? d_id existing)%N
                                   then {| d_id := d_id existing; d_name := h;
                                           d_content := target;
                                           d_proxied := true |}
                                   else r) l) =
                  map (fun r => if (d_id r =? d_id existing)%N
                                then {| d_id := d_id existing; d_name := h;
                                        d_content := target;
                                        d_proxied := true |}
                                else r)
                      (filter (fun r => str_eqb (d_name r) h) l)).
        { induction l as [|r l IH]; intros Hl; [reflexivity|]. simpl.
          assert (Hr : In r (zone w)) by (apply Hl; now left).
          rewrite IH by (intros y Hy; apply Hl; now right).
          destruct (N.eqb_spec (d_id r) (d_id existing)) as [Heq|Hne]; simpl.
          - rewrite str_eqb_refl.
            rewrite (NoDup_ids_inj _ _ _ Hnd Hr Hin Heq), Hname, str_eqb_refl.
            simpl. now rewrite N.eqb_refl.
          - destruct (str_eqb (d_name r) h); [|reflexivity].
            simpl. destruct (N.eqb_spec (d_id r) (d_id existing));
              [contradiction | reflexivity]. }
        rewrite Hsame by apply incl_refl. rewrite length_map, Erec.
        simpl. reflexivity.
    + injection H as <-. split; [reflexivity|]. intros Hnd.
      split; [exact Hnd|]. cbn [zone add_event]. rewrite Erec. reflexivity.
Qed.

Lemma keeps_mkdir {X} (f : World -> X) o path :
  (forall ev w, f (add_event ev w) = f w) ->
  (forall ds w, f (set_dirs ds w) = f w) ->
  keeps f (mkdir o path).
Proof.
  intros He Hd. unfold mkdir. destruct (fs_fault o FsMkdir path).
  - frame_step.
  - apply keeps_bind; [apply keeps_modify, He | intros].
    apply keeps_modify. intros w. apply Hd.
Qed.

Lemma readYamlFile_run o path w :
  exists document,
    readYamlFile o path w = (Ok document, w) /\
    (document = DocMapping empty_config \/ tunnelConfig w = Some document).
Proof.
  unfold readYamlFile, bind, get.
  destruct (fs_fault o FsRead path), (tunnelConfig w);
    eexists; split; try reflexivity; auto.
Qed.

Lemma writeYamlFile_Ok E o path data w w' :
  writeYamlFile E o path data w = (Ok tt, w') ->
  tunnelConfig w' = Some data /\ zone w' = zone w.
Proof.
  unfold writeYamlFile. intros H.
  apply bind_Ok in H. destruct H as ([] & w1 & Hm & H).
  destruct (fs_fault o FsWrite path); [discriminate|].
  injection H as <-. split; [reflexivity|].
  apply (keeps_run zone _ _ _ _ (keeps_mkdir zone o _ (fun _ _ => eq_refl)
                                               (fun _ _ => eq_refl)) Hm).
Qed.

Lemma lift_Ok {A} (r : res A) w a w' :
  lift r w = (Ok a, w') -> r = Ok a /\ w' = w.
Proof. unfold lift. now intros [= -> <-]. Qed.

Lemma lift_run {A} (r : res A) a w : r = Ok a -> lift r w = (Ok a, w).
Proof. unfold lift. now intros ->. Qed.

Lemma validate_reload_keeps E o path uuid w w' r :
  (validateIngress o path ;; reloadCloudflared E o path uuid) w = (r, w') ->
  zone w' = zone w /\ tunnelConfig w' = tunnelConfig w.
Proof.
  intros H. split.
  - change w' with (snd (r, w')). rewrite <- H.
    apply (keeps_bind zone);
      [apply keeps_validateIngress | intros; apply keeps_reloadCloudflared];
      reflexivity.
  - change w' with (snd (r, w')). rewrite <- H.
    apply (keeps_bind tunnelConfig);
      [apply keeps_validateIngress | intros; apply keeps_reloadCloudflared];
      reflexivity.
Qed.

(** On a mapping, the ingress reconciliation writes the old rules of the
    other hostnames, the new rule and one catch-all; a sequence at the top
    level of the document is written back as it was.  The zone is left
    alone. *)
Lemma ensureTunnelIngress_Ok {J : Engine} E o h url tunnelUuid w w' :
  ensureTunnelIngress E o h url tunnelUuid w = (Ok tt, w') ->
  zone w' = zone w /\
  ((exists items,
      ingress_of (tunnelConfig w') =
      ensureCatchAll404
        (filter (fun r => negb (same_hostname h r)) items
         ++ [host_rule h url])) \/
   (exists items, tunnelConfig w = Some (DocSequence items))).
Proof.
  unfold ensureTunnelIngress. intros H.
  apply bind_Ok in H. destruct H as (path & w0 & Hp & H).
  apply lift_Ok in Hp. destruct Hp as [_ ->].
  destruct (readYamlFile_run o path w) as (document & Hr & Hdoc).
  rewrite (bind_run _ _ _ _ _ Hr) in H.
  destruct document as [config|items|fault]; [| |discriminate H].
  - apply bind_Ok in H. destruct H as ([] & w1 & Hw & H).
    apply writeYamlFile_Ok in Hw. destruct Hw as [Hcfg Hzone].
    apply validate_reload_keeps in H. destruct H as [Hz Hc].
    split; [congruence|]. left.
    exists (match c_ingress config with Some items => items | None => [] end).
    rewrite Hc, Hcfg. reflexivity.
  - apply bind_Ok in H. destruct H as ([] & w1 & Hw & H).
    apply writeYamlFile_Ok in Hw. destruct Hw as [Hcfg Hzone].
    apply validate_reload_keeps in H. destruct H as [Hz Hc].
    split; [congruence|]. right. exists items.
    destruct Hdoc as [Hdoc|Hdoc]; [discriminate Hdoc | exact Hdoc].
Qed.

(** After the ingress reconciliation the document is what it was: a mapping
    or a sequence. *)
Lemma ensureTunnelIngress_document {J : Engine} E o h url tunnelUuid w w' :
  ensureTunnelIngress E o h url tunnelUuid w = (Ok tt, w') ->
  (forall items, tunnelConfig w <> Some (DocSequence items)) ->
  forall items, tunnelConfig w' <> Some (DocSequence items).
Proof.
  unfold ensureTunnelIngress. intros H Hseq.
  apply bind_Ok in H. destruct H as (path & w0 & Hp & H).
  apply lift_Ok in Hp. destruct Hp as [_ ->].
  destruct (readYamlFile_run o path w) as (document & Hr & Hdoc).
  rewrite (bind_run _ _ _ _ _ Hr) in H.
  destruct document as [config|items|fault]; [| |discriminate H].
  - apply bind_Ok in H. destruct H as ([] & w1 & Hw & H).
    apply writeYamlFile_Ok in Hw. destruct Hw as [Hcfg Hzone].
    apply validate_reload_keeps in H. destruct H as [Hz Hc].
    intros items. rewrite Hc, Hcfg. discriminate.
  - exfalso. destruct Hdoc as [Hdoc|Hdoc]; [discriminate Hdoc|].
    exact (Hseq _ Hdoc).
Qed.

Section IngressLists.

Context {J : Engine}.

Variables (h url : str).
Hypothesis h_truthy : truthy h = true.
Hypothesis url_not_404 : url <> lit "http_status:404".

Let rule := host_rule h url.

Lemma rule_for_same e : rule_for h e = true -> same_hostname h e = true.
Proof.
  destruct e as [r|]; simpl; [|discriminate].
  destruct (r_hostname r) as [[x|]|]; try discriminate.
  rewrite str_eqb_eq. intros ->. cbn [value_truthy value_string].
  now rewrite h_truthy, str_eqb_refl.
Qed.

Lemma rule_not_404 : is_404 rule = false.
Proof.
  unfold rule, host_rule, is_404. cbn [r_service].
  destruct (str_eqb url (lit "http_status:404")) eqn:E; [|reflexivity].
  apply str_eqb_eq in E. contradiction.
Qed.

Lemma filter_none {T} (p q : T -> bool) l :
  (forall x, p x = true -> q x = true) ->
  filter p (filter (fun x => negb (q x)) l) = [].
Proof.
  intros Hpq. induction l as [|x l IH]; [reflexivity|]. simpl.
  destruct (q x) eqn:Eq; simpl; [exact IH|].
  destruct (p x) eqn:Ep; [|exact IH].
  rewrite (Hpq _ Ep) in Eq. discriminate.
Qed.

Lemma filter_filter_comm {T} (p q : T -> bool) l :
  filter p (filter q l) = filter q (filter p l).
Proof.
  induction l as [|x l IH]; [reflexivity|]. simpl.
  destruct (p x) eqn:Ep, (q x) eqn:Eq; simpl; rewrite ?Ep, ?Eq, IH; reflexivity.
Qed.

(** The list written by [ensureTunnelIngress]. *)
Lemma reconciled_ingress items :
  let written :=
    ensureCatchAll404 (filter (fun r => negb (same_hostname h r)) items
                       ++ [rule]) in
  length (filter (rule_for h) written) = 1 /\
  length (filter (same_hostname h) written) = 1 /\
  exists rules, written = rules ++ [catch_all] /\ filter is_404 rules = [].
Proof.
  unfold ensureCatchAll404. rewrite !filter_app. cbn [filter].
  rewrite rule_not_404. cbn [negb app]. repeat split.
  - rewrite (filter_filter_comm (rule_for h)),
      (filter_none (rule_for h) (same_hostname h)) by apply rule_for_same.
    unfold rule, host_rule. cbn [rule_for r_hostname r_service filter app is_404].
    rewrite str_eqb_refl. reflexivity.
  - rewrite (filter_filter_comm (same_hostname h)),
      (filter_none (same_hostname h) (same_hostname h)) by auto.
    unfold rule, host_rule.
    cbn [same_hostname r_hostname r_service filter app is_404 value_truthy
         value_string].
    rewrite h_truthy, str_eqb_refl. reflexivity.
  - eexists. split; [reflexivity|].
    rewrite filter_app, (filter_none is_404 is_404) by auto.
    cbn [filter app]. now rewrite rule_not_404.
Qed.

End IngressLists.

Lemma exposure_hostname_truthy {J : Engine} args baseDomain :
  truthy (exposure_hostname args baseDomain) = true.
Proof.
  unfold exposure_hostname. now destruct (sanitizeSlug _).
Qed.

Lemma configured_unique E key v v' :
  configured E key v -> configured E key v' -> v = v'.
Proof. intros [H _] [H' _]. congruence. Qed.

(** X1.  Two calls in a row on a document that is not a sequence.  When both
    succeed, the provider's record ids are unique, the zone holds at most
    one record for the hostname, and the service target is not the
    catch-all service [http_status:404], the second call leaves exactly one
    DNS record and exactly one ingress rule for the hostname, and the
    ingress list ends with its only [http_status:404] rule. *)
Theorem exposure_twice {J : Engine} E o1 o2 args w r1 w1 r2 w2 :
  ensureProjectPublicExposure E o1 args w = (Ok r1, w1) ->
  ensureProjectPublicExposure E o2 args w1 = (Ok r2, w2) ->
  NoDup (map d_id (zone w)) ->
  length (dns_records (hostname r1) (zone w)) <= 1 ->
  serviceUrlOf E args <> Some (lit "http_status:404") ->
  (forall items, tunnelConfig w <> Some (DocSequence items)) ->
  hostname r2 = hostname r1 /\
  length (dns_records (hostname r1) (zone w2)) = 1 /\
  length (filter (rule_for (hostname r1)) (ingress_of (tunnelConfig w2))) = 1 /\
  length (filter (same_hostname (hostname r1)) (ingress_of (tunnelConfig w2)))
    = 1 /\
  exists rules,
    ingress_of (tunnelConfig w2) = rules ++ [catch_all] /\
    filter is_404 rules = [].
Proof.
  intros H1 H2 Hnd Hcount Hurl Hseq.
  apply exposure_Ok in H1.
  destruct H1 as (base & uuid & url & wa & Hb & Hu & Hs & Hdns1 & Hing1 & ->).
  apply exposure_Ok in H2.
  destruct H2 as (base' & uuid' & url' & wb & Hb' & Hu' & Hs' & Hdns2 & Hing2 & ->).
  rewrite <- (configured_unique _ _ _ _ Hb Hb') in *.
  rewrite <- (configured_unique _ _ _ _ Hu Hu') in *.
  assert (url' = url) by congruence. subst url'.
  cbn [hostname] in *. set (h := exposure_hostname args base) in *.
  apply ensureCloudflareCname_Ok in Hdns1. destruct Hdns1 as [Hcfg1 Hdns1].
  destruct (Hdns1 Hnd) as [Hnd1 Hc1].
  rewrite <- Hcfg1 in Hseq.
  pose proof (ensureTunnelIngress_document _ _ _ _ _ _ _ Hing1 Hseq) as Hseq1.
  apply ensureTunnelIngress_Ok in Hing1. destruct Hing1 as [Hz1 _].
  rewrite <- Hz1 in Hnd1, Hc1.
  apply ensureCloudflareCname_Ok in Hdns2. destruct Hdns2 as [Hcfg2 Hdns2].
  destruct (Hdns2 Hnd1) as [_ Hc2].
  rewrite <- Hcfg2 in Hseq1.
  apply ensureTunnelIngress_Ok in Hing2.
  destruct Hing2 as [Hz2 [[items Hitems]|[items Hitems]]];
    [|exfalso; exact (Hseq1 _ Hitems)].
  split; [reflexivity|]. split; [rewrite Hz2, Hc2, Hc1; lia|].
  rewrite Hitems. apply reconciled_ingress.
  - apply exposure_hostname_truthy.
  - intros ->. now apply Hurl.
Qed.

Lemma exposure_twice_witness :
  exists r2 w2,
    ensureProjectPublicExposure (J := Sample.engine) Sample.env Sample.healthy
      Sample.args
      (snd (ensureProjectPublicExposure (J := Sample.engine) Sample.env
              Sample.healthy Sample.args Sample.world))
    = (Ok r2, w2) /\
    length (dns_records Sample.hostname (zone w2)) = 1 /\
    length (filter (same_hostname (J := Sample.engine) Sample.hostname)
                   (ingress_of (tunnelConfig w2))) = 1.
Proof.
  assert (H1 : ensureProjectPublicExposure (J := Sample.engine) Sample.env
                 Sample.healthy Sample.args Sample.world
               = (Ok {| hostname := Sample.hostname;
                        publicUrl := lit "https://" ++ Sample.hostname |},
                  snd (ensureProjectPublicExposure (J := Sample.engine)
                         Sample.env Sample.healthy Sample.args Sample.world)))
    by (vm_compute; reflexivity).
  destruct (ensureProjectPublicExposure (J := Sample.engine) Sample.env
              Sample.healthy Sample.args
              (snd (ensureProjectPublicExposure (J := Sample.engine)
                      Sample.env Sample.healthy Sample.args Sample.world)))
    as [[r2|e] w2] eqn:H2; [|exfalso; revert H2; vm_compute; discriminate].
  destruct (exposure_twice (J := Sample.engine) Sample.env Sample.healthy
              Sample.healthy Sample.args Sample.world _ _ r2 w2 H1 H2
              (NoDup_nil _) (le_S _ _ (le_n _))
              ltac:(vm_compute; discriminate) ltac:(discriminate))
    as (_ & Hrecords & _ & Hrules & _).
  exists r2, w2. split; [reflexivity|].
  split; [exact Hrecords | exact Hrules].
Defined.

(** C1.  Two calls in a row with the same arguments, every external call
    succeeding.  With [http_status:404] as the internal URL, the
    normalisation that keeps a single catch-all removes the rule the call
    has just added: both calls succeed and no rule for the hostname is
    left.  With a list of rules at the top level of the document, the new
    rule is put on a property that is not written: both calls succeed and
    the document is what it was, without a rule for the hostname and
    without the [ingress] list. *)
Theorem C1_exposure_twice_leaves_no_rule :
  let expose :=
    ensureProjectPublicExposure (J := Sample.engine) Sample.env
      Sample.healthy in
  let answer :=
    Ok {| hostname := Sample.hostname;
          publicUrl := lit "https://" ++ Sample.hostname |} in
  (let run1 := expose Sample.args_404 Sample.world in
   let run2 := expose Sample.args_404 (snd run1) in
   fst run1 = answer /\ fst run2 = answer /\
   length (dns_records Sample.hostname (zone (snd run2))) = 1 /\
   filter (rule_for Sample.hostname) (ingress_of (tunnelConfig (snd run2)))
   = [] /\
   ingress_of (tunnelConfig (snd run2)) = [catch_all]) /\
  (let run1 := expose Sample.args Sample.listed in
   let run2 := expose Sample.args (snd run1) in
   fst run1 = answer /\ fst run2 = answer /\
   length (dns_records Sample.hostname (zone (snd run2))) = 1 /\
   tunnelConfig (snd run2) = tunnelConfig Sample.listed /\
   ingress_of (tunnelConfig (snd run2)) = []).
Proof. vm_compute. repeat split. Qed.

(* ================================================================= *)
(** ** Deployment without a container runtime *)

Section FileEffects.

Variable o : Oracle.
Context {X : Type} (f : World -> X).
Hypothesis f_trace : forall ev w, f (add_event ev w) = f w.
Hypothesis f_files : forall fs w, f (set_files fs w) = f w.

Lemma keeps_readFile path : keeps f (readFile o path).
Proof. unfold readFile. repeat frame_step. Qed.

Lemma keeps_writeFile path content : keeps f (writeFile o path content).
Proof.
  unfold writeFile. destruct (fs_fault o FsWrite path); [frame_step|].
  apply keeps_bind; [apply keeps_modify, f_trace | intros].
  apply keeps_modify. intros w. apply f_files.
Qed.

Lemma keeps_patchComposePorts path : keeps f (patchComposePorts o path).
Proof.
  unfold patchComposePorts.
  apply keeps_bind; [apply keeps_readFile | intros content].
  lazy zeta. destruct (negb _); [apply keeps_writeFile | frame_step].
Qed.

End FileEffects.

Lemma find_project_run o projectId w project :
  db_fault o DbProjectFind = None ->
  find (has_id projectId) (projects w) = Some project ->
  project_findUnique o projectId w = (Ok (Some project), w).
Proof.
  intros Hdb Hfind. unfold project_findUnique, db. rewrite Hdb.
  unfold bind, get, ret. now rewrite Hfind.
Qed.

Lemma checkDockerPrerequisites_missing E o e w :
  exec_result o (lit "docker --version") None = Throw e ->
  exists checks w',
    checkDockerPrerequisites E o w = (Ok checks, w') /\ docker checks = false.
Proof.
  intros He. unfold checkDockerPrerequisites.
  assert (Hp : probe o (lit "docker --version") w
               = (Ok false, add_event (EvExec (lit "docker --version") None) w)).
  { unfold probe, try_catch, bind, exec, emit, modify. now rewrite He. }
  rewrite (bind_run _ _ _ _ _ Hp).
  destruct (total_probe o (lit "docker compose version")
              (add_event (EvExec (lit "docker --version") None) w))
    as (dc & w1 & E1).
  rewrite (bind_run _ _ _ _ _ E1).
  destruct (total_checkInternetConnectivity E o w1) as (ic & w2 & E2).
  rewrite (bind_run _ _ _ _ _ E2).
  now eexists _, _.
Qed.

Lemma process_cwd_run E dir w :
  cwd E = Ok dir -> process_cwd E w = (Ok dir, w).
Proof. unfold process_cwd, lift. now intros ->. Qed.

(** C4.  For a project that is in the store with status [created], when the
    deployment comes to the probe [docker --version] (the row is read and
    [process.cwd()] returns) and the probe fails, [deployProject] returns a
    failure whose message contains [Docker is not installed], and the store
    rows of the projects are what they were: the status is still
    [created]. *)
Theorem C4_deploy_without_docker {J : Engine} E o projectId w project dir e :
  db_fault o DbProjectFind = None ->
  find (has_id projectId) (projects w) = Some project ->
  p_status project = lit "created" ->
  cwd E = Ok dir ->
  exec_result o (lit "docker --version") None = Throw e ->
  exists message w',
    deployProject E o projectId w =
    (Ok {| success := false; error_message := Some message;
           created_project := None; public_url := None |}, w') /\
    includes (lit "Docker is not installed") message = true /\
    projects w' = projects w /\
    exists p, find (has_id projectId) (projects w') = Some p /\
              p_status p = lit "created".
Proof.
  intros Hdb Hfind Hstatus Hcwd He. unfold deployProject.
  destruct (total_try_catch (patchComposePorts o
              (path_join E [path_join E [dir; lit "supabase-projects";
                                         p_slug project; lit "docker"];
                            lit "docker-compose.yml"]))
              (fun _ => ret tt) (fun _ => total_ret tt) w) as ([] & w1 & E1).
  destruct (checkDockerPrerequisites_missing E o e w1 He)
    as (checks & w2 & E2 & Hdocker).
  assert (Hp1 : projects w1 = projects w).
  { refine (keeps_run projects _ _ _ _ _ E1).
    apply keeps_try_catch; [|intros; frame_step].
    apply keeps_patchComposePorts; reflexivity. }
  assert (Hp2 : projects w2 = projects w1).
  { refine (keeps_run projects _ _ _ _ _ E2).
    apply keeps_checkDockerPrerequisites. reflexivity. }
  eexists _, w2. split; [|split; [|split]].
  - erewrite try_catch_caught.
    2:{ rewrite (bind_run _ _ _ _ _ (find_project_run _ _ _ _ Hdb Hfind)).
        rewrite (bind_run _ _ _ _ _ (process_cwd_run E dir w Hcwd)).
        lazy zeta. rewrite (bind_run _ _ _ _ _ E1), (bind_run _ _ _ _ _ E2).
        rewrite Hdocker. reflexivity. }
    reflexivity.
  - vm_compute. reflexivity.
  - now rewrite Hp2.
  - exists project. rewrite Hp2, Hp1. auto.
Qed.

Lemma C4_deploy_without_docker_witness :
  exists message w',
    deployProject (J := Sample.engine) Sample.env Sample.no_docker (lit "p1")
      Sample.world =
    (Ok {| success := false; error_message := Some message;
           created_project := None; public_url := None |}, w') /\
    includes (lit "Docker is not installed") message = true /\
    projects w' = projects Sample.world.
Proof.
  destruct (C4_deploy_without_docker (J := Sample.engine) Sample.env
              Sample.no_docker (lit "p1") Sample.world Sample.demo
              (lit "/srv/console")
              (JsError (lit "/bin/sh: 1: docker: not found"))
              eq_refl eq_refl eq_refl eq_refl eq_refl)
    as (message & w' & Hrun & Hmsg & Hprojects & _).
  exists message, w'.
  split; [exact Hrun | split; [exact Hmsg | exact Hprojects]].
Defined.

(* ================================================================= *)
(** ** Deletion *)

Ltac frames :=
  repeat first
    [ apply keeps_reloadCloudflared; reflexivity
    | apply keeps_validateIngress; reflexivity
    | apply keeps_exec; reflexivity
    | frame_step ].

Lemma grows_ret {A} (a : A) : grows (ret a).
Proof. intros w. now exists []. Qed.

Lemma grows_pure {A} (r : res A) : grows (fun w => (r, w)).
Proof. intros w. now exists []. Qed.

Lemma grows_get : grows get.
Proof. intros w. now exists []. Qed.

Lemma grows_modify g : (forall w, trace (g w) = trace w) -> grows (modify g).
Proof. intros H w. exists []. apply H. Qed.

Lemma grows_emit ev : grows (emit ev).
Proof. intros w. now exists [ev]. Qed.

Lemma grows_bind {A B} (m : M A) (k : A -> M B) :
  grows m -> (forall a, grows (k a)) -> grows (bind m k).
Proof.
  intros Hm Hk w. unfold bind. destruct (Hm w) as [e1 H1].
  destruct (m w) as [[a|e] w1]; cbn [snd] in *.
  - destruct (Hk a w1) as [e2 H2]. exists (e2 ++ e1).
    rewrite H2, H1. apply app_assoc.
  - now exists e1.
Qed.

Lemma grows_try_catch {A} (body : M A) handler :
  grows body -> (forall e, grows (handler e)) -> grows (try_catch body handler).
Proof.
  intros Hb Hh w. unfold try_catch. destruct (Hb w) as [e1 H1].
  destruct (body w) as [[a|e] w1]; cbn [snd] in *.
  - now exists e1.
  - destruct (Hh e w1) as [e2 H2]. exists (e2 ++ e1).
    rewrite H2, H1. apply app_assoc.
Qed.

Ltac grow_step :=
  lazymatch goal with
  | |- grows (ret _) => apply grows_ret
  | |- grows (throw _) => apply grows_pure
  | |- grows (throw_error _) => apply grows_pure
  | |- grows get => apply grows_get
  | |- grows (lift _) => apply grows_pure
  | |- grows (fun w => (_, w)) => apply grows_pure
  | |- grows (emit _) => apply grows_emit
  | |- grows (modify _) => apply grows_modify; intros; reflexivity
  | |- grows (bind _ _) => apply grows_bind; [|intros]
  | |- grows (try_catch _ _) => apply grows_try_catch; [|intros]
  | |- grows (match ?x with _ => _ end) => destruct x
  | |- grows (let _ := _ in _) => lazy zeta
  end.

Section Cleanup.

Context {J : Engine}.

Variables (E : Env) (o : Oracle).

(** The cleanup of an exposure touches neither the store nor the files of
    the projects, and only adds to the trace. *)
Lemma keeps_store_cleanup slug name :
  keeps store (cleanupProjectExposure E o slug name).
Proof.
  unfold cleanupProjectExposure, deleteCloudflareCname, removeTunnelIngress,
    getEnvOrThrow, dns_list, dns_delete, dns_request, readYamlFile,
    writeYamlFile, mkdir.
  frames.
Qed.

Lemma keeps_files_cleanup slug name :
  keeps files (cleanupProjectExposure E o slug name).
Proof.
  unfold cleanupProjectExposure, deleteCloudflareCname, removeTunnelIngress,
    getEnvOrThrow, dns_list, dns_delete, dns_request, readYamlFile,
    writeYamlFile, mkdir.
  frames.
Qed.

Lemma grows_cleanup slug name :
  grows (cleanupProjectExposure E o slug name).
Proof.
  unfold cleanupProjectExposure, deleteCloudflareCname, removeTunnelIngress,
    getEnvOrThrow, dns_list, dns_delete, dns_request, readYamlFile,
    writeYamlFile, mkdir, validateIngress, reloadCloudflared,
    isProcessRunningCloudflared, either, tryExec, exec.
  repeat grow_step.
Qed.

Lemma deleteCloudflareCname_effect h token zoneId w :
  configured E (lit "CF_API_TOKEN") token ->
  configured E (lit "CF_ZONE_ID") zoneId ->
  http_outcome o DnsList = HttpOk ->
  http_outcome o DnsDelete = HttpOk ->
  length (dns_records h (zone w)) <= 1 ->
  exists w', deleteCloudflareCname E o h w = (Ok tt, w') /\
             dns_records h (zone w') = [] /\
             tunnelConfig w' = tunnelConfig w.
Proof.
  intros Ht Hz Hl Hd Hcount. unfold deleteCloudflareCname.
  rewrite (bind_run _ _ _ _ _ (getEnvOrThrow_configured _ _ _ w Ht)).
  rewrite (bind_run _ _ _ _ _ (getEnvOrThrow_configured _ _ _ w Hz)).
  unfold dns_list, dns_delete, dns_request, bind, emit, modify, get, ret.
  rewrite Hl. cbn [zone add_event].
  fold (dns_records h (zone w)).
  destruct (dns_records h (zone w)) as [|existing rest] eqn:Erec.
  - eexists. split; [reflexivity|]. cbn [zone tunnelConfig add_event].
    now rewrite Erec.
  - rewrite Hd. eexists. split; [reflexivity|].
    cbn [zone tunnelConfig add_event set_zone]. split; [|reflexivity].
    destruct rest as [|x rest]; [|simpl in Hcount; lia].
    unfold dns_records in *. rewrite filter_filter_comm, Erec. simpl.
    now rewrite N.eqb_refl.
Qed.

Lemma same_hostname_cleaned h items :
  filter (same_hostname h)
         (ensureCatchAll404 (filter (fun r => negb (same_hostname h r)) items))
  = [].
Proof.
  unfold ensureCatchAll404. rewrite filter_app, filter_filter_comm.
  rewrite (filter_none (same_hostname h) (same_hostname h)) by auto.
  reflexivity.
Qed.

(** Once the document could be read and written, no rule for [h] is left
    in its ingress list, whatever validation and reload do. *)
Lemma removeTunnelIngress_effect h tunnelUuid path w :
  getConfigPath E = Ok path ->
  fs_fault o FsRead path = None ->
  fs_fault o FsMkdir (dirname E path) = None ->
  fs_fault o FsWrite path = None ->
  let w' := snd (removeTunnelIngress E o h tunnelUuid w) in
  filter (same_hostname h) (ingress_of (tunnelConfig w')) = [] /\
  zone w' = zone w.
Proof.
  intros Hp Hr Hm Hw. cbv zeta. unfold removeTunnelIngress.
  rewrite (bind_run _ _ _ _ _ (lift_run _ _ w Hp)).
  assert (Hread : readYamlFile o path w =
                  (Ok match tunnelConfig w with
                      | Some document => document
                      | None => DocMapping empty_config
                      end, w)).
  { unfold readYamlFile, bind, get. rewrite Hr. now destruct (tunnelConfig w). }
  rewrite (bind_run _ _ _ _ _ Hread).
  assert (Hkeep : keeps exposure
            (validateIngress o path ;; reloadCloudflared E o path tunnelUuid))
    by frames.
  assert (Hwrite : forall data w0,
            exists w1, writeYamlFile E o path data w0 = (Ok tt, w1)
                       /\ tunnelConfig w1 = Some data /\ zone w1 = zone w0).
  { intros data w0. unfold writeYamlFile, mkdir. rewrite Hm, Hw.
    eexists. split; [reflexivity|]. split; reflexivity. }
  destruct (tunnelConfig w) as [[config|items|fault]|] eqn:Ec.
  - destruct (c_ingress config) as [items|] eqn:Ei.
    + match goal with
      | |- context [writeYamlFile E o _ ?data] =>
          destruct (Hwrite data w) as (w1 & Hrun & Hc1 & Hz1)
      end.
      rewrite (bind_run _ _ _ _ _ Hrun).
      pose proof (Hkeep w1) as Hk. unfold exposure in Hk.
      injection Hk as Hz Hc. rewrite Hc, Hz, Hc1, Hz1.
      cbn [ingress_of c_ingress].
      split; [apply same_hostname_cleaned | reflexivity].
    + cbn [snd ret]. rewrite Ec. cbn [ingress_of]. now rewrite Ei.
  - cbn [snd ret]. rewrite Ec. split; reflexivity.
  - cbn [snd ret]. rewrite Ec. split; reflexivity.
  - cbn [c_ingress empty_config snd ret]. now rewrite Ec.
Qed.

Lemma cleanupProjectExposure_effect slug name base uuid token zoneId path w :
  configured E (lit "BASE_DOMAIN") base ->
  configured E (lit "CF_TUNNEL_UUID") uuid ->
  configured E (lit "CF_API_TOKEN") token ->
  configured E (lit "CF_ZONE_ID") zoneId ->
  truthy slug = true ->
  http_outcome o DnsList = HttpOk ->
  http_outcome o DnsDelete = HttpOk ->
  getConfigPath E = Ok path ->
  fs_fault o FsRead path = None ->
  fs_fault o FsMkdir (dirname E path) = None ->
  fs_fault o FsWrite path = None ->
  length (dns_records (sanitizeSlug slug ++ lit "." ++ base) (zone w)) <= 1 ->
  exists w',
    cleanupProjectExposure E o (Some slug) (Some name) w = (Ok tt, w') /\
    dns_records (sanitizeSlug slug ++ lit "." ++ base) (zone w') = [] /\
    filter (same_hostname (sanitizeSlug slug ++ lit "." ++ base))
           (ingress_of (tunnelConfig w')) = [].
Proof.
  intros Hb Hu Ht Hz Hslug Hl Hd Hp Hr Hm Hw Hcount.
  set (h := sanitizeSlug slug ++ lit "." ++ base) in *.
  unfold cleanupProjectExposure.
  rewrite (bind_run _ _ _ _ _ (getEnvOrThrow_configured _ _ _ w Hb)).
  rewrite (bind_run _ _ _ _ _ (getEnvOrThrow_configured _ _ _ w Hu)).
  rewrite Hslug. cbv beta iota zeta. rewrite Hslug. fold h.
  destruct (deleteCloudflareCname_effect h token zoneId w Ht Hz Hl Hd Hcount)
    as (w1 & Hrun1 & Hdns & Hcfg).
  rewrite (bind_run _ _ _ _ _ (try_catch_run _ _ _ _ _ Hrun1)).
  pose proof (removeTunnelIngress_effect h uuid path w1 Hp Hr Hm Hw) as Hing.
  cbv zeta in Hing. unfold try_catch.
  destruct (removeTunnelIngress E o h uuid w1) as [[[]|e] w2]; cbn [snd] in Hing;
    destruct Hing as [Hrules Hzone]; exists w2;
    (split; [reflexivity | split; [now rewrite Hzone | exact Hrules]]).
Qed.

End Cleanup.

Lemma find_existsb {T} (p : T -> bool) l x :
  find p l = Some x -> existsb p l = true.
Proof.
  intros H. apply find_some in H. apply existsb_exists. now exists x.
Qed.

Lemma find_filter_out {T} (p : T -> bool) l :
  find p (filter (fun x => negb (p x)) l) = None.
Proof.
  induction l as [|x l IH]; [reflexivity|]. simpl.
  destruct (p x) eqn:E; simpl; [exact IH | now rewrite E].
Qed.

(** The first three steps of [deleteProject] always let the fourth run:
    the shutdown adds its command to the trace, the cleanup follows on that
    world, and the removal follows on the world the cleanup leaves. *)
Lemma deleteProject_steps {J : Engine} E o projectId w project dir
    (P : res Result * World -> Prop) :
  db_fault o DbProjectFind = None ->
  find (has_id projectId) (projects w) = Some project ->
  cwd E = Ok dir ->
  let projectDir :=
    path_join E [dir; lit "supabase-projects"; p_slug project] in
  (forall w2,
     try_catch
       (cleanupProjectExposure E o (Some (p_slug project))
                               (Some (p_name project)))
       (fun _ => ret tt)
       (add_event
          (EvExec (lit "docker compose down --volumes --remove-orphans")
                  (Some (path_join E [projectDir; lit "docker"]))) w)
     = (Ok tt, w2) ->
     P (try_catch
          (try_catch (envVar_deleteMany o projectId ;;
                      project_delete o projectId)
                     (fun _ =>
                        throw_error
                          (lit "Failed to remove project from database")) ;;
           ret succeeded)
          (fun e => ret (failed e))
          (after_removal E o projectDir w2))) ->
  P (deleteProject E o projectId w).
Proof.
  intros Hdb Hfind Hcwd projectDir HP. unfold deleteProject, try_catch at 1.
  rewrite (bind_run _ _ _ _ _ (find_project_run _ _ _ _ Hdb Hfind)).
  rewrite (bind_run _ _ _ _ _ (process_cwd_run E dir w Hcwd)).
  cbv zeta. fold projectDir.
  match goal with
  | |- context [bind (try_catch (bind (exec o ?c ?d) ?k0)
                                (fun _ => ret tt)) ?k ?w0] =>
      assert (E1 : try_catch (bind (exec o c d) k0) (fun _ => ret tt) w0
                   = (Ok tt, add_event (EvExec c d) w0))
        by (unfold try_catch, bind, exec, emit, modify;
            now destruct (exec_result o c d));
      rewrite (bind_run _ _ _ _ _ E1); clear E1
  end.
  match goal with
  | |- context [bind (try_catch ?b (fun _ => ret tt)) ?k ?w0] =>
      destruct (total_try_catch b (fun _ => ret tt) (fun _ => total_ret tt) w0)
        as ([] & w2 & E2);
      rewrite (bind_run _ _ _ _ _ E2)
  end.
  match goal with
  | |- context [bind (try_catch ?b (fun _ => ret tt)) ?k w2] =>
      assert (E3 : try_catch b (fun _ => ret tt) w2
                   = (Ok tt, after_removal E o projectDir w2))
        by (unfold after_removal, try_catch, bind, exec, emit, modify;
            now destruct (exec_result o _ None));
      rewrite (bind_run _ _ _ _ _ E3); clear E3
  end.
  exact (HP w2 E2).
Qed.

Lemma after_removal_trace E o projectDir w :
  trace (after_removal E o projectDir w) =
  EvExec (if win32 E then lit "rmdir /s /q " ++ quoted projectDir
          else lit "rm -rf " ++ quoted projectDir) None :: trace w.
Proof. unfold after_removal. now destruct (exec_result o _ None). Qed.

Lemma after_removal_keeps {X} (f : World -> X) E o projectDir w :
  (forall ev w, f (add_event ev w) = f w) ->
  (forall ds w, f (set_dirs ds w) = f w) ->
  (forall fs w, f (set_files fs w) = f w) ->
  f (after_removal E o projectDir w) = f w.
Proof.
  intros He Hd Hf. unfold after_removal, remove_tree.
  destruct (exec_result o _ None); now rewrite ?Hd, ?Hf, He.
Qed.

(** C6.  [deleteProject] on a project of the store, [process.cwd()]
    returning.  Whatever the container shutdown, the exposure cleanup and
    the removal of the directory do (each may fail), every step runs, in the
    order of the source: the trace shows the shutdown command, what the
    cleanup did, and the removal command.  When the removal command
    succeeds the directory of the project and the files below it are gone,
    when it fails the files are what they were.  The DNS record and the
    ingress rule of the project are gone when the cleanup's own calls
    succeed.  When the store accepts the deletions the operation succeeds
    and the rows of the project, and only they, are gone; when the store
    refuses one the operation reports
    [Failed to remove project from database] and the Project rows are what
    they were. *)
Theorem C6_delete_is_best_effort {J : Engine} E o projectId w project dir :
  db_fault o DbProjectFind = None ->
  find (has_id projectId) (projects w) = Some project ->
  cwd E = Ok dir ->
  let projectDir :=
    path_join E [dir; lit "supabase-projects"; p_slug project] in
  let down :=
    EvExec (lit "docker compose down --volumes --remove-orphans")
           (Some (path_join E [projectDir; lit "docker"])) in
  let removeCommand :=
    if win32 E then lit "rmdir /s /q " ++ quoted projectDir
    else lit "rm -rf " ++ quoted projectDir in
  let h base := sanitizeSlug (p_slug project) ++ lit "." ++ base in
  exists r w',
    deleteProject E o projectId w = (Ok r, w') /\
    (exists cleanup,
       trace w' = EvExec removeCommand None :: cleanup ++ down :: trace w) /\
    (forall out,
       exec_result o removeCommand None = Ok out ->
       ~ In projectDir (dirs w') /\
       forall path content,
         In (path, content) (files w') ->
         starts_with (projectDir ++ sep E) path = false) /\
    (forall e,
       exec_result o removeCommand None = Throw e -> files w' = files w) /\
    (forall base uuid token zoneId path,
       configured E (lit "BASE_DOMAIN") base ->
       configured E (lit "CF_TUNNEL_UUID") uuid ->
       configured E (lit "CF_API_TOKEN") token ->
       configured E (lit "CF_ZONE_ID") zoneId ->
       truthy (p_slug project) = true ->
       http_outcome o DnsList = HttpOk ->
       http_outcome o DnsDelete = HttpOk ->
       getConfigPath E = Ok path ->
       fs_fault o FsRead path = None ->
       fs_fault o FsMkdir (dirname E path) = None ->
       fs_fault o FsWrite path = None ->
       length (dns_records (h base) (zone w)) <= 1 ->
       dns_records (h base) (zone w') = [] /\
       filter (same_hostname (h base)) (ingress_of (tunnelConfig w')) = []) /\
    (db_fault o DbEnvDeleteMany = None -> db_fault o DbProjectDelete = None ->
     r = succeeded /\
     projects w' = filter (fun p => negb (has_id projectId p)) (projects w) /\
     envVars w' =
     filter (fun v => negb (str_eqb (v_projectId v) projectId)) (envVars w) /\
     find (has_id projectId) (projects w') = None) /\
    (db_fault o DbEnvDeleteMany <> None \/ db_fault o DbProjectDelete <> None ->
     r = failed (JsError (lit "Failed to remove project from database")) /\
     projects w' = projects w).
Proof.
  intros Hdb Hfind Hcwd projectDir down removeCommand h.
  pattern (deleteProject E o projectId w).
  apply (deleteProject_steps E o projectId w project dir _ Hdb Hfind Hcwd).
  fold projectDir. fold down. intros w2 E2.
  set (w1 := add_event down w) in E2.
  set (w3 := after_removal E o projectDir w2).
  assert (Hstore2 : store w2 = store w).
  { refine (keeps_run store _ _ _ _ _ E2).
    apply keeps_try_catch; [apply keeps_store_cleanup | intros; frame_step]. }
  assert (Hfiles2 : files w2 = files w).
  { refine (keeps_run files _ _ _ _ _ E2).
    apply keeps_try_catch; [apply keeps_files_cleanup | intros; frame_step]. }
  assert (Htrace2 : exists cleanup, trace w2 = cleanup ++ down :: trace w).
  { assert (Hg : grows (try_catch
                          (cleanupProjectExposure E o (Some (p_slug project))
                                                  (Some (p_name project)))
                          (fun _ => ret tt)))
      by (apply grows_try_catch; [apply grows_cleanup | intros; grow_step]).
    destruct (Hg w1) as [cleanup Hc]. rewrite E2 in Hc. now exists cleanup. }
  assert (Hstore3 : store w3 = store w).
  { unfold w3. now rewrite after_removal_keeps. }
  assert (Htrace3 : exists cleanup,
            trace w3 = EvExec removeCommand None :: cleanup ++ down :: trace w).
  { destruct Htrace2 as [cleanup Hc]. exists cleanup.
    unfold w3. now rewrite after_removal_trace, Hc. }
  assert (Hremoved : forall out,
            exec_result o removeCommand None = Ok out ->
            ~ In projectDir (dirs w3) /\
            forall path content,
              In (path, content) (files w3) ->
              starts_with (projectDir ++ sep E) path = false).
  { intros out Hout. unfold w3, after_removal. fold removeCommand.
    rewrite Hout. unfold remove_tree. cbn [dirs files set_dirs set_files].
    split.
    - intros Hin. apply filter_In in Hin. destruct Hin as [_ Hin].
      now rewrite str_eqb_refl in Hin.
    - intros path content Hin. apply filter_In in Hin.
      destruct Hin as [_ Hin]. cbn [fst] in Hin.
      now apply negb_true_iff in Hin. }
  assert (Hkept : forall e,
            exec_result o removeCommand None = Throw e -> files w3 = files w).
  { intros e He. unfold w3, after_removal. fold removeCommand.
    rewrite He. exact Hfiles2. }
  assert (Hexposure : forall base uuid token zoneId path,
            configured E (lit "BASE_DOMAIN") base ->
            configured E (lit "CF_TUNNEL_UUID") uuid ->
            configured E (lit "CF_API_TOKEN") token ->
            configured E (lit "CF_ZONE_ID") zoneId ->
            truthy (p_slug project) = true ->
            http_outcome o DnsList = HttpOk ->
            http_outcome o DnsDelete = HttpOk ->
            getConfigPath E = Ok path ->
            fs_fault o FsRead path = None ->
            fs_fault o FsMkdir (dirname E path) = None ->
            fs_fault o FsWrite path = None ->
            length (dns_records (h base) (zone w)) <= 1 ->
            dns_records (h base) (zone w3) = [] /\
            filter (same_hostname (h base)) (ingress_of (tunnelConfig w3))
            = []).
  { intros base uuid token zoneId path Hb Hu Ht Hz Hslug Hl Hdel Hp Hr Hm Hw
           Hcount.
    change (zone w) with (zone w1) in Hcount.
    destruct (cleanupProjectExposure_effect E o (p_slug project)
                (p_name project) base uuid token zoneId path w1
                Hb Hu Ht Hz Hslug Hl Hdel Hp Hr Hm Hw Hcount)
      as (w2' & Hrun & Hdns & Hrules).
    rewrite (try_catch_run _ _ _ _ _ Hrun) in E2. injection E2 as <-.
    unfold w3.
    rewrite (after_removal_keeps zone), (after_removal_keeps tunnelConfig)
      by reflexivity.
    split; [exact Hdns | exact Hrules]. }
  clearbody w3. clear E2 Hfiles2 Htrace2. unfold store in *.
  injection Hstore3 as Hp3 Hv3.
  unfold envVar_deleteMany, project_delete, db.
  destruct (db_fault o DbEnvDeleteMany) as [e1|] eqn:Hd1.
  - eexists _, w3. split; [reflexivity|].
    split; [exact Htrace3|]. split; [exact Hremoved|].
    split; [exact Hkept|]. split; [exact Hexposure|].
    split; [discriminate|]. intros _. split; [reflexivity | exact Hp3].
  - destruct (db_fault o DbProjectDelete) as [e2|] eqn:Hd2.
    + eexists _, _. split; [reflexivity|].
      change (trace (set_envVars ?vs w3)) with (trace w3).
      change (dirs (set_envVars ?vs w3)) with (dirs w3).
      change (files (set_envVars ?vs w3)) with (files w3).
      change (zone (set_envVars ?vs w3)) with (zone w3).
      change (tunnelConfig (set_envVars ?vs w3)) with (tunnelConfig w3).
      change (projects (set_envVars ?vs w3)) with (projects w3).
      split; [exact Htrace3|]. split; [exact Hremoved|].
      split; [exact Hkept|]. split; [exact Hexposure|].
      split; [discriminate|]. intros _. split; [reflexivity | exact Hp3].
    + unfold try_catch, bind, modify, get.
      change (projects (set_envVars ?vs w3)) with (projects w3).
      rewrite Hp3, (find_existsb _ _ _ Hfind).
      eexists _, _. split; [reflexivity|].
      change (trace (set_projects ?ps (set_envVars ?vs w3))) with (trace w3).
      change (dirs (set_projects ?ps (set_envVars ?vs w3))) with (dirs w3).
      change (files (set_projects ?ps (set_envVars ?vs w3))) with (files w3).
      change (zone (set_projects ?ps (set_envVars ?vs w3))) with (zone w3).
      change (tunnelConfig (set_projects ?ps (set_envVars ?vs w3)))
        with (tunnelConfig w3).
      change (projects (set_projects ?ps ?w0)) with ps.
      change (envVars (set_projects ?ps (set_envVars ?vs ?w0))) with vs.
      split; [exact Htrace3|]. split; [exact Hremoved|].
      split; [exact Hkept|]. split; [exact Hexposure|].
      split.
      * intros _ _. split; [reflexivity|]. split; [reflexivity|].
        split; [now rewrite Hv3 | apply find_filter_out].
      * intros [H|H]; now contradiction H.
Qed.

Lemma C6_delete_is_best_effort_witness :
  (exists w',
     deleteProject (J := Sample.engine) Sample.env Sample.no_docker (lit "p1")
       Sample.exposed = (Ok succeeded, w') /\
     projects w' = [] /\
     ~ In (lit "/srv/console/supabase-projects/demo-1700000000123") (dirs w') /\
     dns_records Sample.hostname (zone w') = [] /\
     filter (same_hostname (J := Sample.engine) Sample.hostname)
            (ingress_of (tunnelConfig w')) = [])
  /\
  (exists w',
     deleteProject (J := Sample.engine) Sample.env Sample.broken_store
       (lit "p1") Sample.exposed
     = (Ok (failed (JsError (lit "Failed to remove project from database"))), w')
     /\ projects w' = projects Sample.exposed).
Proof.
  split.
  - destruct (C6_delete_is_best_effort (J := Sample.engine) Sample.env
                Sample.no_docker (lit "p1") Sample.exposed Sample.demo
                (lit "/srv/console") eq_refl eq_refl eq_refl)
      as (r & w' & Hrun & _ & Hremoved & _ & Hexposure & Hdone & _).
    destruct (Hdone eq_refl eq_refl) as (Hr & Hrows & _ & _).
    destruct (Hremoved [] eq_refl) as [Hdir _].
    destruct (Hexposure (lit "example.com") (lit "0a1b2c3d")
                (lit "secret-token") (lit "zone-1")
                (lit "/home/console/.cloudflared/config.yml")
                (conj eq_refl eq_refl) (conj eq_refl eq_refl)
                (conj eq_refl eq_refl) (conj eq_refl eq_refl)
                eq_refl eq_refl eq_refl eq_refl eq_refl eq_refl eq_refl
                (le_n 1))
      as [Hdns Hrules].
    exists w'. rewrite Hr in Hrun.
    split; [exact Hrun|]. split; [exact Hrows|]. split; [exact Hdir|].
    split; [exact Hdns | exact Hrules].
  - destruct (C6_delete_is_best_effort (J := Sample.engine) Sample.env
                Sample.broken_store (lit "p1") Sample.exposed Sample.demo
                (lit "/srv/console") eq_refl eq_refl eq_refl)
      as (r & w' & Hrun & _ & _ & _ & _ & _ & Hfatal).
    destruct (Hfatal (or_intror (fun H => eq_ind (Some (JsError (lit "database is locked"))) (fun x => match x with Some _ => True | None => False end) I None H)))
      as [Hr Hrows].
    exists w'. rewrite Hr in Hrun. split; [exact Hrun | exact Hrows].
Defined.

(* ================================================================= *)
(** ** Slugs and ports of two projects *)

Lemma before_dash_unique (x x' y y' : str) :
  ~ In (code "-") x -> ~ In (code "-") x' ->
  x ++ code "-" :: y = x' ++ code "-" :: y' -> x = x'.
Proof.
  revert x'. induction x as [|c x IH]; intros [|c' x'] Hx Hx'; simpl.
  - reflexivity.
  - intros [= <- _]. exfalso. apply Hx'. now left.
  - intros [= -> _]. exfalso. apply Hx. now left.
  - intros [= -> H]. f_equal. apply (IH x'); auto.
    + intros Hin. apply Hx. now right.
    + intros Hin. apply Hx'. now right.
Qed.

Lemma dec_no_dash n : ~ In (code "-") (dec n).
Proof.
  intros H. pose proof (dec_digits n) as Hd. rewrite Forall_forall in Hd.
  specialize (Hd _ H). discriminate Hd.
Qed.

Lemma lit_injective a b : lit a = lit b -> a = b.
Proof.
  unfold lit. intros H.
  assert (Hid : forall l, map ascii_of_N (map code l) = l).
  { induction l as [|c l IH]; [reflexivity|]. cbn [map].
    unfold code at 1. now rewrite ascii_N_embedding, IH. }
  apply (f_equal (map ascii_of_N)) in H. rewrite !Hid in H.
  apply (f_equal string_of_list_ascii) in H.
  now rewrite !string_of_list_ascii_of_string in H.
Qed.

Lemma dec_injective n m : dec n = dec m -> n = m.
Proof.
  unfold dec. intros H. apply lit_injective in H.
  assert (Hnn : forall k, N.to_uint k <> Decimal.Nil).
  { intros [|q]; [discriminate | apply DecimalPos.Unsigned.to_uint_nonnil]. }
  apply (f_equal NilZero.uint_of_string) in H.
  rewrite !NilZero.usu in H by apply Hnn.
  injection H as H. now apply DecimalN.Unsigned.to_uint_inj.
Qed.

Lemma createProject_slug_timestamp {J : Engine} name1 name2 t1 t2 :
  createProject_slug name1 t1 = createProject_slug name2 t2 -> t1 = t2.
Proof.
  unfold createProject_slug. intros H.
  apply (f_equal (@rev codeunit)) in H.
  rewrite !rev_app_distr, <- !app_assoc in H. simpl in H.
  apply before_dash_unique in H.
  - apply (f_equal (@rev codeunit)) in H. rewrite !rev_involutive in H.
    now apply dec_injective.
  - rewrite <- in_rev. apply dec_no_dash.
  - rewrite <- in_rev. apply dec_no_dash.
Qed.

(** At a colliding distance some port belongs to both projects. *)
Lemma ports_meet b1 b2 :
  In (distance b1 b2) colliding_distances ->
  exists p, In p (ports_from b1) /\ In p (ports_from b2).
Proof.
  unfold distance, colliding_distances, ports_from.
  destruct (b1 <? b2)%N eqn:Elt;
    [apply N.ltb_lt in Elt | apply N.ltb_ge in Elt];
    simpl; intros H;
    repeat (destruct H as [H|H];
            [ first [ exists b1; split; lia
                    | exists (b1 + 100)%N; split; lia
                    | exists (b1 + 443)%N; split; lia
                    | exists (b1 + 1000)%N; split; lia
                    | exists (b1 + 2000)%N; split; lia
                    | exists (b1 + 3000)%N; split; lia ] |]);
    contradiction.
Qed.

(** The ports written to the environment set are the derived ports. *)
Lemma defaultEnvVars_ports o timestamp w vars w' :
  defaultEnvVars o timestamp w = (Ok vars, w') ->
  map (fun key => lookup key vars) port_keys =
  map (fun p => Some (dec p)) (createProject_ports timestamp).
Proof.
  unfold defaultEnvVars. intros H.
  repeat (apply bind_Ok in H; destruct H as (? & ? & _ & H)).
  injection H as <- _. reflexivity.
Qed.

(** X2.  How far the slugs and the ports of two projects differ.  Two
    [createProject] calls at different creation times get different slugs.
    Their base ports [8000 + timestamp mod 10000] differ exactly when the
    times differ modulo 10000.  The six ports of one project are distinct,
    and the ports of the two projects are mutually distinct exactly when the
    distance between the base ports is not the difference of two of the
    offsets 0, 100, 443, 1000, 2000, 3000. *)
Theorem slugs_and_ports {J : Engine} name1 name2 t1 t2 :
  t1 <> t2 ->
  createProject_slug name1 t1 <> createProject_slug name2 t2 /\
  (createProject_basePort t1 <> createProject_basePort t2 <->
   (t1 mod 10000 <> t2 mod 10000)%N) /\
  NoDup (createProject_ports t1) /\
  ((forall p, In p (createProject_ports t1) -> ~ In p (createProject_ports t2))
   <-> ~ In (distance (createProject_basePort t1) (createProject_basePort t2))
            colliding_distances).
Proof.
  intros Ht. split; [|split; [|split]].
  - intros H. apply Ht. eapply createProject_slug_timestamp, H.
  - unfold createProject_basePort. split; intros H; lia.
  - unfold createProject_ports, ports_from.
    set (b := createProject_basePort t1).
    repeat (constructor; [simpl; lia|]). constructor.
  - unfold createProject_ports.
    set (b1 := createProject_basePort t1).
    set (b2 := createProject_basePort t2). split.
    + intros H Hin.
      destruct (ports_meet b1 b2 Hin) as (p & Hp1 & Hp2).
      exact (H p Hp1 Hp2).
    + intros H p H1 H2. apply H.
      unfold ports_from, colliding_distances, distance in *.
      simpl in H1, H2 |- *.
      destruct (b1 <? b2)%N eqn:Elt;
        [apply N.ltb_lt in Elt | apply N.ltb_ge in Elt]; lia.
Qed.

Lemma slugs_and_ports_witness :
  createProject_slug (J := Sample.engine) (lit "Alpha") 1700000000123
  <> createProject_slug (J := Sample.engine) (lit "Alpha") 1700000000124 /\
  NoDup (createProject_ports 1700000000123).
Proof.
  destruct (slugs_and_ports (J := Sample.engine) (lit "Alpha") (lit "Alpha")
              1700000000123 1700000000124 ltac:(discriminate))
    as (Hslug & _ & Hports & _).
  split; [exact Hslug | exact Hports].
Defined.

(** C3.  Two projects with different names are created ten seconds apart,
    every external call succeeding.  Both calls succeed and the slugs
    differ, but the six port rows of the second project hold the ports of
    the first: the base port keeps only the last four digits of the
    creation time.  Created one second apart, the analytics port of the
    first project is the Kong HTTP port of the second. *)
Theorem C3_ports_of_two_projects_collide :
  let create timestamp id name :=
    createProject (J := Sample.engine) Sample.env (Sample.at_time timestamp id)
      name (lit "u1") None in
  let run1 := create 1700000000123%N (lit "p1") (lit "Alpha") Sample.installed in
  let run2 := create 1700000010123%N (lit "p2") (lit "Beta") (snd run1) in
  let ports id :=
    map (varMap (filter (fun v => str_eqb (v_projectId v) id)
                        (envVars (snd run2)))) port_keys in
  (exists p1 p2,
     fst run1 = Ok {| success := true; error_message := None;
                      created_project := Some p1; public_url := None |} /\
     fst run2 = Ok {| success := true; error_message := None;
                      created_project := Some p2; public_url := None |} /\
     p_slug p1 = lit "alpha-1700000000123" /\
     p_slug p2 = lit "beta-1700000010123") /\
  ports (lit "p1") = ports (lit "p2") /\
  ports (lit "p1") =
  map (fun p => Some (dec p)) [8123; 8223; 8566; 9123; 10123; 11123]%N /\
  createProject_ports 1700000000123 = createProject_ports 1700000010123 /\
  In (createProject_basePort 1700000001123) (createProject_ports 1700000000123).
Proof.
  vm_compute. split; [|repeat split; tauto].
  do 2 eexists. repeat split.
Qed.

(* ================================================================= *)
(** ** The patcher on the file *)

Lemma readFile_Ok o path w content w' :
  readFile o path w = (Ok content, w') ->
  w' = w /\ lookup path (files w) = Some content.
Proof.
  unfold readFile. destruct (fs_fault o FsRead path); [discriminate|].
  unfold bind, get. destruct (lookup path (files w)); [|discriminate].
  now intros [= -> ->].
Qed.

Lemma readFile_run o path w content :
  fs_fault o FsRead path = None -> lookup path (files w) = Some content ->
  readFile o path w = (Ok content, w).
Proof. intros Hf Hl. unfold readFile, bind, get. now rewrite Hf, Hl. Qed.

Lemma lookup_head path content rest :
  lookup path ((path, content) :: rest) = Some content.
Proof. simpl. now rewrite str_eqb_refl. Qed.

(** C2.  Port-variable injection is idempotent on the text of a compose
    document, and [patchComposePorts] writes the file only when its text
    changed: a run that succeeds leaves the patched text in the file, changes
    nothing when the text already was patched, and after it any further run
    that can read the file succeeds without touching the world. *)
Theorem C2_port_patch_idempotent :
  (forall text, patchPortsText (patchPortsText text) = patchPortsText text) /\
  (forall o composeFile w w1,
     patchComposePorts o composeFile w = (Ok tt, w1) ->
     exists content,
       lookup composeFile (files w) = Some content /\
       lookup composeFile (files w1) = Some (patchPortsText content) /\
       (patchPortsText content = content -> w1 = w) /\
       (patchPortsText content <> content ->
        trace w1 = EvWriteFile composeFile :: trace w) /\
       (forall o2, fs_fault o2 FsRead composeFile = None ->
                   patchComposePorts o2 composeFile w1 = (Ok tt, w1))).
Proof.
  split; [exact patchPortsText_idempotent|].
  intros o composeFile w w1 H. unfold patchComposePorts in H.
  apply bind_Ok in H. destruct H as (content & w0 & Hread & H).
  apply readFile_Ok in Hread. destruct Hread as [-> Hlook].
  exists content. split; [exact Hlook|]. cbv zeta in H.
  assert (Hagain : forall o2 w2,
            fs_fault o2 FsRead composeFile = None ->
            lookup composeFile (files w2) = Some (patchPortsText content) ->
            patchComposePorts o2 composeFile w2 = (Ok tt, w2)).
  { intros o2 w2 Hf Hl. unfold patchComposePorts.
    rewrite (bind_run _ _ _ _ _ (readFile_run _ _ _ _ Hf Hl)). cbv zeta.
    now rewrite patchPortsText_idempotent, str_eqb_refl. }
  destruct (str_eqb (patchPortsText content) content) eqn:Eq; cbn [negb] in H.
  - injection H as <-. apply str_eqb_eq in Eq.
    split; [now rewrite Eq|]. split; [reflexivity|].
    split; [intros Hne; contradiction|].
    intros o2 Hf. apply Hagain; [exact Hf | now rewrite Eq].
  - unfold writeFile in H. destruct (fs_fault o FsWrite composeFile);
      [discriminate|]. injection H as <-.
    assert (Hne : patchPortsText content <> content).
    { intros Heq. rewrite Heq, str_eqb_refl in Eq. discriminate. }
    split; [apply lookup_head|]. split; [intros Heq; contradiction|].
    split; [reflexivity|].
    intros o2 Hf. apply Hagain; [exact Hf | apply lookup_head].
Qed.

Lemma C2_port_patch_idempotent_witness :
  let w1 := snd (patchComposePorts Sample.healthy Sample.compose_path
                   Sample.world) in
  trace w1 = [EvWriteFile Sample.compose_path] /\
  patchComposePorts Sample.healthy Sample.compose_path w1 = (Ok tt, w1).
Proof.
  intros w1.
  assert (H : patchComposePorts Sample.healthy Sample.compose_path Sample.world
              = (Ok tt, w1)) by (vm_compute; reflexivity).
  destruct C2_port_patch_idempotent as [_ Hfile].
  destruct (Hfile _ _ _ _ H) as (content & Hlook & _ & _ & Hwrite & Hagain).
  injection Hlook as <-.
  split.
  - apply Hwrite. vm_compute. discriminate.
  - apply Hagain. reflexivity.
Defined.

(* ================================================================= *)
(** ** Identity rewrite, twice *)

(** C8, as the code has it.  For a slug [createProject] makes that does
    not start like one of the generic container names (nor with
    [supabase-realtime]), and a compose text with at most one line
    [name: supabase], the identity rewrite applied twice gives what it gives
    applied once. *)
Theorem C8_identity_rewrite_idempotent {J : Engine} name timestamp text :
  generic_prefixed (createProject_slug name timestamp) = false ->
  count_lines (lit "name: supabase") true text <= 1 ->
  identityRewrite (createProject_slug name timestamp)
    (identityRewrite (createProject_slug name timestamp) text)
  = identityRewrite (createProject_slug name timestamp) text.
Proof.
  intros Hclean Hcount.
  exact (identityRewrite_fixpoint name timestamp Hclean text Hcount).
Qed.

Lemma C8_identity_rewrite_idempotent_witness :
  let slug :=
    createProject_slug (J := Sample.engine) (lit "Demo") 1700000000123 in
  let text := lit "name: supabase
services:
  db:
    container_name: supabase-db" in
  identityRewrite slug (identityRewrite slug text) = identityRewrite slug text.
Proof.
  intros slug text.
  apply (C8_identity_rewrite_idempotent (J := Sample.engine) (lit "Demo")
           1700000000123 text).
  - reflexivity.
  - apply le_n.
Defined.

(** A project named [Supabase DB] gets a slug that starts with the generic
    name [supabase-db]: every further rewrite renames its containers again.
    And of two lines [name: supabase] each rewrite replaces one. *)
Lemma C8_identity_rewrite_idempotent_counterexample :
  (let slug :=
     createProject_slug (J := Sample.engine) (lit "Supabase DB")
       1700000000123 in
   let text := lit "    container_name: supabase-db" in
   identityRewrite slug text
     = lit "    container_name: supabase-db-1700000000123-db" /\
   identityRewrite slug (identityRewrite slug text)
     = lit "    container_name: supabase-db-1700000000123-db-1700000000123-db")
  /\
  (let slug :=
     createProject_slug (J := Sample.engine) (lit "Demo") 1700000000123 in
   let text := lit "name: supabase
name: supabase" in
   identityRewrite slug text = lit "name: demo-1700000000123
name: supabase" /\
   identityRewrite slug (identityRewrite slug text)
     = lit "name: demo-1700000000123
name: demo-1700000000123").
Proof. vm_compute. repeat split. Qed.

Example patch_sample :
  patchPortsText (lit "ports:
  - 8000:8000
  -   '5432:5432'
  - 9999:8000") =
  lit "ports:
  - ${KONG_HTTP_PORT:-8000}:8000
  - ${POSTGRES_PORT:-5432}:5432
  - 9999:8000".
Proof. vm_compute. reflexivity. Qed.

Example rewrite_sample :
  identityRewrite (createProject_slug (J := Sample.engine) (lit "Demo") 1700000000123)
    (lit "name: supabase
services:
  db:
    container_name: supabase-db
  realtime:
    container_name: realtime-dev.supabase-realtime") =
  lit "name: demo-1700000000123
services:
  db:
    container_name: demo-1700000000123-db
  realtime:
    container_name: realtime-dev.demo-1700000000123-realtime".
Proof. vm_compute. reflexivity. Qed.

Example rewrite_twice_slug :
  let slug := createProject_slug (J := Sample.engine) (lit "Supabase DB") 1700000000123 in
  let text := lit "    container_name: supabase-studio" in
  identityRewrite slug (identityRewrite slug text) <> identityRewrite slug text.
Proof. vm_compute. discriminate. Qed.

Example rewrite_twice_names :
  let slug := createProject_slug (J := Sample.engine) (lit "Demo") 1700000000123 in
  let text := lit "name: supabase
name: supabase" in
  identityRewrite slug (identityRewrite slug text) <> identityRewrite slug text.
Proof. vm_compute. discriminate. Qed.

Example base64url_header :
  base64url (json_object [(lit "alg", JString (lit "HS256"));
                          (lit "typ", JString (lit "JWT"))]) =
  lit "eyJhbGciOiJIUzI1NiIsInR5cCI6IkpXVCJ9".
Proof. vm_compute. reflexivity. Qed.

Example parseInt_samples :
  parseInt (lit "8123") = Int 8123 /\ parseInt (lit " -42px") = Int (-42)
  /\ parseInt (lit "abc") = NaN /\ parseInt [] = NaN.
Proof. vm_compute. repeat split. Qed.

(* ================================================================= *)
(** ** Random strings, tokens and small functions *)

Lemma exec_run o command dir w :
  exec o command dir w = (exec_result o command dir, add_event (EvExec command dir) w).
Proof. reflexivity. Qed.

Lemma tryExec_run o cmd w :
  tryExec o cmd w = (Ok (succeeds o cmd), add_event (EvExec cmd None) w).
Proof.
  unfold tryExec, try_catch, bind, succeeds. rewrite exec_run.
  destruct (exec_result o cmd None); reflexivity.
Qed.

Lemma probe_run o cmd w :
  probe o cmd w = (Ok (succeeds o cmd), add_event (EvExec cmd None) w).
Proof. exact (tryExec_run o cmd w). Qed.

Lemma set_rng_rng w : set_rng (rng w) w = w.
Proof. destruct w; reflexivity. Qed.

Lemma generateRandomString_run o n w :
  generateRandomString o n w =
  (Ok (map (fun k => nth (N.to_nat (random o k mod 62)) alphabet (code "A"))
           (seq (rng w) n)),
   set_rng (rng w + n) w).
Proof.
  revert w. induction n as [|n IH]; intros w.
  - simpl. now rewrite Nat.add_0_r, set_rng_rng.
  - cbn [generateRandomString]. unfold bind at 1, get. unfold bind at 1, modify.
    cbv zeta. unfold bind. rewrite IH. unfold ret.
    change (rng (set_rng ?a ?w0)) with a.
    rewrite Nat.add_succ_r. reflexivity.
Qed.

Lemma alphabet_nth k : In (nth (N.to_nat (k mod 62)) alphabet (code "A")) alphabet.
Proof.
  apply nth_In. change (List.length alphabet) with 62.
  pose proof (N.mod_lt k 62). lia.
Qed.

Lemma random_letters o a n :
  Forall (fun c => In c alphabet)
         (map (fun k => nth (N.to_nat (random o k mod 62)) alphabet (code "A"))
              (seq a n)).
Proof.
  apply Forall_forall. intros c Hc. apply in_map_iff in Hc.
  destruct Hc as (k & <- & _). apply alphabet_nth.
Qed.

(** X4.  [generateRandomString] never fails: it returns a string of
    exactly the length asked for, made of letters and digits of its
    alphabet, and draws one random number for each character. *)
Theorem generateRandomString_draws o length w :
  exists s,
    generateRandomString o length w = (Ok s, set_rng (rng w + length) w) /\
    List.length s = length /\
    Forall (fun c => In c alphabet) s.
Proof.
  eexists. split; [apply generateRandomString_run|]. split.
  - now rewrite length_map, length_seq.
  - apply random_letters.
Qed.

Lemma base64_char_safe n : In (base64_char n) (alphabet ++ lit "-_").
Proof.
  apply nth_In. change (List.length (alphabet ++ lit "-_")) with 64.
  pose proof (N.mod_lt n 64). lia.
Qed.

Lemma base64url_chars bytes :
  Forall (fun c => In c (alphabet ++ lit "-_")) (base64url bytes).
Proof.
  assert (H : forall n b, List.length b <= n ->
                Forall (fun c => In c (alphabet ++ lit "-_")) (base64url b)).
  { induction n as [|n IH]; intros b Hb.
    - destruct b; [constructor | simpl in Hb; lia].
    - destruct b as [|x [|y [|z rest]]]; cbn [base64url].
      + constructor.
      + repeat (constructor; [apply base64_char_safe|]). constructor.
      + repeat (constructor; [apply base64_char_safe|]). constructor.
      + repeat (constructor; [apply base64_char_safe|]).
        apply IH. simpl in Hb. lia. }
  exact (H _ bytes (le_n _)).
Qed.

Lemma no_dot_url_safe c : In c (alphabet ++ lit "-_") -> c <> code ".".
Proof.
  intros H ->. revert H. vm_compute. intros H.
  repeat (destruct H as [H|H]; [discriminate H|]). exact H.
Qed.

(** X5.  A token of [generateJWT] has three parts separated by two dots:
    the fixed header, the payload (the base64url text of the role, the
    issuer, the creation time in seconds and the expiry one year later),
    which holds no dot, and 43 letters and digits in the place of a
    signature. *)
Theorem generateJWT_shape o role timestamp w :
  exists payload signature,
    generateJWT o role timestamp w =
    (Ok (lit "eyJhbGciOiJIUzI1NiIsInR5cCI6IkpXVCJ9" ++ lit "." ++ payload
           ++ lit "." ++ signature),
     set_rng (rng w + 43) w) /\
    payload =
      base64url (json_object [(lit "role", JString (role_text role));
                              (lit "iss", JString (lit "supabase"));
                              (lit "iat", JNumber (timestamp / 1000));
                              (lit "exp", JNumber (timestamp / 1000 + 31536000))]) /\
    ~ In (code ".") payload /\
    List.length signature = 43 /\
    Forall (fun c => In c alphabet) signature.
Proof.
  unfold generateJWT.
  set (sig := map (fun k => nth (N.to_nat (random o k mod 62)) alphabet (code "A"))
                  (seq (rng w) 43)).
  assert (Hrun : generateRandomString o 43 w = (Ok sig, set_rng (rng w + 43) w))
    by apply generateRandomString_run.
  assert (Hlen : List.length sig = 43)
    by (unfold sig; now rewrite length_map, length_seq).
  assert (Hchars : Forall (fun c => In c alphabet) sig) by apply random_letters.
  eexists. exists sig. split.
  - cbv zeta. rewrite (bind_run _ _ _ _ _ Hrun). reflexivity.
  - split; [reflexivity|]. split; [|split; assumption].
    intros Hin.
    pose proof (base64url_chars
      (json_object [(lit "role", JString (role_text role));
                    (lit "iss", JString (lit "supabase"));
                    (lit "iat", JNumber (timestamp / 1000));
                    (lit "exp", JNumber (timestamp / 1000 + 31536000))])) as Hs.
    rewrite Forall_forall in Hs. exact (no_dot_url_safe _ (Hs _ Hin) eq_refl).
Qed.

Lemma filter_idem {T} (p : T -> bool) l : filter p (filter p l) = filter p l.
Proof.
  induction l as [|x l IH]; [reflexivity|]. simpl.
  destruct (p x) eqn:E; simpl; [rewrite E; now f_equal | exact IH].
Qed.

Lemma filter_not_404 l :
  filter is_404 (filter (fun r => negb (is_404 r)) l) = [].
Proof.
  induction l as [|x l IH]; [reflexivity|]. simpl.
  destruct (is_404 x) eqn:E; simpl; [exact IH | now rewrite E].
Qed.

(** X6.  [ensureCatchAll404] is a normal form: applied twice it gives what
    it gives once, its result holds exactly one [http_status:404] rule, the
    last, and the other rules are those of its argument, in their order. *)
Theorem ensureCatchAll404_normal_form (ingress : list Entry) :
  ensureCatchAll404 (ensureCatchAll404 ingress) = ensureCatchAll404 ingress /\
  filter is_404 (ensureCatchAll404 ingress) = [catch_all] /\
  filter (fun r => negb (is_404 r)) (ensureCatchAll404 ingress)
  = filter (fun r => negb (is_404 r)) ingress /\
  exists rules,
    ensureCatchAll404 ingress = rules ++ [catch_all] /\
    Forall (fun r => is_404 r = false) rules.
Proof.
  unfold ensureCatchAll404. cbv zeta.
  assert (Hkeep : filter (fun r => negb (is_404 r))
                    (filter (fun r => negb (is_404 r)) ingress ++ [catch_all])
                  = filter (fun r => negb (is_404 r)) ingress).
  { rewrite filter_app, filter_idem. simpl. apply app_nil_r. }
  split; [now rewrite Hkeep|]. split; [|split; [exact Hkeep|]].
  - rewrite filter_app, filter_not_404. reflexivity.
  - eexists. split; [reflexivity|].
    apply Forall_forall. intros r Hr. apply filter_In in Hr.
    destruct Hr as [_ Hr]. now apply negb_true_iff in Hr.
Qed.

Lemma slug_char_latin1 c : is_slug_char c = true -> (c < 256)%N.
Proof. intros H. units. Qed.

Lemma slug_char_lower c : is_slug_char c = true -> lower_char c = c.
Proof.
  intros H. unfold lower_char.
  destruct (between 65 90 c || between 192 222 c && negb (c =? 215)%N) eqn:E;
    [exfalso; units | reflexivity].
Qed.

Lemma sanitizeSlug_fixed {J : Engine} s :
  Forall (fun c => is_slug_char c = true) s -> sanitizeSlug s = s.
Proof.
  intros Hs. unfold sanitizeSlug, toLowerCase.
  rewrite lower_from_latin1
    by (eapply Forall_impl; [|exact Hs]; apply slug_char_latin1).
  induction Hs as [|c s Hc _ IH]; [reflexivity|].
  cbn [map]. rewrite IH. rewrite (slug_char_lower c Hc), Hc. reflexivity.
Qed.

Lemma sanitizeSlug_chars {J : Engine} s :
  Forall (fun c => is_slug_char c = true) (sanitizeSlug s).
Proof.
  unfold sanitizeSlug. induction (toLowerCase s) as [|c l IH]; [constructor|].
  cbn [map]. constructor; [|exact IH].
  destruct (is_slug_char c) eqn:E; [exact E | reflexivity].
Qed.

(** X7.  Sanitizing a slug twice gives what sanitizing it once gives; a
    text of lowercase letters, digits and hyphens is left as it is, and an
    input within Latin-1 keeps its length. *)
Theorem sanitizeSlug_idempotent {J : Engine} :
  (forall input, sanitizeSlug (sanitizeSlug input) = sanitizeSlug input) /\
  (forall input,
     Forall (fun c => is_slug_char c = true) input ->
     sanitizeSlug input = input) /\
  (forall input,
     Forall (fun c => (c < 256)%N) input ->
     List.length (sanitizeSlug input) = List.length input).
Proof.
  split; [intros input; apply sanitizeSlug_fixed, sanitizeSlug_chars|].
  split; [intros input; apply sanitizeSlug_fixed|].
  intros input Hin. unfold sanitizeSlug, toLowerCase.
  now rewrite (lower_from_latin1 _ _ Hin), !length_map.
Qed.

(** X8.  The message for a failed [docker compose] run.  A fault that
    mentions [not found] is never reported as a general deployment failure;
    the branch for missing images is never taken, whatever the fault says,
    because the test for [not found] stands before it; and a fault that
    mentions none of the known causes is reported with its own text. *)
Theorem composeFailure_classes errorMessage :
  (includes (lit "not found") errorMessage = true ->
   composeFailure errorMessage <> lit "Docker deployment failed: " ++ errorMessage) /\
  composeFailure errorMessage <>
    lit "Required Docker images not found. Please ensure you have internet connectivity and try again, or manually pull images with "
      ++ quoted (lit "docker compose pull") /\
  (includes (lit "maxBuffer length exceeded") errorMessage = false ->
   includes (lit "no such host") errorMessage = false ->
   includes (lit "dial tcp") errorMessage = false ->
   includes (lit "permission denied") errorMessage = false ->
   includes (lit "not found") errorMessage = false ->
   composeFailure errorMessage = lit "Docker deployment failed: " ++ errorMessage).
Proof.
  unfold composeFailure.
  destruct (includes (lit "maxBuffer length exceeded") errorMessage);
  destruct (includes (lit "no such host") errorMessage);
  destruct (includes (lit "dial tcp") errorMessage);
  destruct (includes (lit "permission denied") errorMessage);
  destruct (includes (lit "not found") errorMessage);
  destruct (includes (lit "image") errorMessage);
  cbn [orb andb];
  (split; [intros H | split; [| intros; try discriminate; try reflexivity]]);
  try discriminate.
Qed.

Lemma digits_value_uint u acc :
  digits_value acc (lit (NilEmpty.string_of_uint u)) =
  (DecimalPos.Unsigned.of_lu (Decimal.rev u) + acc * 10 ^ DecimalPos.Unsigned.usize u)%N.
Proof.
  unfold lit.
  revert acc. induction u; intros acc;
    [ simpl; lia | .. ];
    cbn [NilEmpty.string_of_uint list_ascii_of_string digits_value map];
    change (is_digit _) with true; cbv iota;
    rewrite IHu;
    match goal with
    | |- context [Decimal.rev (?D u)] =>
        change (Decimal.rev (D u)) with (Decimal.revapp u (D Decimal.Nil))
    end;
    rewrite (DecimalPos.Unsigned.of_lu_revapp u); cbn [DecimalPos.Unsigned.usize];
    rewrite N.pow_succ_r'; cbn [DecimalPos.Unsigned.of_lu];
    match goal with
    | |- context [(code ?c - 48)%N] =>
        let v := eval vm_compute in (code c - 48)%N in
        change (code c - 48)%N with v
    end;
    lia.
Qed.

Lemma digits_value_dec n : digits_value 0 (dec n) = n.
Proof.
  unfold dec.
  assert (H : NilZero.string_of_uint (N.to_uint n)
              = NilEmpty.string_of_uint (N.to_uint n)).
  { destruct (N.to_uint n) eqn:E; try reflexivity.
    exfalso. destruct n; [discriminate E|].
    exact (DecimalPos.Unsigned.to_uint_nonnil _ E). }
  rewrite H, digits_value_uint, N.mul_0_l, N.add_0_r.
  rewrite <- DecimalPos.Unsigned.of_uint_alt. apply DecimalN.Unsigned.of_to.
Qed.

Lemma digit_not_space c : is_digit c = true -> is_space c = false.
Proof. intros H. units. Qed.

Lemma digit_not_sign c :
  is_digit c = true ->
  N.eqb c (code "-") = false /\ N.eqb c (code "+") = false.
Proof. intros H. split; units. Qed.

(** [parseInt] reads back what [toString] printed: the decimal text of a
    port gives the port. *)
Lemma parseInt_dec n : parseInt (dec n) = Int (Z.of_N n).
Proof.
  pose proof (digits_value_dec n) as Hv.
  destruct (dec_nonempty n) as (d & ds & Hd & Hdigit).
  unfold parseInt. rewrite Hd in *. cbn [drop_spaces].
  rewrite (digit_not_space d Hdigit).
  destruct (digit_not_sign d Hdigit) as [-> ->]. rewrite Hdigit, Hv.
  reflexivity.
Qed.

(* ================================================================= *)
(** ** DNS records and the ingress document *)

Lemma getEnvOrThrow_unset E key w :
  unset E key ->
  getEnvOrThrow E key w =
  (Throw (JsError (lit "Missing required environment variable: " ++ key)), w).
Proof. unfold getEnvOrThrow. intros [-> | ->]; reflexivity. Qed.

(** X9.  Without [BASE_DOMAIN], or with it but without [CF_TUNNEL_UUID],
    exposure and cleanup throw the error that names the missing variable
    and touch nothing: no request is made and no file is written. *)
Theorem exposure_requires_configuration {J : Engine} E o w :
  (unset E (lit "BASE_DOMAIN") ->
   (forall args,
      ensureProjectPublicExposure E o args w =
      (Throw (JsError (lit "Missing required environment variable: BASE_DOMAIN")),
       w)) /\
   (forall slug name,
      cleanupProjectExposure E o slug name w =
      (Throw (JsError (lit "Missing required environment variable: BASE_DOMAIN")),
       w))) /\
  (forall baseDomain,
     configured E (lit "BASE_DOMAIN") baseDomain ->
     unset E (lit "CF_TUNNEL_UUID") ->
     (forall args,
        ensureProjectPublicExposure E o args w =
        (Throw (JsError
                  (lit "Missing required environment variable: CF_TUNNEL_UUID")),
         w)) /\
     (forall slug name,
        cleanupProjectExposure E o slug name w =
        (Throw (JsError
                  (lit "Missing required environment variable: CF_TUNNEL_UUID")),
         w))).
Proof.
  split.
  - intros H. split; intros;
      [unfold ensureProjectPublicExposure | unfold cleanupProjectExposure];
      exact (bind_throw _ _ _ _ _ (getEnvOrThrow_unset _ _ w H)).
  - intros base Hb H. split; intros;
      [unfold ensureProjectPublicExposure | unfold cleanupProjectExposure];
      rewrite (bind_run _ _ _ _ _ (getEnvOrThrow_configured _ _ _ w Hb));
      exact (bind_throw _ _ _ _ _ (getEnvOrThrow_unset _ _ w H)).
Qed.

Lemma dns_list_run o h w :
  http_outcome o DnsList = HttpOk ->
  dns_list o h w = (Ok (dns_records h (zone w)), add_event (EvDns DnsList h) w).
Proof. intros H. unfold dns_list, dns_request, bind, emit, modify. now rewrite H. Qed.

Lemma cname_prelude E o h target token zoneId w :
  configured E (lit "CF_API_TOKEN") token ->
  configured E (lit "CF_ZONE_ID") zoneId ->
  http_outcome o DnsList = HttpOk ->
  ensureCloudflareCname E o h target w =
  match dns_records h (zone w) with
  | existing :: _ =>
      if negb (str_eqb (d_content existing) target) || negb (d_proxied existing)
      then dns_update o (d_id existing) h target (add_event (EvDns DnsList h) w)
      else (Ok tt, add_event (EvDns DnsList h) w)
  | [] => dns_create o h target (add_event (EvDns DnsList h) w)
  end.
Proof.
  intros Ht Hz Hl. unfold ensureCloudflareCname.
  rewrite (bind_run _ _ _ _ _ (getEnvOrThrow_configured _ _ _ w Ht)).
  rewrite (bind_run _ _ _ _ _ (getEnvOrThrow_configured _ _ _ w Hz)).
  rewrite (bind_run _ _ _ _ _ (dns_list_run o h w Hl)).
  destruct (dns_records h (zone w)) as [|existing rest]; [reflexivity|].
  destruct (negb (str_eqb (d_content existing) target) || negb (d_proxied existing));
    reflexivity.
Qed.

(** X10.  The DNS reconciliation, once the list request is answered.  A
    record that already points to the tunnel through the proxy costs no
    further request and is left alone; a stale one is updated in place, by
    one request; without a record one is created, proxied, by one
    request. *)
Theorem ensureCloudflareCname_requests E o hostname target token zoneId w :
  configured E (lit "CF_API_TOKEN") token ->
  configured E (lit "CF_ZONE_ID") zoneId ->
  http_outcome o DnsList = HttpOk ->
  (forall existing rest,
     dns_records hostname (zone w) = existing :: rest ->
     d_content existing = target -> d_proxied existing = true ->
     ensureCloudflareCname E o hostname target w
     = (Ok tt, add_event (EvDns DnsList hostname) w)) /\
  (forall existing rest,
     dns_records hostname (zone w) = existing :: rest ->
     d_content existing <> target \/ d_proxied existing = false ->
     http_outcome o DnsUpdate = HttpOk ->
     exists w',
       ensureCloudflareCname E o hostname target w = (Ok tt, w') /\
       trace w' = EvDns DnsUpdate hostname :: EvDns DnsList hostname :: trace w /\
       zone w' =
         map (fun r => if (d_id r =? d_id existing)%N
                       then {| d_id := d_id existing; d_name := hostname;
                               d_content := target; d_proxied := true |}
                       else r) (zone w)) /\
  (dns_records hostname (zone w) = [] ->
   http_outcome o DnsCreate = HttpOk ->
   exists w',
     ensureCloudflareCname E o hostname target w = (Ok tt, w') /\
     trace w' = EvDns DnsCreate hostname :: EvDns DnsList hostname :: trace w /\
     zone w' = zone w ++ [{| d_id := fresh_id (zone w); d_name := hostname;
                             d_content := target; d_proxied := true |}]).
Proof.
  intros Ht Hz Hl. rewrite (cname_prelude E o hostname target token zoneId w Ht Hz Hl).
  split; [|split].
  - intros existing rest -> <- ->. now rewrite str_eqb_refl.
  - intros existing rest -> Hstale Hu.
    assert (Hcond : negb (str_eqb (d_content existing) target)
                    || negb (d_proxied existing) = true).
    { destruct Hstale as [Hc | ->]; [|apply orb_true_r].
      destruct (str_eqb (d_content existing) target) eqn:Eq; [|reflexivity].
      apply str_eqb_eq in Eq. contradiction. }
    rewrite Hcond. unfold dns_update, dns_request, bind, emit, modify.
    rewrite Hu. eexists. split; [reflexivity|]. split; reflexivity.
  - intros -> Hc. unfold dns_create, dns_request, bind, emit, modify.
    rewrite Hc. eexists. split; [reflexivity|]. split; reflexivity.
Qed.

Lemma ensureCloudflareCname_requests_witness :
  exists w',
    ensureCloudflareCname Sample.env Sample.healthy Sample.hostname
      (lit "0a1b2c3d.cfargotunnel.com") Sample.world = (Ok tt, w') /\
    trace w' = [EvDns DnsCreate Sample.hostname; EvDns DnsList Sample.hostname].
Proof.
  destruct (ensureCloudflareCname_requests Sample.env Sample.healthy
              Sample.hostname (lit "0a1b2c3d.cfargotunnel.com")
              (lit "secret-token") (lit "zone-1") Sample.world
              (conj eq_refl eq_refl) (conj eq_refl eq_refl) eq_refl)
    as (_ & _ & Hcreate).
  destruct (Hcreate eq_refl eq_refl) as (w' & Hrun & Htrace & _).
  exists w'. split; [exact Hrun | exact Htrace].
Defined.

(** X11.  When the provider refuses the list request, the exposure throws
    the provider's status and text after that one request: no record is
    created and the ingress document is not touched. *)
Theorem exposure_dns_failure {J : Engine} E o args baseDomain tunnelUuid token
    zoneId url status body w :
  configured E (lit "BASE_DOMAIN") baseDomain ->
  configured E (lit "CF_TUNNEL_UUID") tunnelUuid ->
  configured E (lit "CF_API_TOKEN") token ->
  configured E (lit "CF_ZONE_ID") zoneId ->
  serviceUrlOf E args = Some url ->
  http_outcome o DnsList = HttpNotOk status body ->
  ensureProjectPublicExposure E o args w =
  (Throw (JsError (lit "Cloudflare API error (list DNS): " ++ dec status
                     ++ lit " " ++ body)),
   add_event (EvDns DnsList (exposure_hostname args baseDomain)) w).
Proof.
  intros Hb Hu Ht Hz Hurl Hl.
  rewrite (exposure_unfold E o args baseDomain tunnelUuid w Hb Hu), Hurl.
  apply bind_throw. unfold ensureCloudflareCname.
  rewrite (bind_run _ _ _ _ _ (getEnvOrThrow_configured _ _ _ w Ht)).
  rewrite (bind_run _ _ _ _ _ (getEnvOrThrow_configured _ _ _ w Hz)).
  apply bind_throw. unfold dns_list, dns_request, bind, emit, modify.
  now rewrite Hl.
Qed.

Lemma exposure_dns_failure_witness :
  ensureProjectPublicExposure (J := Sample.engine) Sample.env
    Sample.dns_refused Sample.args Sample.world =
  (Throw (JsError (lit "Cloudflare API error (list DNS): 403 forbidden")),
   add_event (EvDns DnsList Sample.hostname) Sample.world).
Proof.
  exact (exposure_dns_failure (J := Sample.engine) Sample.env
           Sample.dns_refused Sample.args (lit "example.com") (lit "0a1b2c3d")
           (lit "secret-token") (lit "zone-1") (lit "http://127.0.0.1:8123")
           403 (lit "forbidden") Sample.world
           (conj eq_refl eq_refl) (conj eq_refl eq_refl)
           (conj eq_refl eq_refl) (conj eq_refl eq_refl) eq_refl eq_refl).
Defined.

Lemma dns_records_filter_id h id z :
  dns_records h (filter (fun r => negb (d_id r =? id)%N) z) =
  filter (fun r => negb (d_id r =? id)%N) (dns_records h z).
Proof. apply filter_filter_comm. Qed.

Lemma filter_all {T} (p : T -> bool) l :
  Forall (fun x => p x = true) l -> filter p l = l.
Proof.
  induction 1 as [|x l Hx _ IH]; [reflexivity|]. simpl. now rewrite Hx, IH.
Qed.

(** X12.  The DNS cleanup, once the list request is answered.  Without a
    record for the hostname nothing is deleted; otherwise one request
    deletes the first record, and the records of every other hostname are
    what they were. *)
Theorem deleteCloudflareCname_requests E o hostname token zoneId w :
  configured E (lit "CF_API_TOKEN") token ->
  configured E (lit "CF_ZONE_ID") zoneId ->
  http_outcome o DnsList = HttpOk ->
  (dns_records hostname (zone w) = [] ->
   deleteCloudflareCname E o hostname w
   = (Ok tt, add_event (EvDns DnsList hostname) w)) /\
  (forall existing rest,
     dns_records hostname (zone w) = existing :: rest ->
     http_outcome o DnsDelete = HttpOk ->
     NoDup (map d_id (zone w)) ->
     exists w',
       deleteCloudflareCname E o hostname w = (Ok tt, w') /\
       trace w' = EvDns DnsDelete hostname :: EvDns DnsList hostname :: trace w /\
       dns_records hostname (zone w') = rest /\
       (forall other, other <> hostname ->
                      dns_records other (zone w') = dns_records other (zone w))).
Proof.
  intros Ht Hz Hl. unfold deleteCloudflareCname.
  rewrite (bind_run _ _ _ _ _ (getEnvOrThrow_configured _ _ _ w Ht)).
  rewrite (bind_run _ _ _ _ _ (getEnvOrThrow_configured _ _ _ w Hz)).
  rewrite (bind_run _ _ _ _ _ (dns_list_run o hostname w Hl)).
  split.
  - now intros ->.
  - intros existing rest Hrec Hd Hnd. rewrite Hrec.
    unfold dns_delete, dns_request, bind, emit, modify. rewrite Hd.
    eexists. split; [reflexivity|]. split; [reflexivity|].
    cbv beta. cbn [zone set_zone add_event].
    assert (Hin : In existing (zone w)).
    { assert (H : In existing (dns_records hostname (zone w)))
        by (rewrite Hrec; now left).
      apply filter_In in H. tauto. }
    assert (Hother : forall r, In r (zone w) -> r <> existing ->
                               negb (d_id r =? d_id existing)%N = true).
    { intros r Hr Hne. apply negb_true_iff, N.eqb_neq. intros Heq.
      apply Hne. exact (NoDup_ids_inj _ _ _ Hnd Hr Hin Heq). }
    split.
    + rewrite dns_records_filter_id, Hrec. cbn [filter].
      rewrite N.eqb_refl. cbn [negb]. apply filter_all, Forall_forall.
      intros r Hr. apply Hother.
      * assert (H : In r (dns_records hostname (zone w)))
          by (rewrite Hrec; now right).
        apply filter_In in H. tauto.
      * intros ->.
        assert (Hnd' : NoDup (dns_records hostname (zone w))).
        { apply NoDup_filter. exact (NoDup_map_inv _ _ Hnd). }
        rewrite Hrec in Hnd'. inversion Hnd'. contradiction.
    + intros other Hne. rewrite dns_records_filter_id. apply filter_all.
      apply Forall_forall. intros r Hr. apply filter_In in Hr.
      destruct Hr as [Hr Hname]. apply Hother; [exact Hr|].
      intros ->. apply str_eqb_eq in Hname.
      assert (H : In existing (dns_records hostname (zone w)))
        by (rewrite Hrec; now left).
      apply filter_In in H. destruct H as [_ H]. apply str_eqb_eq in H.
      congruence.
Qed.

Lemma deleteCloudflareCname_requests_witness :
  exists w',
    deleteCloudflareCname Sample.env Sample.healthy Sample.hostname
      Sample.exposed = (Ok tt, w') /\
    dns_records Sample.hostname (zone w') = [].
Proof.
  destruct (deleteCloudflareCname_requests Sample.env Sample.healthy
              Sample.hostname (lit "secret-token") (lit "zone-1")
              Sample.exposed
              (conj eq_refl eq_refl) (conj eq_refl eq_refl) eq_refl)
    as [_ Hdelete].
  destruct (Hdelete {| d_id := 7; d_name := Sample.hostname;
                       d_content := lit "0a1b2c3d.cfargotunnel.com";
                       d_proxied := true |} [] eq_refl eq_refl
                    (NoDup_cons 7%N (fun H : In 7%N [] => H) (NoDup_nil N)))
    as (w' & Hrun & _ & Hrecords & _).
  exists w'. split; [exact Hrun | exact Hrecords].
Defined.

Lemma readYamlFile_read o path w :
  readYamlFile o path w = (Ok (read_document o path w), w).
Proof.
  unfold readYamlFile, read_document, bind, get.
  destruct (fs_fault o FsRead path), (tunnelConfig w); reflexivity.
Qed.







Lemma is_404_rule h url : url <> lit "http_status:404" -> is_404 (host_rule h url) = false.
Proof.
  intros H. unfold host_rule, is_404; cbn [r_service].
  destruct (str_eqb url (lit "http_status:404")) eqn:E; [|reflexivity].
  apply str_eqb_eq in E. contradiction.
Qed.






(** X15.  A document that is not a mapping.  On a sequence, whatever the
    outcome of the calls, the reconciliation leaves the document as it is:
    the new rule is not persisted.  On a scalar it throws the engine's
    error for the assignment and does nothing. *)
Theorem ensureTunnelIngress_not_a_mapping {J : Engine} E o hostname serviceUrl
    tunnelUuid w path :
  getConfigPath E = Ok path ->
  fs_fault o FsRead path = None ->
  (forall items,
     tunnelConfig w = Some (DocSequence items) ->
     tunnelConfig
       (snd (ensureTunnelIngress E o hostname serviceUrl tunnelUuid w))
     = tunnelConfig w) /\
  (forall set_fault,
     tunnelConfig w = Some (DocScalar set_fault) ->
     ensureTunnelIngress E o hostname serviceUrl tunnelUuid w
     = (Throw (JsError set_fault), w)).
Proof.
  intros Hp Hr. unfold ensureTunnelIngress.
  rewrite (bind_run _ _ _ _ _ (lift_run _ _ w Hp)).
  rewrite (bind_run _ _ _ _ _ (readYamlFile_read o _ w)).
  unfold read_document. rewrite Hr. split.
  - intros items Hc. rewrite Hc.
    unfold bind at 1.
    destruct (writeYamlFile E o path (DocSequence items) w) as [[[]|e] w1] eqn:Hw.
    + apply writeYamlFile_Ok in Hw. destruct Hw as [Hcfg _].
      destruct ((validateIngress o path ;;
                 reloadCloudflared E o path tunnelUuid) w1) as [r w2] eqn:Ht.
      apply validate_reload_keeps in Ht. destruct Ht as [_ Ht].
      cbn [snd]. now rewrite Ht.
    + cbn [snd]. revert Hw. unfold writeYamlFile, mkdir, bind, emit, modify.
      destruct (fs_fault o FsMkdir (dirname E path)); [now intros [= _ <-]|].
      destruct (fs_fault o FsWrite path); [now intros [= _ <-] | discriminate].
  - intros fault Hc. now rewrite Hc.
Qed.

Lemma ensureTunnelIngress_not_a_mapping_witness :
  tunnelConfig
    (snd (ensureTunnelIngress (J := Sample.engine) Sample.env Sample.healthy
            Sample.hostname (lit "http://127.0.0.1:8123") (lit "0a1b2c3d")
            Sample.listed))
  = tunnelConfig Sample.listed.
Proof.
  destruct (ensureTunnelIngress_not_a_mapping (J := Sample.engine) Sample.env
              Sample.healthy Sample.hostname (lit "http://127.0.0.1:8123")
              (lit "0a1b2c3d") Sample.listed Sample.config_path
              eq_refl eq_refl)
    as [Hsequence _].
  exact (Hsequence _ eq_refl).
Defined.




(* ================================================================= *)
(** ** Reloading the daemon and cleaning up an exposure *)

Lemma ran_app a b w : ran (a ++ b) w = ran b (ran a w).
Proof. apply fold_left_app. Qed.

Lemma ran_state commands w : state (ran commands w) = state w.
Proof.
  revert w. induction commands as [|c l IH]; intros w; [reflexivity|].
  cbn [ran fold_left]. etransitivity; [apply IH | reflexivity].
Qed.

Lemma ran_trace commands w :
  trace (ran commands w) = rev (map (fun c => EvExec c None) commands) ++ trace w.
Proof.
  revert w. induction commands as [|c l IH]; intros w; [reflexivity|].
  cbn [ran fold_left map rev]. etransitivity; [apply IH|].
  now rewrite <- app_assoc.
Qed.

Lemma runs_ret {A} (a : A) : runs_only (ret a).
Proof. intros w. now exists a, []. Qed.

Lemma runs_bind {A B} (m : M A) (k : A -> M B) :
  runs_only m -> (forall a, runs_only (k a)) -> runs_only (bind m k).
Proof.
  intros Hm Hk w. destruct (Hm w) as (a & c1 & E1).
  destruct (Hk a (ran c1 w)) as (b & c2 & E2).
  exists b, (c1 ++ c2). unfold bind. now rewrite E1, E2, ran_app.
Qed.

Lemma runs_tryExec o cmd : runs_only (tryExec o cmd).
Proof. intros w. exists (succeeds o cmd), [cmd]. apply tryExec_run. Qed.

Ltac runs_step :=
  lazymatch goal with
  | |- runs_only (ret _) => apply runs_ret
  | |- runs_only (tryExec _ _) => apply runs_tryExec
  | |- runs_only (probe _ _) => apply runs_tryExec
  | |- runs_only (bind _ _) => apply runs_bind; [|intros]
  | |- runs_only (match ?x with _ => _ end) => destruct x
  | |- runs_only (let _ := _ in _) => lazy zeta
  end.

Lemma reloadCloudflared_only_runs_commands E o configPath tunnelUuid w :
  exists commands,
    reloadCloudflared E o configPath tunnelUuid w = (Ok tt, ran commands w) /\
    state (ran commands w) = state w /\
    trace (ran commands w)
    = rev (map (fun c => EvExec c None) commands) ++ trace w.
Proof.
  assert (H : runs_only (reloadCloudflared E o configPath tunnelUuid)).
  { unfold reloadCloudflared, isProcessRunningCloudflared, either.
    repeat runs_step. }
  destruct (H w) as ([] & commands & Hrun). exists commands.
  split; [exact Hrun|]. split; [apply ran_state | apply ran_trace].
Qed.

Ltac run_tryExec :=
  repeat (progress (rewrite ?tryExec_run; cbn [negb]; cbv beta iota zeta);
          try match goal with
              | |- context [if succeeds ?o ?c then _ else _] =>
                  let E := fresh "E" in destruct (succeeds o c) eqn:E
              | |- context [if negb (succeeds ?o ?c) then _ else _] =>
                  let E := fresh "E" in destruct (succeeds o c) eqn:E
              end).

Ltac commands_of t w :=
  lazymatch t with
  | w => constr:(@nil str)
  | add_event (EvExec ?c None) ?t' =>
      let l := commands_of t' w in constr:(l ++ [c])
  end.

Ltac name_commands w :=
  lazymatch goal with
  | |- exists _, (_, ?t) = _ /\ _ =>
      let l := commands_of t w in
      let l' := eval cbn [app] in l in
      exists l'; split; [reflexivity|]
  end.

Lemma reloadCloudflared_decisions E o configPath tunnelUuid w :
  win32 E = false ->
  exists commands,
    reloadCloudflared E o configPath tunnelUuid w = (Ok tt, ran commands w) /\
    (In (start_daemon configPath tunnelUuid) commands
     <-> reloaded o = false /\ running o = false) /\
    (succeeds o (lit "command -v systemctl >/dev/null 2>&1") = true ->
     succeeds o (lit "systemctl reload cloudflared") = true ->
     commands = [lit "command -v systemctl >/dev/null 2>&1";
                 lit "systemctl reload cloudflared"]).
Proof.
  intros Hwin.
  unfold reloadCloudflared, isProcessRunningCloudflared, either.
  rewrite Hwin. cbn [negb]. unfold bind, ret, reloaded, running.
  run_tryExec.
  all: name_commands w.
  all: cbn [orb andb].
  all: (split; [split; [intros H | intros [H1 H2]]
               | intros; try discriminate; try reflexivity]).
  all: try discriminate.
  all: try (exfalso; repeat (destruct H as [H|H]; [discriminate H|]); exact H).
  all: try (split; reflexivity).
  all: try (repeat (first [left; reflexivity | right])).
Qed.

(** X17.  Reloading the daemon never fails and does nothing but run
    commands: the store, the files, the zone and the ingress document are
    what they were, and the trace grows by the commands run, in their
    order.  On a POSIX host the daemon is started afresh exactly when no
    reload, restart or signal succeeded and no running daemon was found;
    and when [systemctl] is there and its reload succeeds, these two
    commands are all that is run. *)
Theorem reloadCloudflared_runs_commands E o configPath tunnelUuid w :
  exists commands,
    reloadCloudflared E o configPath tunnelUuid w = (Ok tt, ran commands w) /\
    state (ran commands w) = state w /\
    trace (ran commands w)
    = rev (map (fun c => EvExec c None) commands) ++ trace w /\
    (win32 E = false ->
     (In (start_daemon configPath tunnelUuid) commands
      <-> reloaded o = false /\ running o = false) /\
     (succeeds o (lit "command -v systemctl >/dev/null 2>&1") = true ->
      succeeds o (lit "systemctl reload cloudflared") = true ->
      commands = [lit "command -v systemctl >/dev/null 2>&1";
                  lit "systemctl reload cloudflared"])).
Proof.
  destruct (win32 E) eqn:Hwin.
  - destruct (reloadCloudflared_only_runs_commands E o configPath tunnelUuid w)
      as (commands & Hrun & Hstate & Htrace).
    exists commands. split; [exact Hrun|]. split; [exact Hstate|].
    split; [exact Htrace | discriminate].
  - destruct (reloadCloudflared_decisions E o configPath tunnelUuid w Hwin)
      as (commands & Hrun & Hstart & Hsystemctl).
    exists commands. split; [exact Hrun|]. split; [apply ran_state|].
    split; [apply ran_trace|]. intros _. split; assumption.
Qed.




(** X19.  The cleanup of an exposure, with the base domain and the tunnel
    configured.  Without a slug and without a name it throws and does
    nothing.  With one of them it never throws, whatever the DNS provider
    and the ingress file do; the slug is taken before the name; and the
    rows of the store are what they were. *)
Theorem cleanupProjectExposure_best_effort {J : Engine} E o baseDomain
    tunnelUuid w :
  configured E (lit "BASE_DOMAIN") baseDomain ->
  configured E (lit "CF_TUNNEL_UUID") tunnelUuid ->
  (forall slug name,
     slug = None \/ slug = Some [] -> name = None \/ name = Some [] ->
     cleanupProjectExposure E o slug name w =
     (Throw (JsError
               (lit "cleanupProjectExposure requires projectSlug or projectName")),
      w)) /\
  (forall slug name s,
     (slug = Some s \/ ((slug = None \/ slug = Some []) /\ name = Some s)) ->
     truthy s = true ->
     exists w',
       cleanupProjectExposure E o slug name w = (Ok tt, w') /\
       cleanupProjectExposure E o slug name w =
       cleanupProjectExposure E o (Some s) None w /\
       store w' = store w).
Proof.
  intros Hb Hu. split.
  - intros slug name Hs Hn. unfold cleanupProjectExposure.
    rewrite (bind_run _ _ _ _ _ (getEnvOrThrow_configured _ _ _ w Hb)).
    rewrite (bind_run _ _ _ _ _ (getEnvOrThrow_configured _ _ _ w Hu)).
    destruct Hs as [-> | ->], Hn as [-> | ->]; reflexivity.
  - intros slug name s Hcase Hs.
    assert (Hrun : forall slug name,
              (slug = Some s \/ ((slug = None \/ slug = Some []) /\ name = Some s)) ->
              cleanupProjectExposure E o slug name w =
              (try_catch (deleteCloudflareCname E o
                            (sanitizeSlug s ++ lit "." ++ baseDomain))
                         (fun _ => ret tt) ;;
               try_catch (removeTunnelIngress E o
                            (sanitizeSlug s ++ lit "." ++ baseDomain) tunnelUuid)
                         (fun _ => ret tt)) w).
    { clear slug name Hcase. intros slug name Hcase. unfold cleanupProjectExposure.
      rewrite (bind_run _ _ _ _ _ (getEnvOrThrow_configured _ _ _ w Hb)).
      rewrite (bind_run _ _ _ _ _ (getEnvOrThrow_configured _ _ _ w Hu)).
      destruct Hcase as [-> | [[-> | ->] ->]]; cbv zeta; cbn [truthy];
        rewrite ?Hs; cbv iota; rewrite ?Hs; reflexivity. }
    assert (Htotal : total
              (try_catch (deleteCloudflareCname E o
                            (sanitizeSlug s ++ lit "." ++ baseDomain))
                         (fun _ => ret tt) ;;
               try_catch (removeTunnelIngress E o
                            (sanitizeSlug s ++ lit "." ++ baseDomain) tunnelUuid)
                         (fun _ => ret tt))).
    { repeat total_step. }
    destruct (Htotal w) as ([] & w' & Hw'). exists w'.
    split; [now rewrite (Hrun _ _ Hcase)|].
    split; [rewrite (Hrun _ _ Hcase); symmetry; apply Hrun; now left|].
    pose proof (keeps_store_cleanup E o slug name w) as Hkeep.
    rewrite (Hrun _ _ Hcase), Hw' in Hkeep. exact Hkeep.
Qed.

Lemma cleanupProjectExposure_best_effort_witness :
  exists w',
    cleanupProjectExposure (J := Sample.engine) Sample.env
      Sample.no_cloudflared (Some (lit "demo-1700000000123"))
      (Some (lit "Demo")) Sample.exposed = (Ok tt, w') /\
    store w' = store Sample.exposed.
Proof.
  destruct (cleanupProjectExposure_best_effort (J := Sample.engine) Sample.env
              Sample.no_cloudflared (lit "example.com") (lit "0a1b2c3d")
              Sample.exposed (conj eq_refl eq_refl) (conj eq_refl eq_refl))
    as [_ Hruns].
  destruct (Hruns (Some (lit "demo-1700000000123")) (Some (lit "Demo"))
              (lit "demo-1700000000123") (or_introl eq_refl) eq_refl)
    as (w' & Hrun & _ & Hstore).
  exists w'. split; [exact Hrun | exact Hstore].
Defined.






(* ================================================================= *)
(** ** Pre-flight checks and failed deployments *)

Lemma checkInternetConnectivity_run E o w :
  checkInternetConnectivity E o w =
  (Ok (existsb (succeeds o) (connectivity_probes E)),
   ran (attempted o (connectivity_probes E)) w).
Proof.
  unfold checkInternetConnectivity, probe_endpoints, connectivity_probes.
  unfold bind, ret. cbn [existsb attempted].
  repeat (rewrite probe_run; cbv beta iota;
          match goal with
          | |- context [if succeeds ?o ?c then _ else _] =>
              destruct (succeeds o c)
          end; cbn [orb]; try reflexivity).
Qed.

Lemma checkDockerPrerequisites_run E o w :
  checkDockerPrerequisites E o w =
  (Ok {| docker := succeeds o (lit "docker --version");
         dockerCompose := succeeds o (lit "docker compose version");
         internetConnection := existsb (succeeds o) (connectivity_probes E) |},
   ran (lit "docker --version" :: lit "docker compose version"
          :: attempted o (connectivity_probes E)) w).
Proof.
  unfold checkDockerPrerequisites, bind, ret.
  now rewrite !probe_run, checkInternetConnectivity_run.
Qed.

(** X21.  The pre-flight checks never fail and only run commands.  The
    connectivity probes are tried in their order up to the first that
    succeeds, and the answer tells whether one did; the Docker checks run
    [docker --version] and [docker compose version] first, whatever their
    outcome. *)
Theorem preflight_checks E o w :
  (exists w',
     checkInternetConnectivity E o w
     = (Ok (existsb (succeeds o) (connectivity_probes E)), w') /\
     state w' = state w /\
     trace w' =
       rev (map (fun c => EvExec c None) (attempted o (connectivity_probes E)))
         ++ trace w) /\
  (exists w',
     checkDockerPrerequisites E o w
     = (Ok {| docker := succeeds o (lit "docker --version");
              dockerCompose := succeeds o (lit "docker compose version");
              internetConnection :=
                existsb (succeeds o) (connectivity_probes E) |}, w') /\
     state w' = state w /\
     trace w' =
       rev (map (fun c => EvExec c None)
                (lit "docker --version" :: lit "docker compose version"
                   :: attempted o (connectivity_probes E)))
         ++ trace w).
Proof.
  split; eexists;
    (split; [first [apply checkInternetConnectivity_run
                   | apply checkDockerPrerequisites_run]
            | split; [apply ran_state | apply ran_trace]]).
Qed.

Lemma find_project_none o projectId w :
  db_fault o DbProjectFind = None ->
  find (has_id projectId) (projects w) = None ->
  project_findUnique o projectId w = (Ok None, w).
Proof.
  intros Hdb Hfind. unfold project_findUnique, db. rewrite Hdb.
  unfold bind, get, ret. now rewrite Hfind.
Qed.

Lemma find_project_fault o projectId w e :
  db_fault o DbProjectFind = Some e ->
  project_findUnique o projectId w = (Throw e, w).
Proof. intros Hdb. unfold project_findUnique, db. now rewrite Hdb. Qed.

(** X22.  For an id that is not in the store, and when the store cannot be
    read, updating, deploying, pausing and deleting return a failure, with
    [Project not found] or the fault of the store, and leave the world as
    it is: no command is run. *)
Theorem project_not_found {J : Engine} E o projectId w :
  let unchanged (run : M Result) (e : exn) := run w = (Ok (failed e), w) in
  (db_fault o DbProjectFind = None ->
   find (has_id projectId) (projects w) = None ->
   (forall envVars,
      unchanged (updateProjectEnvVars E o projectId envVars)
                (JsError (lit "Project not found"))) /\
   unchanged (deployProject E o projectId) (JsError (lit "Project not found")) /\
   unchanged (pauseProject E o projectId) (JsError (lit "Project not found")) /\
   unchanged (deleteProject E o projectId) (JsError (lit "Project not found"))) /\
  (forall e,
     db_fault o DbProjectFind = Some e ->
     (forall envVars, unchanged (updateProjectEnvVars E o projectId envVars) e) /\
     unchanged (deployProject E o projectId) e /\
     unchanged (pauseProject E o projectId) e /\
     unchanged (deleteProject E o projectId) e).
Proof.
  cbv zeta. split.
  - intros Hdb Hfind. pose proof (find_project_none o projectId w Hdb Hfind) as H.
    repeat split; intros;
      unfold updateProjectEnvVars, deployProject, pauseProject, deleteProject;
      (erewrite try_catch_caught;
       [reflexivity | rewrite (bind_run _ _ _ _ _ H); reflexivity]).
  - intros e Hdb. pose proof (find_project_fault o projectId w e Hdb) as H.
    repeat split; intros;
      unfold updateProjectEnvVars, deployProject, pauseProject, deleteProject;
      (erewrite try_catch_caught;
       [reflexivity | exact (bind_throw _ _ _ _ _ H)]).
Qed.

Lemma ran_keeps {X} (f : World -> X) commands w :
  (forall ev w, f (add_event ev w) = f w) -> f (ran commands w) = f w.
Proof.
  intros Hf. revert w. induction commands as [|c l IH]; intros w; [reflexivity|].
  cbn [ran fold_left]. etransitivity; [apply IH | apply Hf].
Qed.

Lemma patch_step o path w :
  exists w1,
    try_catch (patchComposePorts o path) (fun _ => ret tt) w = (Ok tt, w1) /\
    store w1 = store w /\ exposure w1 = exposure w /\
    (trace w1 = trace w \/ trace w1 = EvWriteFile path :: trace w).
Proof.
  unfold patchComposePorts, readFile, writeFile, try_catch, bind, get, emit,
    modify, ret, throw_error, throw.
  destruct (fs_fault o FsRead path); [eexists; repeat split; now left|].
  destruct (lookup path (files w)) as [content|];
    [|eexists; repeat split; now left].
  cbv zeta. destruct (negb (str_eqb (patchPortsText content) content));
    [|eexists; repeat split; now left].
  destruct (fs_fault o FsWrite path); eexists; repeat split;
    first [now left | now right].
Qed.

Lemma attempted_incl o commands : incl (attempted o commands) commands.
Proof.
  induction commands as [|c l IH]; [apply incl_refl|]. cbn [attempted].
  destruct (succeeds o c).
  - intros x [<- | []]. now left.
  - apply incl_cons; [now left | apply incl_tl, IH].
Qed.

Lemma preflight_starts_nothing E o dir c :
  In c (lit "docker --version" :: lit "docker compose version"
          :: attempted o (connectivity_probes E)) ->
  EvExec c None <> EvExec (lit "docker compose up -d --remove-orphans") dir.
Proof.
  intros Hin Heq. injection Heq as -> _.
  destruct Hin as [H | [H | H]]; try discriminate H.
  apply attempted_incl in H. unfold connectivity_probes in H.
  destruct (win32 E);
    repeat (destruct H as [H | H]; [discriminate H|]); exact H.
Qed.

(** X23.  When Docker answers but Docker Compose does not, the deployment
    fails with the message about Docker Compose, the store and the exposure
    are what they were, and no [docker compose up] is run. *)
Theorem deploy_without_compose {J : Engine} E o projectId w project dir :
  db_fault o DbProjectFind = None ->
  find (has_id projectId) (projects w) = Some project ->
  cwd E = Ok dir ->
  succeeds o (lit "docker --version") = true ->
  succeeds o (lit "docker compose version") = false ->
  exists w',
    deployProject E o projectId w =
    (Ok (failed (JsError (lit "Docker Compose is not available. Please ensure Docker Desktop includes Docker Compose or install it separately."))),
     w') /\
    store w' = store w /\ exposure w' = exposure w /\
    (forall at_dir,
       In (EvExec (lit "docker compose up -d --remove-orphans") at_dir)
          (trace w') ->
       In (EvExec (lit "docker compose up -d --remove-orphans") at_dir)
          (trace w)).
Proof.
  intros Hdb Hfind Hcwd Hd Hc. unfold deployProject.
  destruct (patch_step o
              (path_join E [dockerDir E dir project;
                            lit "docker-compose.yml"]) w)
    as (w1 & E1 & Hs1 & Hx1 & Ht1).
  eexists. split; [|split; [|split]].
  - erewrite try_catch_caught; [reflexivity|].
    rewrite (bind_run _ _ _ _ _ (find_project_run _ _ _ _ Hdb Hfind)).
    rewrite (bind_run _ _ _ _ _ (process_cwd_run E dir w Hcwd)).
    lazy zeta. fold (dockerDir E dir project).
    rewrite (bind_run _ _ _ _ _ E1).
    rewrite (bind_run _ _ _ _ _ (checkDockerPrerequisites_run E o w1)).
    cbn [docker dockerCompose]. rewrite Hd, Hc. reflexivity.
  - rewrite <- Hs1. apply (ran_keeps store). reflexivity.
  - rewrite <- Hx1. apply (ran_keeps exposure). reflexivity.
  - intros at_dir. rewrite ran_trace. intros Hin. apply in_app_or in Hin.
    destruct Hin as [Hin | Hin].
    + apply in_rev, in_map_iff in Hin. destruct Hin as (c & Heq & Hc').
      exfalso. exact (preflight_starts_nothing E o at_dir c Hc' Heq).
    + destruct Ht1 as [-> | ->] in Hin; [exact Hin|].
      destruct Hin as [Hin | Hin]; [discriminate Hin | exact Hin].
Qed.

Lemma deploy_without_compose_witness :
  exists w',
    deployProject (J := Sample.engine) Sample.env Sample.no_compose (lit "p1")
      Sample.world =
    (Ok (failed (JsError (lit "Docker Compose is not available. Please ensure Docker Desktop includes Docker Compose or install it separately."))),
     w') /\
    store w' = store Sample.world /\ exposure w' = exposure Sample.world.
Proof.
  destruct (deploy_without_compose (J := Sample.engine) Sample.env
              Sample.no_compose (lit "p1") Sample.world Sample.demo
              (lit "/srv/console") eq_refl eq_refl eq_refl eq_refl eq_refl)
    as (w' & Hrun & Hstore & Hexposure & _).
  exists w'. split; [exact Hrun|]. split; [exact Hstore | exact Hexposure].
Defined.

Lemma pull_step o (internet : bool) dir w :
  exists w',
    (if internet
     then try_catch (exec o (lit "docker compose pull") (Some dir) ;; ret tt)
                    (fun _ => ret tt)
     else ret tt) w = (Ok tt, w') /\
    store w' = store w /\ exposure w' = exposure w.
Proof.
  destruct internet; [|now exists w].
  unfold try_catch, bind. rewrite exec_run.
  destruct (exec_result o _ _); eexists; repeat split.
Qed.

(** X24.  When [docker compose up] fails, the deployment fails with the
    message that [composeFailure] derives from the fault, the project is
    not exposed and its status is not changed. *)
Theorem deploy_compose_failure {J : Engine} E o projectId w project dir e :
  db_fault o DbProjectFind = None ->
  find (has_id projectId) (projects w) = Some project ->
  cwd E = Ok dir ->
  succeeds o (lit "docker --version") = true ->
  succeeds o (lit "docker compose version") = true ->
  exec_result o (lit "docker compose up -d --remove-orphans")
              (Some (dockerDir E dir project)) = Throw e ->
  exists w',
    deployProject E o projectId w =
    (Ok (failed (JsError (composeFailure
                            match e with
                            | JsError message => message
                            | NonError => lit "Unknown Docker error"
                            end))), w') /\
    store w' = store w /\ exposure w' = exposure w.
Proof.
  intros Hdb Hfind Hcwd Hd Hc Hup. unfold deployProject.
  destruct (patch_step o
              (path_join E [dockerDir E dir project;
                            lit "docker-compose.yml"]) w)
    as (w1 & E1 & Hs1 & Hx1 & _).
  pose proof (checkDockerPrerequisites_run E o w1) as E2.
  set (w2 := ran _ w1) in E2.
  destruct (pull_step o (existsb (succeeds o) (connectivity_probes E))
              (dockerDir E dir project) w2) as (w3 & E3 & Hs3 & Hx3).
  eexists. split; [|split].
  - erewrite try_catch_caught; [reflexivity|].
    rewrite (bind_run _ _ _ _ _ (find_project_run _ _ _ _ Hdb Hfind)).
    rewrite (bind_run _ _ _ _ _ (process_cwd_run E dir w Hcwd)).
    lazy zeta. fold (dockerDir E dir project).
    rewrite (bind_run _ _ _ _ _ E1).
    rewrite (bind_run _ _ _ _ _ E2).
    cbn [docker dockerCompose internetConnection]. rewrite Hd, Hc. cbn [negb].
    apply bind_throw. erewrite try_catch_caught; [reflexivity|].
    rewrite (bind_run _ _ _ _ _ E3).
    apply bind_throw. rewrite exec_run, Hup. reflexivity.
  - cbn [snd]. change (store (add_event ?ev w3)) with (store w3).
    rewrite Hs3. subst w2. rewrite (ran_keeps store) by reflexivity. exact Hs1.
  - change (exposure (add_event ?ev w3)) with (exposure w3).
    rewrite Hx3. subst w2. rewrite (ran_keeps exposure) by reflexivity. exact Hx1.
Qed.

Lemma deploy_compose_failure_witness :
  exists w',
    deployProject (J := Sample.engine) Sample.env Sample.compose_up_fails
      (lit "p1") Sample.world =
    (Ok (failed
           (JsError
              (composeFailure
                 (lit "permission denied while trying to connect to the Docker daemon socket")))),
     w') /\
    store w' = store Sample.world /\ exposure w' = exposure Sample.world.
Proof.
  destruct (deploy_compose_failure (J := Sample.engine) Sample.env
              Sample.compose_up_fails (lit "p1") Sample.world Sample.demo
              (lit "/srv/console")
              (JsError (lit "permission denied while trying to connect to the Docker daemon socket"))
              eq_refl eq_refl eq_refl eq_refl eq_refl eq_refl)
    as (w' & Hrun & Hstore & Hexposure).
  exists w'. split; [exact Hrun|]. split; [exact Hstore | exact Hexposure].
Defined.

(* ================================================================= *)
(** ** Successful deployments, pauses and updates *)

Lemma guarded_success (body : M Result) w r w' :
  try_catch body (fun e => ret (failed e)) w = (Ok r, w') ->
  success r = true -> body w = (Ok r, w').
Proof.
  unfold try_catch. destruct (body w) as [[a|e] w1]; intros [= <- <-];
    [reflexivity | discriminate].
Qed.

Lemma project_findUnique_Ok o projectId w found w' :
  project_findUnique o projectId w = (Ok found, w') ->
  w' = w /\ found = find (has_id projectId) (projects w).
Proof.
  unfold project_findUnique, db. destruct (db_fault o DbProjectFind);
    [discriminate|]. intros [= <- <-]. now split.
Qed.

Lemma envVar_findMany_Ok o projectId w found w' :
  envVar_findMany o projectId w = (Ok found, w') ->
  w' = w /\ found = rows_of projectId (envVars w).
Proof.
  unfold envVar_findMany, db. destruct (db_fault o DbEnvFindMany);
    [discriminate|]. intros [= <- <-]. now split.
Qed.

Lemma envVar_upsert_Ok o projectId key value w w' :
  envVar_upsert o projectId key value w = (Ok tt, w') ->
  w' = set_envVars (upserted projectId key value (envVars w)) w.
Proof.
  unfold envVar_upsert, db, upserted, env_row. destruct (db_fault o DbEnvUpsert);
    [discriminate|]. unfold modify. intros [= <-].
  now destruct (existsb (is_var projectId key) (envVars w)).
Qed.

Lemma project_update_status_Ok o projectId status w w' :
  project_update_status o projectId status w = (Ok tt, w') ->
  w' = set_projects
         (map (fun p => if has_id projectId p then with_status status p else p)
              (projects w)) w /\
  existsb (has_id projectId) (projects w) = true.
Proof.
  unfold project_update_status, db. destruct (db_fault o DbProjectUpdate);
    [discriminate|]. unfold bind, get, modify.
  destruct (existsb (has_id projectId) (projects w)); [|discriminate].
  intros [= <-]. now split.
Qed.

Lemma is_var_env_row projectId key value : is_var projectId key (env_row projectId key value) = true.
Proof. unfold is_var, env_row; cbn. now rewrite !str_eqb_refl. Qed.

Lemma find_app_none {T} (p : T -> bool) l x :
  existsb p l = false -> find p (l ++ [x]) = if p x then Some x else None.
Proof.
  induction l as [|y l IH]; [reflexivity|]. cbn [existsb find app].
  destruct (p y); [discriminate|]. exact IH.
Qed.

Lemma find_upserted projectId key value rows :
  find (is_var projectId key) (upserted projectId key value rows)
  = Some (env_row projectId key value).
Proof.
  unfold upserted. destruct (existsb (is_var projectId key) rows) eqn:Ex.
  - induction rows as [|v rows IH]; [discriminate|].
    cbn [existsb] in Ex. cbn [map find].
    destruct (is_var projectId key v) eqn:Ev.
    + now rewrite is_var_env_row.
    + rewrite Ev. apply IH. exact Ex.
  - rewrite (find_app_none _ _ _ Ex). now rewrite is_var_env_row.
Qed.

Lemma is_var_exclusive projectId key projectId' key' v :
  projectId' <> projectId \/ key' <> key ->
  is_var projectId key v = true -> is_var projectId' key' v = false.
Proof.
  unfold is_var. intros Hne H. apply andb_true_iff in H.
  destruct H as [Hi Hk]. apply str_eqb_eq in Hi, Hk. rewrite Hi, Hk.
  apply andb_false_iff. destruct Hne as [Hne | Hne]; [left | right];
    (destruct (str_eqb _ _) eqn:Eq; [apply str_eqb_eq in Eq; congruence
                                    | reflexivity]).
Qed.

Lemma find_upserted_other projectId key value projectId' key' rows :
  projectId' <> projectId \/ key' <> key ->
  find (is_var projectId' key') (upserted projectId key value rows)
  = find (is_var projectId' key') rows.
Proof.
  intros Hne.
  assert (Hrow : is_var projectId' key' (env_row projectId key value) = false)
    by (apply (is_var_exclusive projectId key); [exact Hne | apply is_var_env_row]).
  unfold upserted. destruct (existsb (is_var projectId key) rows).
  - induction rows as [|v rows IH]; [reflexivity|]. cbn [map find].
    destruct (is_var projectId key v) eqn:Ev.
    + rewrite Hrow, (is_var_exclusive _ _ _ _ _ Hne Ev). exact IH.
    + now rewrite IH.
  - induction rows as [|v rows IH]; cbn [app find]; [now rewrite Hrow|].
    now rewrite IH.
Qed.

Lemma find_with_status projectId status l :
  existsb (has_id projectId) l = true ->
  exists p,
    find (has_id projectId)
         (map (fun p => if has_id projectId p then with_status status p else p) l)
    = Some p /\ p_status p = status.
Proof.
  induction l as [|q l IH]; [discriminate|]. cbn [existsb map find].
  destruct (has_id projectId q) eqn:Eq; cbn [orb].
  - intros _. exists (with_status status q).
    unfold has_id in *. cbn [with_status p_id]. now rewrite Eq.
  - rewrite Eq. exact IH.
Qed.

Lemma keeps_store_exposure {J : Engine} E o args :
  keeps store (ensureProjectPublicExposure E o args).
Proof.
  unfold ensureProjectPublicExposure, ensureCloudflareCname, ensureTunnelIngress,
    getEnvOrThrow, dns_list, dns_create, dns_update, dns_request, readYamlFile,
    writeYamlFile, mkdir.
  frames.
Qed.

(** X25.  A deployment that reports success has found the project, the
    base domain and a service target, returns the public URL
    [https://<hostname>] of the sanitized slug, has stored the hostname and
    the URL in the rows [PUBLIC_HOSTNAME] and [PUBLIC_URL] of the project,
    has set its status to [active] and, unless the ingress document is a
    sequence or the target is [http_status:404], has left the rule of the
    hostname in the ingress list. *)
Theorem deploy_success {J : Engine} E o projectId w r w' :
  deployProject E o projectId w = (Ok r, w') ->
  success r = true ->
  exists project baseDomain url,
    find (has_id projectId) (projects w) = Some project /\
    configured E (lit "BASE_DOMAIN") baseDomain /\
    serviceUrlOf E {| projectName := p_name project;
                      projectSlug := p_slug project;
                      port := deployProject_port (rows_of projectId (envVars w));
                      internalUrl :=
                        nonblank (getenv E (lit "INTERNAL_REVERSE_PROXY_URL")) |}
    = Some url /\
    let h := sanitizeSlug (slugOrName (p_slug project) (p_name project))
               ++ lit "." ++ baseDomain in
    public_url r = Some (lit "https://" ++ h) /\
    find (is_var projectId (lit "PUBLIC_HOSTNAME")) (envVars w')
    = Some (env_row projectId (lit "PUBLIC_HOSTNAME") h) /\
    find (is_var projectId (lit "PUBLIC_URL")) (envVars w')
    = Some (env_row projectId (lit "PUBLIC_URL") (lit "https://" ++ h)) /\
    (exists p, find (has_id projectId) (projects w') = Some p /\
               p_status p = lit "active") /\
    (url <> lit "http_status:404" ->
     (forall items, tunnelConfig w <> Some (DocSequence items)) ->
     In (host_rule h url) (ingress_of (tunnelConfig w'))).
Proof.
  intros H Hok. unfold deployProject in H.
  apply guarded_success in H; [|exact Hok].
  apply bind_Ok in H. destruct H as (found & w0 & Hfind & H).
  apply project_findUnique_Ok in Hfind. destruct Hfind as [-> ->].
  destruct (find (has_id projectId) (projects w)) as [project|] eqn:Hproject;
    [|discriminate H].
  apply bind_Ok in H. destruct H as (dir & w0 & Hcwd & H).
  apply lift_Ok in Hcwd. destruct Hcwd as [_ ->].
  lazy zeta in H.
  apply bind_Ok in H. destruct H as ([] & w1 & H1 & H).
  apply bind_Ok in H. destruct H as (checks & w2 & H2 & H).
  destruct (negb (docker checks)); [discriminate H|].
  destruct (negb (dockerCompose checks)); [discriminate H|].
  apply bind_Ok in H. destruct H as ([] & w3 & H3 & H).
  apply bind_Ok in H. destruct H as ([] & w4 & H4 & H).
  apply bind_Ok in H. destruct H as (rows & w5 & H5 & H).
  apply envVar_findMany_Ok in H5. destruct H5 as [-> ->].
  apply bind_Ok in H. destruct H as (x & w6 & H6 & H).
  apply bind_Ok in H. destruct H as ([] & w7 & H7 & H).
  apply bind_Ok in H. destruct H as ([] & w8 & H8 & H).
  apply bind_Ok in H. destruct H as ([] & w9 & H9 & H).
  injection H as <- <-.
  assert (Hs1 : store w1 = store w /\ tunnelConfig w1 = tunnelConfig w).
  { split; refine (keeps_run _ _ _ _ _ _ H1);
      (apply keeps_try_catch; [|intros; frame_step]);
      apply keeps_patchComposePorts; reflexivity. }
  assert (Hs2 : store w2 = store w1 /\ tunnelConfig w2 = tunnelConfig w1).
  { split; refine (keeps_run _ _ _ _ _ _ H2);
      apply keeps_checkDockerPrerequisites; reflexivity. }
  assert (Hs3 : store w3 = store w2 /\ tunnelConfig w3 = tunnelConfig w2).
  { split; refine (keeps_run _ _ _ _ _ _ H3); frames. }
  assert (Hs4 : store w4 = store w3 /\ tunnelConfig w4 = tunnelConfig w3).
  { split; refine (keeps_run _ _ _ _ _ _ H4); frames. }
  destruct Hs1 as [Hs1 Hc1], Hs2 as [Hs2 Hc2], Hs3 as [Hs3 Hc3],
    Hs4 as [Hs4 Hc4].
  assert (Hrows : envVars w4 = envVars w).
  { unfold store in *. congruence. }
  assert (Hdoc : tunnelConfig w4 = tunnelConfig w) by congruence.
  rewrite Hrows in H6.
  pose proof (keeps_run store _ _ _ _ (keeps_store_exposure E o _) H6) as Hs6.
  apply exposure_Ok in H6.
  destruct H6 as (base & uuid & url & w5 & Hb & Hu & Hurl & Hdns & Hingress & ->).
  apply ensureCloudflareCname_Ok in Hdns. destruct Hdns as [Hc5 _].
  apply ensureTunnelIngress_Ok in Hingress. destruct Hingress as [_ Hingress].
  apply envVar_upsert_Ok in H7. apply envVar_upsert_Ok in H8.
  apply project_update_status_Ok in H9. destruct H9 as [H9 Hex].
  cbn [hostname publicUrl] in *.
  unfold exposure_hostname in *. cbn [projectSlug projectName] in *.
  exists project, base, url.
  split; [reflexivity|]. split; [exact Hb|]. split; [exact Hurl|].
  cbv zeta. split; [reflexivity|].
  subst w9 w8 w7. cbn [envVars projects tunnelConfig set_projects set_envVars].
  split; [|split; [|split]].
  - rewrite find_upserted_other by (right; discriminate).
    apply find_upserted.
  - apply find_upserted.
  - apply find_with_status. exact Hex.
  - intros Hne Hseq.
    destruct Hingress as [[items Hitems]|[items Hitems]].
    + rewrite Hitems.
      unfold ensureCatchAll404. apply in_or_app. left.
      rewrite filter_app. apply in_or_app. right.
      cbn [filter]. rewrite (is_404_rule _ url Hne). now left.
    + exfalso. apply (Hseq items). now rewrite <- Hdoc, <- Hc5.
Qed.

Lemma deploy_success_witness :
  exists r w',
    deployProject (J := Sample.engine) Sample.env Sample.healthy (lit "p1")
      Sample.world = (Ok r, w') /\
    public_url r = Some (lit "https://demo-1700000000123.example.com") /\
    exists p, find (has_id (lit "p1")) (projects w') = Some p /\
              p_status p = lit "active".
Proof.
  destruct (deployProject (J := Sample.engine) Sample.env Sample.healthy
              (lit "p1") Sample.world)
    as [[r|e] w'] eqn:Hrun; [|exfalso; revert Hrun; vm_compute; discriminate].
  assert (Hr : r = {| success := true; error_message := None;
                      created_project := None;
                      public_url := Some (lit "https://" ++ Sample.hostname) |}).
  { generalize Hrun. vm_compute. intros H. injection H as <- _. reflexivity. }
  destruct (deploy_success (J := Sample.engine) Sample.env Sample.healthy
              (lit "p1") Sample.world r w' Hrun
              (f_equal success Hr))
    as (project & baseDomain & url & _ & _ & _ & H).
  cbv zeta in H. destruct H as (_ & _ & _ & Hstatus & _).
  exists r, w'. split; [reflexivity|].
  split; [exact (f_equal public_url Hr) | exact Hstatus].
Defined.

(** X26.  Pausing a project of the store.  When [docker compose stop]
    succeeds in the docker directory of the project and the store takes the
    update, the status of that project, and of no other, becomes [paused];
    when the command fails the operation reports its fault and changes
    neither the store nor the exposure. *)
Theorem pauseProject_status E o projectId w project dir :
  db_fault o DbProjectFind = None ->
  find (has_id projectId) (projects w) = Some project ->
  cwd E = Ok dir ->
  (forall out,
     exec_result o (lit "docker compose stop")
                 (Some (dockerDir E dir project)) = Ok out ->
     db_fault o DbProjectUpdate = None ->
     exists w',
       pauseProject E o projectId w = (Ok succeeded, w') /\
       projects w' = paused projectId (projects w) /\
       (exists p, find (has_id projectId) (projects w') = Some p /\
                  p_status p = lit "paused") /\
       envVars w' = envVars w /\ exposure w' = exposure w) /\
  (forall e,
     exec_result o (lit "docker compose stop")
                 (Some (dockerDir E dir project)) = Throw e ->
     exists w',
       pauseProject E o projectId w = (Ok (failed e), w') /\
       store w' = store w /\ exposure w' = exposure w).
Proof.
  intros Hdb Hfind Hcwd. unfold pauseProject. split.
  - intros out Hstop Hupd. eexists. split; [|split; [|split; [|split]]].
    + erewrite try_catch_run; [reflexivity|].
      rewrite (bind_run _ _ _ _ _ (find_project_run _ _ _ _ Hdb Hfind)).
      rewrite (bind_run _ _ _ _ _ (process_cwd_run E dir w Hcwd)).
      lazy zeta. fold (dockerDir E dir project).
      unfold bind at 1. rewrite exec_run, Hstop.
      unfold project_update_status, db. rewrite Hupd.
      unfold bind, get, modify. cbn [projects add_event].
      rewrite (find_existsb _ _ _ Hfind). reflexivity.
    + reflexivity.
    + apply find_with_status. exact (find_existsb _ _ _ Hfind).
    + reflexivity.
    + reflexivity.
  - intros e Hstop. eexists. split; [|split].
    + erewrite try_catch_caught; [reflexivity|].
      rewrite (bind_run _ _ _ _ _ (find_project_run _ _ _ _ Hdb Hfind)).
      rewrite (bind_run _ _ _ _ _ (process_cwd_run E dir w Hcwd)).
      lazy zeta. fold (dockerDir E dir project).
      apply bind_throw. rewrite exec_run, Hstop. reflexivity.
    + reflexivity.
    + reflexivity.
Qed.

Lemma pauseProject_status_witness :
  exists w',
    pauseProject Sample.env Sample.healthy (lit "p1") Sample.world
    = (Ok succeeded, w') /\
    exists p, find (has_id (lit "p1")) (projects w') = Some p /\
              p_status p = lit "paused".
Proof.
  destruct (pauseProject_status Sample.env Sample.healthy (lit "p1")
              Sample.world Sample.demo (lit "/srv/console")
              eq_refl eq_refl eq_refl)
    as [Hstops _].
  destruct (Hstops [] eq_refl eq_refl) as (w' & Hrun & _ & Hstatus & _).
  exists w'. split; [exact Hrun | exact Hstatus].
Defined.

Lemma set_envVars_id w : set_envVars (envVars w) w = w.
Proof. destruct w; reflexivity. Qed.

Lemma for_each_upsert_Ok o projectId vars w w' :
  for_each vars (fun kv => envVar_upsert o projectId (fst kv) (snd kv)) w
  = (Ok tt, w') ->
  w' = set_envVars (upserted_all projectId vars (envVars w)) w.
Proof.
  revert w. induction vars as [|kv vars IH]; intros w; cbn [for_each].
  - intros [= <-]. symmetry. apply set_envVars_id.
  - intros H. apply bind_Ok in H. destruct H as ([] & w1 & H1 & H).
    apply envVar_upsert_Ok in H1. apply IH in H. subst w1. exact H.
Qed.

Lemma find_upserted_all_other projectId vars projectId' key' rows :
  projectId' <> projectId \/ ~ In key' (map fst vars) ->
  find (is_var projectId' key') (upserted_all projectId vars rows)
  = find (is_var projectId' key') rows.
Proof.
  revert rows. induction vars as [|kv vars IH]; intros rows Hne; [reflexivity|].
  change (upserted_all projectId (kv :: vars) rows)
    with (upserted_all projectId vars
            (upserted projectId (fst kv) (snd kv) rows)).
  rewrite IH.
  - apply find_upserted_other. destruct Hne as [Hne | Hne]; [now left | right].
    intros ->. apply Hne. now left.
  - destruct Hne as [Hne | Hne]; [now left | right].
    intros Hin. apply Hne. now right.
Qed.

Lemma find_upserted_all projectId vars key value rows :
  NoDup (map fst vars) -> In (key, value) vars ->
  find (is_var projectId key) (upserted_all projectId vars rows)
  = Some (env_row projectId key value).
Proof.
  revert rows. induction vars as [|kv vars IH]; intros rows Hnd Hin; [destruct Hin|].
  change (upserted_all projectId (kv :: vars) rows)
    with (upserted_all projectId vars
            (upserted projectId (fst kv) (snd kv) rows)).
  cbn [map] in Hnd. apply NoDup_cons_iff in Hnd. destruct Hnd as [Hfresh Hnd].
  destruct Hin as [-> | Hin].
  - cbn [fst snd] in *. rewrite find_upserted_all_other by now right.
    apply find_upserted.
  - now apply IH.
Qed.

(** X27.  An update of the environment variables that reports success has
    found the project, has written the [.env] file of the project with one
    line [key=value] for each variable, has stored each variable in the row
    of its key, and has left the rows of the other keys and of the other
    projects, the Project rows and the exposure as they were. *)
Theorem updateProjectEnvVars_success E o projectId vars w r w' :
  updateProjectEnvVars E o projectId vars w = (Ok r, w') ->
  success r = true ->
  NoDup (map fst vars) ->
  exists project dir,
    find (has_id projectId) (projects w) = Some project /\
    cwd E = Ok dir /\
    lookup (path_join E [dockerDir E dir project; lit ".env"]) (files w')
    = Some (envContent vars) /\
    (forall key value,
       In (key, value) vars ->
       find (is_var projectId key) (envVars w')
       = Some (env_row projectId key value)) /\
    (forall projectId' key',
       projectId' <> projectId \/ ~ In key' (map fst vars) ->
       find (is_var projectId' key') (envVars w')
       = find (is_var projectId' key') (envVars w)) /\
    projects w' = projects w /\ exposure w' = exposure w.
Proof.
  intros H Hok Hnd. unfold updateProjectEnvVars in H.
  apply guarded_success in H; [|exact Hok].
  apply bind_Ok in H. destruct H as (found & w0 & Hfind & H).
  apply project_findUnique_Ok in Hfind. destruct Hfind as [-> ->].
  destruct (find (has_id projectId) (projects w)) as [project|] eqn:Hproject;
    [|discriminate H].
  apply bind_Ok in H. destruct H as ([] & w1 & H1 & H).
  apply for_each_upsert_Ok in H1.
  apply bind_Ok in H. destruct H as (dir & w1' & Hcwd & H).
  apply lift_Ok in Hcwd. destruct Hcwd as [Hcwd ->].
  lazy zeta in H.
  apply bind_Ok in H. destruct H as ([] & w2 & H2 & H).
  injection H as <- <-.
  unfold writeFile in H2.
  destruct (fs_fault o FsWrite _); [discriminate H2|].
  injection H2 as <-. subst w1.
  exists project, dir. split; [reflexivity|]. split; [exact Hcwd|].
  split; [apply lookup_head|]. cbn [envVars set_envVars set_files add_event].
  split; [intros key value Hin; now apply find_upserted_all|].
  split; [intros; now apply find_upserted_all_other|].
  split; reflexivity.
Qed.

Lemma updateProjectEnvVars_success_witness :
  find (is_var (lit "p1") (lit "SITE_URL"))
       (envVars
          (snd (updateProjectEnvVars Sample.env Sample.healthy (lit "p1")
                  [(lit "SITE_URL", lit "http://localhost:3000")]
                  Sample.world)))
  = Some (env_row (lit "p1") (lit "SITE_URL") (lit "http://localhost:3000")).
Proof.
  destruct (updateProjectEnvVars_success Sample.env Sample.healthy (lit "p1")
              [(lit "SITE_URL", lit "http://localhost:3000")] Sample.world
              succeeded
              (snd (updateProjectEnvVars Sample.env Sample.healthy (lit "p1")
                      [(lit "SITE_URL", lit "http://localhost:3000")]
                      Sample.world))
              eq_refl eq_refl
              (NoDup_cons (lit "SITE_URL") (fun H : In (lit "SITE_URL") [] => H)
                          (NoDup_nil str)))
    as (project & dir & _ & _ & _ & Hrows & _).
  exact (Hrows _ _ (or_introl eq_refl)).
Defined.

(* ================================================================= *)
(** ** Creation *)


Lemma keeps_generateRandomString {X} (f : World -> X) o n :
  (forall k w, f (set_rng k w) = f w) -> keeps f (generateRandomString o n).
Proof. intros H w. rewrite generateRandomString_run. apply H. Qed.

Lemma keeps_defaultEnvVars {X} (f : World -> X) o timestamp :
  (forall k w, f (set_rng k w) = f w) -> keeps f (defaultEnvVars o timestamp).
Proof.
  intros H. unfold defaultEnvVars, generateJWT.
  repeat lazymatch goal with
         | |- keeps _ (generateRandomString _ _) =>
             apply keeps_generateRandomString; exact H
         | _ => frame_step
         end.
Qed.




Lemma project_create_Ok o name slug description ownerId w project w' :
  project_create o name slug description ownerId w = (Ok project, w') ->
  project = {| p_id := new_project_id o; p_name := name; p_slug := slug;
               p_description := description; p_ownerId := ownerId;
               p_status := lit "created" |} /\
  w' = set_projects (projects w ++ [project]) w.
Proof.
  unfold project_create, db. destruct (db_fault o DbProjectCreate);
    [discriminate|]. intros [= <- <-]. now split.
Qed.

Lemma mkdir_Ok o path w w' :
  mkdir o path w = (Ok tt, w') ->
  w' = set_dirs (path :: dirs w) (add_event (EvMkdir path) w).
Proof.
  unfold mkdir. destruct (fs_fault o FsMkdir path); [discriminate|].
  now intros [= <-].
Qed.

Lemma writeFile_Ok o path content w w' :
  writeFile o path content w = (Ok tt, w') ->
  w' = set_files ((path, content) :: files w) (add_event (EvWriteFile path) w).
Proof.
  unfold writeFile. destruct (fs_fault o FsWrite path); [discriminate|].
  now intros [= <-].
Qed.

Lemma patchComposePorts_Ok o path w w' :
  patchComposePorts o path w = (Ok tt, w') ->
  exists content,
    lookup path (files w) = Some content /\
    lookup path (files w') = Some (patchPortsText content) /\
    (forall other, str_eqb path other = false ->
                   lookup other (files w') = lookup other (files w)) /\
    store w' = store w.
Proof.
  unfold patchComposePorts. intros H.
  apply bind_Ok in H. destruct H as (content & w0 & Hread & H).
  apply readFile_Ok in Hread. destruct Hread as [-> Hlook].
  exists content. split; [exact Hlook|]. cbv zeta in H.
  destruct (str_eqb (patchPortsText content) content) eqn:Eq; cbn [negb] in H.
  - injection H as <-. apply str_eqb_eq in Eq. rewrite Eq. auto.
  - apply writeFile_Ok in H. subst w'. cbn [files set_files].
    split; [apply lookup_head|]. split; [|reflexivity].
    intros other Hne. cbn [lookup]. now rewrite Hne.
Qed.

Lemma for_each_create_Ok o projectId vars w w' :
  for_each vars (fun kv => envVar_create o projectId (fst kv) (snd kv)) w
  = (Ok tt, w') ->
  w' = set_envVars
         (envVars w ++ map (fun kv => env_row projectId (fst kv) (snd kv)) vars) w.
Proof.
  revert w. induction vars as [|kv vars IH]; intros w; cbn [for_each map].
  - intros [= <-]. rewrite app_nil_r. symmetry. apply set_envVars_id.
  - intros H. apply bind_Ok in H. destruct H as ([] & w1 & H1 & H).
    unfold envVar_create, db in H1.
    destruct (db_fault o DbEnvCreate); [discriminate H1|].
    injection H1 as <-. apply IH in H. subst w'.
    cbn [envVars set_envVars]. now rewrite <- app_assoc.
Qed.

(** X29.  A creation that reports success returns the new row, with the slug of
    the name and the creation time and the status [created]; the row is
    the last of the store and the rows of its environment variables follow
    those that were there, the six port rows holding the ports derived from
    the creation time.  The [.env] file holds one line for each variable,
    and the compose file holds the copied template after the identity
    rewrite and the port injection. *)
Theorem createProject_success {J : Engine} E o name userId description w r w' :
  createProject E o name userId description w = (Ok r, w') ->
  success r = true ->
  exists dir vars template,
    let slug := createProject_slug name (now o) in
    let docker := path_join E [projectDir E dir slug; lit "docker"] in
    let composeFile :=
      path_join E [projectDir E dir slug; lit "docker";
                   lit "docker-compose.yml"] in
    let envFile :=
      path_join E [projectDir E dir slug; lit "docker"; lit ".env"] in
    cwd E = Ok dir /\
    created_project r = Some (created o name userId description) /\
    projects w' = projects w ++ [created o name userId description] /\
    envVars w' =
      envVars w
        ++ map (fun kv => env_row (new_project_id o) (fst kv) (snd kv)) vars /\
    map (fun key => lookup key vars) port_keys
    = map (fun p => Some (dec p)) (createProject_ports (now o)) /\
    lookup envFile (files w') = Some (envContent vars) /\
    lookup composeFile
           (copy_tree (sep E) (templateDir E dir) docker (files w) ++ files w)
    = Some template /\
    (envFile <> composeFile ->
     lookup composeFile (files w')
     = Some (patchPortsText (identityRewrite slug template))).
Proof.
  intros H Hok. unfold createProject in H.
  apply guarded_success in H; [|exact Hok]. cbv zeta in H.
  apply bind_Ok in H. destruct H as (project & w1 & H1 & H).
  apply project_create_Ok in H1. destruct H1 as [Hproject Hw1].
  fold (created o name userId description) in Hproject.
  apply bind_Ok in H. destruct H as (dir & w1' & Hcwd & H).
  apply lift_Ok in Hcwd. destruct Hcwd as [Hcwd ->].
  apply bind_Ok in H. destruct H as (dir' & w1' & Hcwd' & H).
  apply lift_Ok in Hcwd'. destruct Hcwd' as [Hcwd' ->].
  assert (dir' = dir) by congruence. subst dir'.
  fold (projectDir E dir (createProject_slug name (now o))) in H.
  fold (templateDir E dir) in H.
  apply bind_Ok in H. destruct H as ([] & w2 & H2 & H).
  apply mkdir_Ok in H2.
  apply bind_Ok in H. destruct H as (out & w3 & H3 & H).
  rewrite exec_run in H3. injection H3 as _ Hw3.
  apply bind_Ok in H. destruct H as ([] & w4 & H4 & H).
  injection H4 as Hw4.
  apply bind_Ok in H. destruct H as (original & w5 & H5 & H).
  apply readFile_Ok in H5. destruct H5 as [-> Horiginal].
  apply bind_Ok in H. destruct H as ([] & w6 & H6 & H).
  apply writeFile_Ok in H6.
  apply bind_Ok in H. destruct H as ([] & w7 & H7 & H).
  apply patchComposePorts_Ok in H7.
  destruct H7 as (written & Hwritten & Hpatched & Hothers & Hs7).
  apply bind_Ok in H. destruct H as (vars & w8 & H8 & H).
  pose proof (defaultEnvVars_ports _ _ _ _ _ H8) as Hports.
  assert (Hf8 : files w8 = files w7).
  { refine (keeps_run files _ _ _ _ _ H8).
    apply keeps_defaultEnvVars. reflexivity. }
  assert (Hs8 : store w8 = store w7).
  { refine (keeps_run store _ _ _ _ _ H8).
    apply keeps_defaultEnvVars. reflexivity. }
  apply bind_Ok in H. destruct H as ([] & w9 & H9 & H).
  apply writeFile_Ok in H9.
  apply bind_Ok in H. destruct H as ([] & w10 & H10 & H).
  apply for_each_create_Ok in H10.
  injection H as <- <-.
  assert (Hstore : store w8 = (projects w ++ [project], envVars w)).
  { rewrite Hs8, Hs7. subst w6 w4 w3 w2 w1. reflexivity. }
  unfold store in Hstore. injection Hstore as Hp8 He8.
  assert (Hwritten' : written = identityRewrite (createProject_slug name (now o))
                                  original).
  { subst w6. cbn [files set_files] in Hwritten.
    rewrite lookup_head in Hwritten. now injection Hwritten as <-. }
  exists dir, vars, original. cbv zeta.
  subst w10 w9. cbn [projects envVars files set_envVars set_files add_event].
  rewrite Hp8, He8, Hproject. cbn [p_id created].
  split; [exact Hcwd|].
  split; [reflexivity|]. split; [reflexivity|]. split; [reflexivity|].
  split; [exact Hports|].
  split; [apply lookup_head|]. split.
  - subst w4 w3 w2 w1. exact Horiginal.
  - intros Hne. cbn [lookup].
    destruct (str_eqb _ _) eqn:Eq; [apply str_eqb_eq in Eq; contradiction|].
    rewrite Hf8, Hpatched, Hwritten'. reflexivity.
Qed.

Lemma createProject_success_witness :
  exists r w' vars,
    createProject (J := Sample.engine) Sample.env Sample.healthy
      (lit "Alpha") (lit "u1") None Sample.installed = (Ok r, w') /\
    envVars w' = map (fun kv => env_row (lit "p1") (fst kv) (snd kv)) vars /\
    map (fun key => lookup key vars) port_keys
    = map (fun p => Some (dec p)) [8123; 8223; 8566; 9123; 10123; 11123]%N.
Proof.
  destruct (createProject (J := Sample.engine) Sample.env Sample.healthy
              (lit "Alpha") (lit "u1") None Sample.installed)
    as [[r|e] w'] eqn:Hrun; [|exfalso; revert Hrun; vm_compute; discriminate].
  assert (Hr : success r = true).
  { generalize Hrun. vm_compute. intros H. injection H as <- _. reflexivity. }
  destruct (createProject_success (J := Sample.engine) Sample.env
              Sample.healthy (lit "Alpha") (lit "u1") None Sample.installed
              r w' Hrun Hr)
    as (dir & vars & template & H).
  cbv zeta in H. destruct H as (_ & _ & _ & Hrows & Hports & _).
  exists r, w', vars. split; [reflexivity|].
  split; [exact Hrows | exact Hports].
Defined.

Lemma slugOrName_created {J : Engine} name timestamp :
  slugOrName (createProject_slug name timestamp) name
  = createProject_slug name timestamp.
Proof.
  unfold slugOrName, createProject_slug.
  destruct (map _ (toLowerCase name)); reflexivity.
Qed.

Lemma find_app_some {T} (p : T -> bool) a b x :
  find p a = Some x -> find p (a ++ b) = Some x.
Proof.
  induction a as [|y a IH]; [discriminate|]. cbn [find app].
  destruct (p y); [trivial | exact IH].
Qed.

Lemma varMap_last rows created key v :
  varMap created key = Some v -> varMap (rows ++ created) key = Some v.
Proof.
  unfold varMap. rewrite rev_app_distr.
  destruct (find _ (rev created)) as [x|] eqn:E; [|discriminate].
  intros [= <-]. now rewrite (find_app_some _ _ _ _ E).
Qed.

Lemma truthy_dec n : truthy (dec n) = true.
Proof. destruct (dec_nonempty n) as (d & ds & -> & _). reflexivity. Qed.

Lemma defaultEnvVars_kong o timestamp w vars w' projectId :
  defaultEnvVars o timestamp w = (Ok vars, w') ->
  varMap (map (fun kv => env_row projectId (fst kv) (snd kv)) vars)
         (lit "KONG_HTTP_PORT")
  = Some (dec (createProject_basePort timestamp)).
Proof.
  unfold defaultEnvVars. intros H.
  repeat (apply bind_Ok in H; destruct H as (? & ? & _ & H)).
  injection H as <- _. reflexivity.
Qed.

(** X30.  The exposure of a created project.  Its hostname is its slug, which
    sanitization leaves as it is, a dot and the base domain, so that
    projects created at different times get different hostnames; and with
    the rows written at creation and no reverse proxy configured, the
    deployment takes the Kong HTTP port of the project as its port:
    the service target is [http://127.0.0.1:<base port>]. *)
Theorem created_project_exposure {J : Engine} E o timestamp w vars w'
    projectId rows name :
  defaultEnvVars o timestamp w = (Ok vars, w') ->
  let created := map (fun kv => env_row projectId (fst kv) (snd kv)) vars in
  let slug := createProject_slug name timestamp in
  let args :=
    {| projectName := name; projectSlug := slug;
       port := deployProject_port (rows ++ created);
       internalUrl := nonblank (getenv E (lit "INTERNAL_REVERSE_PROXY_URL")) |} in
  deployProject_port (rows ++ created)
  = Some (Int (Z.of_N (createProject_basePort timestamp))) /\
  (nonblank (getenv E (lit "INTERNAL_REVERSE_PROXY_URL")) = None ->
   serviceUrlOf E args
   = Some (lit "http://127.0.0.1:" ++ dec (createProject_basePort timestamp))) /\
  (forall baseDomain,
     exposure_hostname args baseDomain = slug ++ lit "." ++ baseDomain) /\
  (forall name' timestamp' p internal baseDomain,
     timestamp <> timestamp' ->
     exposure_hostname args baseDomain
     <> exposure_hostname
          {| projectName := name';
             projectSlug := createProject_slug name' timestamp';
             port := p; internalUrl := internal |} baseDomain).
Proof.
  intros H. cbv zeta.
  pose proof (defaultEnvVars_kong _ _ _ _ _ projectId H) as Hkong.
  assert (Hport : deployProject_port
                    (rows ++ map (fun kv => env_row projectId (fst kv) (snd kv)) vars)
                  = Some (Int (Z.of_N (createProject_basePort timestamp)))).
  { unfold deployProject_port. rewrite (varMap_last _ _ _ _ Hkong).
    unfold or_else at 2. rewrite truthy_dec.
    unfold or_else. rewrite truthy_dec.
    rewrite truthy_dec, parseInt_dec. reflexivity. }
  assert (Hfix : forall n t, sanitizeSlug (createProject_slug n t)
                             = createProject_slug n t)
    by (intros; apply sanitizeSlug_fixed, createProject_slug_chars).
  assert (Hhost : forall n t p internal base,
            exposure_hostname {| projectName := n;
                                 projectSlug := createProject_slug n t;
                                 port := p; internalUrl := internal |} base
            = createProject_slug n t ++ lit "." ++ base).
  { intros. unfold exposure_hostname; cbn [projectSlug projectName].
    now rewrite slugOrName_created, Hfix. }
  split; [exact Hport|]. split; [|split].
  - intros Hproxy. unfold serviceUrlOf.
    cbn [internalUrl port]. rewrite Hport, Hproxy. cbn [nonblank].
    assert (Hpos : (0 < Z.of_N (createProject_basePort timestamp) < 18000)%Z).
    { unfold createProject_basePort. rewrite N2Z.inj_add, N2Z.inj_mod.
      pose proof (Z.mod_pos_bound (Z.of_N timestamp) (Z.of_N 10000) eq_refl).
      change (Z.of_N 8000) with 8000%Z.
      change (Z.of_N 10000) with 10000%Z in *. lia. }
    generalize dependent (createProject_basePort timestamp). intros n _ _ Hpos.
    unfold truthy_number, number_to_string.
    destruct (Z.eqb_spec (Z.of_N n) 0); [lia|].
    destruct (Z.leb_spec (Z.abs (Z.of_N n)) (2 ^ 53)); [|lia].
    destruct (Z.ltb_spec (Z.of_N n) 0); [lia|].
    cbn [negb]. now rewrite N2Z.id.
  - intros base. apply Hhost.
  - intros name' timestamp' p internal base Hne Heq.
    rewrite !Hhost in Heq. apply app_inv_tail in Heq.
    apply Hne. exact (createProject_slug_timestamp _ _ _ _ Heq).
Qed.

Lemma created_project_exposure_witness :
  exists vars w',
    defaultEnvVars Sample.healthy 1700000000123 Sample.installed
    = (Ok vars, w') /\
    deployProject_port
      (map (fun kv => env_row (lit "p1") (fst kv) (snd kv)) vars)
    = Some (Int 8123).
Proof.
  destruct (defaultEnvVars Sample.healthy 1700000000123 Sample.installed)
    as [[vars|e] w'] eqn:Hrun; [|exfalso; revert Hrun; vm_compute; discriminate].
  exists vars, w'. split; [reflexivity|].
  exact (proj1 (created_project_exposure (J := Sample.engine) Sample.env
                  Sample.healthy 1700000000123 Sample.installed vars w'
                  (lit "p1") [] (lit "Alpha") Hrun)).
Defined.
